(** * build-size-diff: baseline lookup, archive extraction, scan totals,
      diff percentages and threshold inputs

    A shallow embedding of the TypeScript action (src/artifact.ts,
    src/scan.ts, src/comment.ts, src/autodetect.ts, src/index.ts) and the properties its
    specification states about it.

    Conventions.
    - Byte counts, ids and page counters are JavaScript numbers that only
      ever hold integers far below 2^53; they are modelled in [Z].
      Numbers that are genuinely fractional (percentages, threshold
      inputs) are IEEE binary64 values, modelled with [PrimFloat.float].
    - An [async] function is a computation in the monad [M]: it threads
      the [World] (request clock, disk, log) and either returns or throws.
    - What the action cannot control (the remote API, file-system faults,
      the JavaScript built-ins [JSON.parse], [parseFloat], the regular
      expression engine) is an oracle carried by an environment record. *)

From Stdlib Require Import ZArith String Ascii List Bool Lia.
From Stdlib Require Import PrimFloat FloatOps FloatAxioms.
From Stdlib Require Import DecimalString.
From stdpp Require Import gmap strings list.

Set Warnings "-register-all".

Local Open Scope string_scope.
Local Open Scope Z_scope.

(* ===================================================================== *)
(** ** The JavaScript run time: outcomes, the world, the monad            *)
(* ===================================================================== *)

Module Js.

(** A call either returns a value or throws. A thrown JavaScript [Error]
    is kept as its [message], which is all the action ever reads from it
    ([error instanceof Error ? error.message : String(error)]). *)
Inductive Outcome (A : Type) : Type :=
| Ok (a : A)
| Throw (message : string).
Arguments Ok {A} a.
Arguments Throw {A} message.

(** An entry of an archive as adm-zip presents it. *)
Record ZipEntry := {
  entryName : string;
  isDirectory : bool;
  header_size : option Z;          (* entry.header?.size, the declared size *)
  getData : Outcome string;        (* entry.getData(): the inflated bytes *)
}.

(** A downloaded response body, seen through what the code observes of it:
    its byte length, its bytes read as text, and what adm-zip makes of it
    (the entries, or an exception when it is not a readable archive). *)
Record Download := {
  byteLength : Z;                  (* zipBuffer.length *)
  body : string;
  archive : Outcome (list ZipEntry);
}.

(** What is stored under a path. *)
Inductive Node :=
| Dir
| ZipFile (d : Download)
| DataFile (bytes : string).

(** Effects other than disk writes, newest first. *)
Inductive Event :=
| Warning (msg : string)        (* core.warning *)
| Info (msg : string)           (* core.info *)
| SetFailed (msg : string)      (* core.setFailed *)
| Sleep (ms : Z)                (* await sleep(ms) *)
| GetData (entryName : string). (* entry.getData(): the entry is inflated *)

Record World := {
  requests : nat;               (* remote requests issued so far *)
  fsops : nat;                  (* file-system calls issued so far *)
  disk : gmap string Node;
  log : list Event;
}.

(** A value produced by [JSON.parse]. *)
Inductive JSON :=
| JNull
| JBool (b : bool)
| JNumber (x : float)
| JString (s : string)
| JArray (items : list JSON)
| JObject (members : list (string * JSON)).

(** How a loop body or a [try] block hands control back: it falls through,
    or it executed a [return] of the enclosing function. *)
Inductive Flow (R : Type) : Type :=
| Continue
| Return (value : R).
Arguments Continue {R}.
Arguments Return {R} value.

Definition M (A : Type) : Type := World -> Outcome A * World.

Definition ret {A} (a : A) : M A := fun w => (Ok a, w).

Definition throw {A} (message : string) : M A := fun w => (Throw message, w).

Definition bind {A B} (m : M A) (k : A -> M B) : M B :=
  fun w =>
    match m w with
    | (Ok a, w') => k a w'
    | (Throw e, w') => (Throw e, w')
    end.

(** [try { body } catch (error) { handler(message) }] *)
Definition try_catch {A} (body : M A) (handler : string -> M A) : M A :=
  fun w =>
    match body w with
    | (Ok a, w') => (Ok a, w')
    | (Throw e, w') => handler e w'
    end.

Definition lift {A} (o : Outcome A) : M A := fun w => (o, w).

Definition emit (e : Event) : M unit :=
  fun w => (Ok tt, {| requests := requests w; fsops := fsops w;
                      disk := disk w; log := e :: log w |}).

Definition warning (msg : string) : M unit := emit (Warning msg).
Definition info (msg : string) : M unit := emit (Info msg).
Definition setFailed (msg : string) : M unit := emit (SetFailed msg).
Definition sleep (ms : Z) : M unit := emit (Sleep ms).

(** A remote request: the answer may depend on how many requests came
    before it, which is how transient failures are expressed. *)
Definition request {A} (answer : nat -> Outcome A) : M A :=
  fun w => (answer (requests w),
            {| requests := S (requests w); fsops := fsops w;
               disk := disk w; log := log w |}).

(** [${n}] for an integer-valued number. *)
Definition show (n : Z) : string := NilZero.string_of_int (Z.to_int n).

(** [list.join(sep)] *)
Definition join (sep : string) (l : list string) : string := String.concat sep l.

(** The double-quote character, for the texts that hold one. *)
Definition quote : string := String (ascii_of_nat 34) "".

(** Truthiness of a string ([!!s]). *)
Definition nonEmpty (s : string) : bool := negb (String.eqb s "").

(** [x || fallback] on an optional string (undefined and the empty string
    are falsy). *)
Definition orElse (x : option string) (fallback : string) : string :=
  match x with
  | Some s => if nonEmpty s then s else fallback
  | None => fallback
  end.

End Js.

Export Js.

Declare Scope js_scope.
Delimit Scope js_scope with js.
Notation "'let*' x ':=' m 'in' k" := (bind m (fun x => k))
  (at level 10, x pattern, m at level 100, k at level 200) : js_scope.
Notation "m ';;' k" := (bind m (fun _ => k))
  (at level 100, k at level 200, right associativity) : js_scope.
Local Open Scope js_scope.

(* ===================================================================== *)
(** ** Node's [path] module (POSIX flavour)                               *)
(* ===================================================================== *)

Module Path.

Definition sep : string := "/".

Definition isSlash (c : ascii) : bool := Ascii.eqb c "/"%char.

(** [path.split('/')] *)
Fixpoint splitFrom (s : string) (current : string) : list string :=
  match s with
  | EmptyString => [current]
  | String c rest =>
      if isSlash c then current :: splitFrom rest ""
      else splitFrom rest (current ++ String c "")
  end.

Definition split (s : string) : list string := splitFrom s "".

(** Node's [normalizeString]: drops empty and [.] segments and resolves
    [..] against the segment before it. [stack] holds the result so far,
    last segment first. *)
Fixpoint normalizeSegments (allowAboveRoot : bool) (segs : list string)
    (stack : list string) : list string :=
  match segs with
  | [] => rev stack
  | seg :: rest =>
      if String.eqb seg "" || String.eqb seg "." then
        normalizeSegments allowAboveRoot rest stack
      else if String.eqb seg ".." then
        match stack with
        | top :: below =>
            if String.eqb top ".." then
              normalizeSegments allowAboveRoot rest (".." :: stack)
            else normalizeSegments allowAboveRoot rest below
        | [] =>
            if allowAboveRoot then normalizeSegments allowAboveRoot rest [".."]
            else normalizeSegments allowAboveRoot rest []
        end
      else normalizeSegments allowAboveRoot rest (seg :: stack)
  end.

Definition isAbsolute (p : string) : bool := String.prefix "/" p.

Definition endsWithSlash (p : string) : bool :=
  match rev (list_ascii_of_string p) with
  | c :: _ => isSlash c
  | [] => false
  end.

(** [path.normalize] *)
Definition normalize (p : string) : string :=
  if String.eqb p "" then "."
  else
    let abs := isAbsolute p in
    let trailing := endsWithSlash p in
    let inner := join "/" (normalizeSegments (negb abs) (split p) []) in
    if String.eqb inner "" then
      (if abs then "/" else if trailing then "./" else ".")
    else
      let inner := if trailing then inner ++ "/" else inner in
      if abs then "/" ++ inner else inner.

(** [path.join(...paths)] *)
Definition joinPaths (paths : list string) : string :=
  let joined := join "/" (List.filter nonEmpty paths) in
  if String.eqb joined "" then "." else normalize joined.

(** The right-to-left scan of [path.resolve]: arguments are prepended
    until one of them is absolute. *)
Fixpoint resolveFrom (rightToLeft : list string) (acc : string) : string * bool :=
  match rightToLeft with
  | [] => (acc, false)
  | p :: rest =>
      if String.eqb p "" then resolveFrom rest acc
      else
        let acc' := p ++ "/" ++ acc in
        if isAbsolute p then (acc', true) else resolveFrom rest acc'
  end.

(** [path.resolve(...paths)] with the process working directory [cwd]. *)
Definition resolve (cwd : string) (paths : list string) : string :=
  let '(joined, abs) := resolveFrom (rev (cwd :: paths)) "" in
  let inner := join "/" (normalizeSegments (negb abs) (split joined) []) in
  if abs then "/" ++ inner
  else if String.eqb inner "" then "." else inner.

Fixpoint skipWhile (f : ascii -> bool) (l : list ascii) : list ascii :=
  match l with
  | c :: rest => if f c then skipWhile f rest else l
  | [] => []
  end.

(** [path.dirname] *)
Definition dirname (p : string) : string :=
  match list_ascii_of_string p with
  | [] => "."
  | first :: others =>
      let hasRoot := isSlash first in
      let afterTrailing := skipWhile isSlash (rev others) in
      match skipWhile (fun c => negb (isSlash c)) afterTrailing with
      | [] => if hasRoot then "/" else "."
      | _ :: before =>
          match before with
          | [] => if hasRoot then "//" else String first ""
          | _ => String first (string_of_list_ascii (rev before))
          end
      end
  end.

(** Segment-wise common prefix removal, for [path.relative]. *)
Fixpoint stripCommon (from to : list string) : list string * list string :=
  match from, to with
  | f :: from', t :: to' =>
      if String.eqb f t then stripCommon from' to' else (from, to)
  | _, _ => (from, to)
  end.

(** [path.relative(from, to)] *)
Definition relative (cwd from to : string) : string :=
  let segs p := normalizeSegments false (split (resolve cwd [p])) [] in
  let '(up, down) := stripCommon (segs from) (segs to) in
  join "/" (map (fun _ => "..") up ++ down).

(** Every ancestor directory of a path, the path itself last:
    what [mkdir -p] walks. *)
Definition ancestors (cwd p : string) : list string :=
  let segs := normalizeSegments false (split (resolve cwd [p])) [] in
  map (fun n => "/" ++ join "/" (take n segs)) (seq 1 (List.length segs)).

End Path.

(* ===================================================================== *)
(** ** Parsed values and the file system                                  *)
(* ===================================================================== *)

Module Host.

(** *** Values read from a parsed record file *)

(** [v[key]] for the two keys the action reads, [totalGzip] and [commit]:
    reading a property of [null] throws, an object answers with its member,
    every other value answers [undefined] ([None]). *)
Definition getMember (v : JSON) (key : string) : Outcome (option JSON) :=
  match v with
  | JNull => Throw ("Cannot read properties of null (reading '" ++ key ++ "')")
  | JObject members => Ok (snd <$> List.find (fun kv => String.eqb (fst kv) key) members)
  | _ => Ok None
  end.

(** [!!v] *)
Definition truthy (v : JSON) : bool :=
  match v with
  | JNull => false
  | JBool b => b
  | JNumber x => negb (PrimFloat.eqb x 0 || PrimFloat.is_nan x)
  | JString s => nonEmpty s
  | JArray _ | JObject _ => true
  end.

(** [String(v)], as a template literal applies it. *)
Fixpoint toText (numberToString : float -> string) (v : JSON) : string :=
  match v with
  | JNull => "null"
  | JBool b => if b then "true" else "false"
  | JNumber x => numberToString x
  | JString s => s
  | JArray items =>
      join "," (map (fun item => match item with
                                 | JNull => ""
                                 | _ => toText numberToString item
                                 end) items)
  | JObject _ => "[object Object]"
  end.

Definition textOf (numberToString : float -> string) (v : option JSON) : string :=
  match v with
  | Some j => toText numberToString j
  | None => "undefined"
  end.

(** [`${v.slice(0, 7)}`]: strings and arrays have a [slice], nothing else
    a record file can hold does. *)
Definition sliceText (numberToString : float -> string) (v : option JSON)
  : Outcome string :=
  match v with
  | None => Throw "Cannot read properties of undefined (reading 'slice')"
  | Some JNull => Throw "Cannot read properties of null (reading 'slice')"
  | Some (JString s) => Ok (String.substring 0 7 s)
  | Some (JArray items) => Ok (toText numberToString (JArray (take 7 items)))
  | Some _ => Throw "stats.commit.slice is not a function"
  end.

(** *** The file system *)

(** What the process cannot decide for itself. *)
Record Runtime := {
  cwd : string;                              (* process.cwd() *)
  fsFault : nat -> option string;            (* the n-th fs call fails (EACCES, ENOSPC, ...) *)
  JSON_parse : string -> Outcome JSON;       (* JSON.parse, throwing SyntaxError *)
  numberToString : float -> string;          (* String(x) on a number *)
}.

Definition setDisk (w : World) (d : gmap string Node) : World :=
  {| requests := requests w; fsops := fsops w; disk := d; log := log w |}.

(** A throwing [fs] call: it fails when the fault oracle says so, and
    otherwise acts on the disk. *)
Definition fsCall {A} (rt : Runtime)
    (op : gmap string Node -> Outcome A * gmap string Node) : M A :=
  fun w =>
    let w1 := {| requests := requests w; fsops := S (fsops w);
                 disk := disk w; log := log w |} in
    match fsFault rt (fsops w) with
    | Some e => (Throw e, w1)
    | None => let '(r, d) := op (disk w) in (r, setDisk w1 d)
    end.

Definition writeFileSync (rt : Runtime) (path : string) (content : Node) : M unit :=
  fsCall rt (fun d =>
    let key := Path.resolve (cwd rt) [path] in
    match d !! key with
    | Some Dir => (Throw ("EISDIR: illegal operation on a directory, open '" ++ path ++ "'"), d)
    | _ => (Ok tt, <[key := content]> d)
    end).

Fixpoint mkdirAll (paths : list string) (d : gmap string Node)
  : Outcome unit * gmap string Node :=
  match paths with
  | [] => (Ok tt, d)
  | p :: rest =>
      match d !! p with
      | Some Dir => mkdirAll rest d
      | Some _ => (Throw ("EEXIST: file already exists, mkdir '" ++ p ++ "'"), d)
      | None => mkdirAll rest (<[p := Dir]> d)
      end
  end.

(** [fs.mkdirSync(path, { recursive: true })] *)
Definition mkdirSync (rt : Runtime) (path : string) : M unit :=
  fsCall rt (mkdirAll (Path.ancestors (cwd rt) path)).

(** [fs.existsSync] never throws. *)
Definition existsSync (rt : Runtime) (path : string) : M bool :=
  fun w => (Ok (bool_decide (is_Some (disk w !! Path.resolve (cwd rt) [path]))), w).

(** [fs.readFileSync(path, 'utf-8')] *)
Definition readFileSync (rt : Runtime) (path : string) : M string :=
  fsCall rt (fun d =>
    match d !! Path.resolve (cwd rt) [path] with
    | Some (DataFile bytes) => (Ok bytes, d)
    | Some (ZipFile z) => (Ok (body z), d)
    | Some Dir => (Throw "EISDIR: illegal operation on a directory, read", d)
    | None => (Throw ("ENOENT: no such file or directory, open '" ++ path ++ "'"), d)
    end).

(** [new AdmZip(path).getEntries()] *)
Definition openZip (rt : Runtime) (path : string) : M (list ZipEntry) :=
  fsCall rt (fun d =>
    match d !! Path.resolve (cwd rt) [path] with
    | Some (ZipFile z) => (archive z, d)
    | Some (DataFile _) => (Throw "Invalid or unsupported zip format. No END header found", d)
    | Some Dir => (Throw "EISDIR: illegal operation on a directory, read", d)
    | None => (Throw "Invalid filename", d)
    end).

(** [entry.getData()] *)
Definition inflate (entry : ZipEntry) : M string :=
  emit (GetData (entryName entry));; lift (getData entry).

End Host.

Export Host.

(* ===================================================================== *)
(** ** src/artifact.ts                                                    *)
(* ===================================================================== *)

Module Artifact.

Definition ARTIFACT_NAME : string := "bundle-stats".
Definition STATS_FILE : string := "bundle-stats.json".
Definition RETRY_COUNT : Z := 3.
Definition RETRY_BASE_DELAY_MS : Z := 1000.
Definition MAX_ARTIFACT_SIZE_MB : Z := 50.
Definition MAX_ARTIFACT_UNZIPPED_MB : Z := 200.

Record WorkflowRunRef := {
  head_branch : option string;     (* undefined and null are both [None] *)
}.

Record ArtifactItem := {
  id : Z;
  name : string;
  expired : option bool;
  workflow_run : option WorkflowRunRef;
}.

(** The shapes [extractArtifacts] tells apart in a response's [data]. *)
Inductive ResponseData :=
| DataObject (artifacts : option (option (list ArtifactItem)))
    (* an object: without an [artifacts] key, with one that is no array,
       or with an array *)
| DataArray (items : list ArtifactItem)
| DataOther.

(** The shapes [toBuffer] tells apart. *)
Inductive DownloadData :=
| Bytes (buffer : Download)      (* ArrayBuffer, Buffer, Uint8Array or string *)
| Unsupported.

Record Workflow := { workflow_id : Z; workflow_name : string }.

Record WorkflowRun := { run_id : Z }.

(** The remote API. Every method takes the request clock first, so an
    answer may change from one attempt to the next; [owner] and [repo]
    are fixed for a run and left out. *)
Record Octokit := {
  getWorkflow : nat -> string -> Outcome Z;                      (* workflow.data.id *)
  listRepoWorkflows : nat -> Outcome (list Workflow);            (* data.workflows *)
  listWorkflowRuns : nat -> Z -> string -> Outcome (option (list WorkflowRun));
                                                                 (* data.workflow_runs *)
  listWorkflowRunArtifacts : nat -> Z -> Outcome ResponseData;   (* response.data *)
  downloadArtifact : nat -> Z -> Outcome DownloadData;           (* response.data *)
  listArtifactsForRepo : nat -> list (Outcome ResponseData);
    (* the pages [octokit.paginate.iterator] goes on to yield, 100 per page;
       a page that throws ends the iteration *)
}.

Record Env := {
  runtime : Runtime;
  octokit : Octokit;
  RUNNER_TEMP : option string;             (* process.env.RUNNER_TEMP *)
  GITHUB_WORKFLOW_REF : option string;     (* process.env.GITHUB_WORKFLOW_REF *)
  context_workflow : string;               (* github.context.workflow *)
  workflowRefMatch : string -> option string;
    (* group 1 of ref.match(/\.github\/workflows\/(.+?)@/), if it matches *)
}.

(** The [for] loop of [retryOnFail]: [remaining] is [RETRY_COUNT - attempt]. *)
Fixpoint retryLoop {A} (fn : M A) (operation : string) (remaining : nat)
    (attempt : Z) : M A :=
  match remaining with
  | O => throw "unreachable"
  | S remaining' =>
      try_catch fn (fun error =>
        if attempt =? RETRY_COUNT - 1 then throw error
        else
          let waitMs := RETRY_BASE_DELAY_MS * 2 ^ attempt in
          warning (operation ++ " failed, retrying in " ++ show waitMs ++ "ms ("
                   ++ show (attempt + 1) ++ "/" ++ show RETRY_COUNT ++ ")");;
          sleep waitMs;;
          retryLoop fn operation remaining' (attempt + 1))
  end.

Definition retryOnFail {A} (fn : M A) (operation : string) : M A :=
  retryLoop fn operation (Z.to_nat RETRY_COUNT) 0.

Definition extractArtifacts (data : ResponseData) : list ArtifactItem :=
  match data with
  | DataObject (Some (Some artifacts)) => artifacts
  | DataObject (Some None) => []
  | DataObject None => []
  | DataArray items => items
  | DataOther => []
  end.

Definition toBuffer (data : DownloadData) : Outcome Download :=
  match data with
  | Bytes buffer => Ok buffer
  | Unsupported => Throw "Unsupported artifact download response"
  end.

(** [item.expired] as a condition. *)
Definition isExpired (item : ArtifactItem) : bool :=
  match expired item with Some b => b | None => false end.

(** [item.name === ARTIFACT_NAME && !item.expired] *)
Definition isBaseline (item : ArtifactItem) : bool :=
  String.eqb (name item) ARTIFACT_NAME && negb (isExpired item).

(** The body of the inner loop of the repository scan: a non-expired
    artifact of the right name whose run's branch is a candidate. *)
Definition onCandidateBranch (branchSet : gset string) (item : ArtifactItem) : bool :=
  if negb (String.eqb (name item) ARTIFACT_NAME) || isExpired item then false
  else
    match workflow_run item with
    | Some run =>
        match head_branch run with
        | Some headBranch => nonEmpty headBranch && bool_decide (headBranch ∈ branchSet)
        | None => false
        end
    | None => false
    end.

Definition getWorkflowFileFromRef (env : Env) : option string :=
  match GITHUB_WORKFLOW_REF env with
  | None => None
  | Some ref => if nonEmpty ref then workflowRefMatch env ref else None
  end.

Definition resolveWorkflowId (env : Env) : M (option Z) :=
  let workflowFile := getWorkflowFileFromRef env in
  let* fromRef :=
    match workflowFile with
    | Some file =>
        if nonEmpty file then
          try_catch
            (let* workflowId :=
               retryOnFail (request (fun n => getWorkflow (octokit env) n file))
                 "getWorkflow" in
             ret (Return (Some workflowId)))
            (fun message =>
               warning ("Failed to resolve workflow from ref: " ++ message);;
               ret Continue)
        else ret Continue
    | None => ret Continue
    end in
  match fromRef with
  | Return workflowId => ret workflowId
  | Continue =>
      let* workflows :=
        retryOnFail (request (listRepoWorkflows (octokit env))) "listRepoWorkflows" in
      let workflowName := context_workflow env in
      let matches :=
        List.filter (fun workflow => String.eqb (workflow_name workflow) workflowName)
          workflows in
      match matches with
      | [] =>
          warning "Could not resolve workflow id for baseline lookup.";;
          ret None
      | first :: others =>
          (match others with
           | [] => ret tt
           | _ => warning ("Multiple workflows named " ++ quote ++ workflowName
                           ++ quote ++ " found; using the first match.")
           end);;
          ret (Some (workflow_id first))
      end
  end.

(** The loop over the runs of one branch. *)
Fixpoint searchRuns (env : Env) (branch : string) (workflowRuns : list WorkflowRun)
  : M (option ArtifactItem) :=
  match workflowRuns with
  | [] => ret None
  | run :: later =>
      let* artifactsResponse :=
        retryOnFail
          (request (fun n => listWorkflowRunArtifacts (octokit env) n (run_id run)))
          "listWorkflowRunArtifacts" in
      let artifacts := extractArtifacts artifactsResponse in
      match List.find isBaseline artifacts with
      | Some item =>
          info ("Found baseline artifact in workflow run " ++ show (run_id run)
                ++ " (" ++ branch ++ ")");;
          ret (Some item)
      | None => searchRuns env branch later
      end
  end.

(** The loop over the candidate branches. *)
Fixpoint searchBranches (env : Env) (workflowId : Z) (branches : list string)
  : M (option ArtifactItem) :=
  match branches with
  | [] => ret None
  | branch :: later =>
      let* runs :=
        retryOnFail
          (request (fun n => listWorkflowRuns (octokit env) n workflowId branch))
          "listWorkflowRuns" in
      let workflowRuns := default [] runs in
      match workflowRuns with
      | [] => searchBranches env workflowId later
      | _ =>
          let* found := searchRuns env branch workflowRuns in
          match found with
          | Some item => ret (Some item)
          | None => searchBranches env workflowId later
          end
      end
  end.

Definition findBaselineArtifactFromWorkflowRuns (env : Env) (branches : list string)
  : M (option ArtifactItem) :=
  let* workflowId := resolveWorkflowId env in
  match workflowId with
  | None => ret None
  | Some workflowId =>
      if workflowId =? 0 then ret None
      else searchBranches env workflowId branches
  end.


(** [Math.round(bytes / 1024 / 1024)]: the two divisions by a power of two
    are exact, and [Math.round] rounds halves up. *)
Definition roundMB (bytes : Z) : Z := (bytes + 524288) / 1048576.

Definition maxUnzippedBytes : Z := MAX_ARTIFACT_UNZIPPED_MB * 1024 * 1024.

Definition unzippedWarning : string :=
  "Artifact unzipped size exceeds " ++ show MAX_ARTIFACT_UNZIPPED_MB
  ++ " MB; aborting extraction.".

(** [!target.startsWith(extractDir + path.sep)] *)
Definition escapes (env : Env) (extractDir : string) (entry : ZipEntry) : bool :=
  let target := Path.resolve (cwd (runtime env)) [extractDir; entryName entry] in
  negb (String.prefix (extractDir ++ Path.sep) target).

(** The [for (const entry of entries)] loop of [downloadBaselineArtifact],
    with [unzippedBytes] as its running total. [Return None] is the
    [return null] inside the loop. *)
Fixpoint extractEntries (env : Env) (extractDir : string) (entries : list ZipEntry)
    (unzippedBytes : Z) : M (Flow (option JSON)) :=
  match entries with
  | [] => ret Continue
  | entry :: later =>
      let target := Path.resolve (cwd (runtime env)) [extractDir; entryName entry] in
      if negb (String.prefix (extractDir ++ Path.sep) target) then
        warning ("Skipping path traversal: " ++ entryName entry);;
        extractEntries env extractDir later unzippedBytes
      else if isDirectory entry then
        mkdirSync (runtime env) target;;
        extractEntries env extractDir later unzippedBytes
      else
        let declaredSize := header_size entry in
        if match declaredSize with
           | Some size => unzippedBytes + size >? maxUnzippedBytes
           | None => false
           end
        then
          warning unzippedWarning;;
          ret (Return None)
        else
          let* entryData := inflate entry in
          let entrySize :=
            match declaredSize with
            | Some size => size
            | None => Z.of_nat (String.length entryData)
            end in
          if unzippedBytes + entrySize >? maxUnzippedBytes then
            warning unzippedWarning;;
            ret (Return None)
          else
            mkdirSync (runtime env) (Path.dirname target);;
            writeFileSync (runtime env) target (DataFile entryData);;
            extractEntries env extractDir later (unzippedBytes + entrySize)
  end.

Definition downloadBaselineArtifact (env : Env) (artifactId : Z) (source : string)
  : M (option JSON) :=
  let* downloadData :=
    retryOnFail (request (fun n => downloadArtifact (octokit env) n artifactId))
      "downloadArtifact" in
  let tempDir := orElse (RUNNER_TEMP env) "/tmp" in
  let zipPath := Path.joinPaths [tempDir; "baseline-artifact.zip"] in
  let extractDir := Path.joinPaths [tempDir; "baseline-extracted"] in
  let* zipBuffer := lift (toBuffer downloadData) in
  if byteLength zipBuffer =? 0 then
    warning "Downloaded artifact is empty";;
    ret None
  else
    let maxBytes := MAX_ARTIFACT_SIZE_MB * 1024 * 1024 in
    if byteLength zipBuffer >? maxBytes then
      throw ("Artifact is too large (" ++ show (roundMB (byteLength zipBuffer)) ++ " MB)")
    else
      writeFileSync (runtime env) zipPath (ZipFile zipBuffer);;
      let* extraction :=
        try_catch
          (let* entries := openZip (runtime env) zipPath in
           extractEntries env extractDir entries 0)
          (fun message =>
             warning ("Failed to extract artifact zip: " ++ message);;
             ret (Return None)) in
      match extraction with
      | Return result => ret result
      | Continue =>
          let statsPath := Path.joinPaths [extractDir; STATS_FILE] in
          let* present := existsSync (runtime env) statsPath in
          if negb present then
            warning "bundle-stats.json not found in artifact";;
            ret None
          else
            let* content := readFileSync (runtime env) statsPath in
            let* stats := lift (JSON_parse (runtime env) content) in
            let* totalGzip := lift (getMember stats "totalGzip") in
            let* commit := lift (getMember stats "commit") in
            let* commitPrefix := lift (sliceText (numberToString (runtime env)) commit) in
            info ("Baseline loaded (" ++ source ++ "): "
                  ++ textOf (numberToString (runtime env)) totalGzip
                  ++ " bytes gzip from commit " ++ commitPrefix);;
            ret (Some stats)
      end.

(** How the [for await] loop over the repository's artifact pages ends. *)
Inductive ScanEnd :=
| LoopLeft (artifact : option ArtifactItem) (pageCount totalArtifactsChecked : Z)
    (* by [break], or because the pages ran out *)
| BudgetReached.
    (* by the [return null] of the page budget *)

(** The [for await (const response of ...)] loop of [fetchBaselineArtifact]. *)
Fixpoint scanPages (branches : list string) (branchSet : gset string) (maxPages : Z)
    (pages : list (Outcome ResponseData)) (pageCount totalArtifactsChecked : Z)
  : M ScanEnd :=
  match pages with
  | [] => ret (LoopLeft None pageCount totalArtifactsChecked)
  | page :: later =>
      let* data := request (fun _ => page) in
      let pageCount := pageCount + 1 in
      let artifacts := extractArtifacts data in
      let totalArtifactsChecked :=
        totalArtifactsChecked + Z.of_nat (List.length artifacts) in
      match List.find (onCandidateBranch branchSet) artifacts with
      | Some item =>
          info ("Found baseline artifact after checking " ++ show totalArtifactsChecked
                ++ " artifacts (" ++ show pageCount ++ " pages)");;
          ret (LoopLeft (Some item) pageCount totalArtifactsChecked)
      | None =>
          if pageCount >=? maxPages then
            warning ("Reached max artifact search limit (" ++ show maxPages ++ " pages, "
                     ++ show totalArtifactsChecked ++ " artifacts checked). "
                     ++ "No baseline found for branches: " ++ join ", " branches ++ ". "
                     ++ "Increase max-artifact-pages if your baseline is older. "
                     ++ "Current repository has at least " ++ show totalArtifactsChecked
                     ++ " artifacts - consider reducing artifact retention.");;
            ret BudgetReached
          else scanPages branches branchSet maxPages later pageCount totalArtifactsChecked
      end
  end.

(** Lines 87-111 of [fetchBaselineArtifact]: the targeted lookup and the
    load of what it found. [Return stats] is the [return stats] of line 107. *)
Definition workflowRunLookup (env : Env) (branches : list string)
  : M (Flow (option JSON)) :=
  let* workflowArtifact :=
    try_catch (findBaselineArtifactFromWorkflowRuns env branches)
      (fun message =>
         warning ("Workflow-run lookup failed: " ++ message);;
         ret None) in
  match workflowArtifact with
  | Some artifact =>
      let* stats := downloadBaselineArtifact env (id artifact) "workflow-run" in
      match stats with
      | Some value =>
          if truthy value then ret (Return (Some value))
          else
            warning "Workflow-run baseline download failed; falling back to repo search.";;
            ret Continue
      | None =>
          warning "Workflow-run baseline download failed; falling back to repo search.";;
          ret Continue
      end
  | None => ret Continue
  end.

(** Lines 113-174 of [fetchBaselineArtifact]: the repository-wide scan and
    the load of what it found. *)
Definition repoSearch (env : Env) (branches : list string) (maxPages : Z)
  : M (option JSON) :=
  let branchSet : gset string := list_to_set branches in
  info ("Searching for baseline artifact (max " ++ show maxPages ++ " pages, "
        ++ show (maxPages * 100) ++ " artifacts)");;
  let* pages := (fun w => (Ok (listArtifactsForRepo (octokit env) (requests w)), w)) in
  let* scan := scanPages branches branchSet maxPages pages 0 0 in
  match scan with
  | BudgetReached => ret None
  | LoopLeft None pageCount totalArtifactsChecked =>
      info ("No baseline artifact found for " ++ join ", " branches
            ++ " after checking " ++ show totalArtifactsChecked
            ++ " artifacts (" ++ show pageCount ++ " pages)");;
      ret None
  | LoopLeft (Some artifact) _ _ =>
      downloadBaselineArtifact env (id artifact) "repo-pagination"
  end.

(** [fetchBaselineArtifact(token, branches, maxPages = 10)]. The token only
    builds the client; it is required and non-empty by the time it gets
    here, so [getOctokit] does not throw. *)
Definition fetchBaselineArtifact (env : Env) (branches : list string)
    (maxPages : option Z) : M (option JSON) :=
  let maxPages := default 10 maxPages in
  try_catch
    (let* early := workflowRunLookup env branches in
     match early with
     | Return stats => ret stats
     | Continue => repoSearch env branches maxPages
     end)
    (fun message =>
       warning ("Failed to download baseline: " ++ message);;
       ret None).

End Artifact.


(* ===================================================================== *)
(** ** src/types.ts                                                       *)
(* ===================================================================== *)

Module Types.

(** The interfaces are generic in what a [number] is: the directory scan
    fills them with byte counts ([Z]); the report code computes with
    whatever numbers a record holds ([float]). *)
Record FileStats (num : Type) := {
  path : string;
  name : string;
  size : num;
  gzip : num;
  brotli : num;
}.
Arguments path {num} _.
Arguments name {num} _.
Arguments size {num} _.
Arguments gzip {num} _.
Arguments brotli {num} _.

Record BundleStats (num : Type) := {
  files : list (FileStats num);
  totalSize : num;
  totalGzip : num;
  totalBrotli : num;
  timestamp : string;
  commit : string;
}.
Arguments files {num} _.
Arguments totalSize {num} _.
Arguments totalGzip {num} _.
Arguments totalBrotli {num} _.
Arguments timestamp {num} _.
Arguments commit {num} _.

End Types.

(* ===================================================================== *)
(** ** src/scan.ts                                                        *)
(* ===================================================================== *)

Module Scan.
Import Types.

Inductive Mode := gzipMode | brotliMode.      (* 'gzip' | 'brotli' *)

(** A directory entry as [readdir(dir, { withFileTypes: true })] reports it,
    together with what the calls made on it go on to answer. *)
Inductive Dirent :=
| FileEntry (name : string) (size : Outcome Z)
    (* isFile(); [size] is (await stat(fullPath)).size *)
| DirEntry (name : string) (listing : Outcome (list Dirent))
    (* isDirectory(); [listing] is readdir(fullPath) *)
| OtherEntry (name : string).
    (* a link, socket or device: neither *)

Record Host := {
  cwd : string;
  statDist : Outcome bool;                    (* (await stat(distPath)).isDirectory() *)
  listing : Outcome (list Dirent);            (* readdir(distPath) *)
  compressorOutput : string -> Mode -> Outcome (list Z);
    (* the lengths of the chunks the compressor emits for a file, or the
       error of the read stream or of the compressor *)
  isAssetFile : string -> bool;               (* from ./utils *)
  now : string;                               (* new Date().toISOString() *)
  GITHUB_SHA : option string;                 (* process.env.GITHUB_SHA *)
}.

(** [size += chunk.length] on every ['data'], resolved on ['end']. *)
Definition getCompressedSize (host : Host) (filePath : string) (mode : Mode)
  : Outcome Z :=
  match compressorOutput host filePath mode with
  | Ok chunks => Ok (fold_left (fun size chunk => size + chunk) chunks 0)
  | Throw error => Throw error
  end.

(** One turn of the [for (const entry of entries)] loop of [walk]; the
    inner [fix] is the recursive [await walk(fullPath)]. *)
Fixpoint walkEntry (host : Host) (distPath dir : string) (entry : Dirent)
    (files : list (FileStats Z)) {struct entry} : Outcome (list (FileStats Z)) :=
  match entry with
  | DirEntry entryName listing =>
      let fullPath := Path.joinPaths [dir; entryName] in
      match listing with
      | Throw error => Throw error
      | Ok entries =>
          (fix each (entries : list Dirent) (files : list (FileStats Z)) :=
             match entries with
             | [] => Ok files
             | entry :: later =>
                 match walkEntry host distPath fullPath entry files with
                 | Ok files => each later files
                 | Throw error => Throw error
                 end
             end) entries files
      end
  | FileEntry entryName size =>
      let fullPath := Path.joinPaths [dir; entryName] in
      if isAssetFile host entryName then
        match size with
        | Ok bytes =>
            Ok (files ++ [ {| path := Path.relative (cwd host) distPath fullPath;
                              name := entryName;
                              size := bytes;
                              gzip := 0;
                              brotli := 0 |} ])%list
        | Throw error => Throw error
        end
      else Ok files
  | OtherEntry _ => Ok files
  end.

(** [walk(dir)] on a directory whose [readdir] answers [listing]. *)
Definition walk (host : Host) (distPath dir : string)
    (listing : Outcome (list Dirent)) (files : list (FileStats Z))
  : Outcome (list (FileStats Z)) :=
  match listing with
  | Throw error => Throw error
  | Ok entries =>
      fold_left
        (fun acc entry =>
           match acc with
           | Ok files => walkEntry host distPath dir entry files
           | Throw error => Throw error
           end)
        entries (Ok files)
  end.

(** *** The worker pool

    Each worker is an [async] function: it runs until its next [await]
    and is resumed when the awaited compression settles. Which pending
    compression settles next is the event loop's choice; it is given as a
    [schedule] of worker numbers. *)

Inductive Worker :=
| Awaiting (index : nat) (mode : Mode)   (* suspended in [await getCompressedSize] *)
| Finished.                              (* left the loop by [break] *)

Record Pool := {
  array : list (FileStats Z);            (* the shared [files] array *)
  nextIndex : nat;                       (* the shared counter *)
  workers : list Worker;
}.

(** A worker at the top of [while (true)], with the files from [nextIndex]
    on: it claims indices until one of them makes it wait, or until
    [files[index]] is undefined. Returns its new state and [nextIndex]. *)
Fixpoint loopTop (useGzip useBrotli : bool) (fromNext : list (FileStats Z))
    (nextIndex : nat) : Worker * nat :=
  match fromNext with
  | [] => (Finished, S nextIndex)
  | _ :: later =>
      if useGzip then (Awaiting nextIndex gzipMode, S nextIndex)
      else if useBrotli then (Awaiting nextIndex brotliMode, S nextIndex)
      else loopTop useGzip useBrotli later (S nextIndex)
  end.

(** [Array.from({ length: concurrency }, async () => ...)]: the workers
    start one after the other, each running up to its first [await]. *)
Fixpoint spawn (useGzip useBrotli : bool) (count : nat)
    (files : list (FileStats Z)) (nextIndex : nat) : list Worker * nat :=
  match count with
  | O => ([], nextIndex)
  | S count' =>
      let '(worker, next) := loopTop useGzip useBrotli (drop nextIndex files) nextIndex in
      let '(others, final) := spawn useGzip useBrotli count' files next in
      (worker :: others, final)
  end.

Definition setGzip (file : FileStats Z) (n : Z) : FileStats Z :=
  {| path := path file; name := name file; size := size file;
     gzip := n; brotli := brotli file |}.

Definition setBrotli (file : FileStats Z) (n : Z) : FileStats Z :=
  {| path := path file; name := name file; size := size file;
     gzip := gzip file; brotli := n |}.

(** The compression worker [i] waits for settles, and the worker runs on
    to its next [await]. A rejection rejects the worker's promise. *)
Definition resume (host : Host) (distPath : string) (useGzip useBrotli : bool)
    (pool : Pool) (i : nat) : Outcome Pool :=
  match workers pool !! i with
  | Some (Awaiting index mode) =>
      match array pool !! index with
      | None => Ok pool
      | Some file =>
          let fullPath := Path.joinPaths [distPath; path file] in
          match getCompressedSize host fullPath mode with
          | Throw error => Throw error
          | Ok n =>
              let backToTop files :=
                let '(worker, next) :=
                  loopTop useGzip useBrotli (drop (nextIndex pool) files) (nextIndex pool) in
                {| array := files; nextIndex := next;
                   workers := <[i := worker]> (workers pool) |} in
              match mode with
              | gzipMode =>
                  let files := <[index := setGzip file n]> (array pool) in
                  if useBrotli then
                    Ok {| array := files; nextIndex := nextIndex pool;
                          workers := <[i := Awaiting index brotliMode]> (workers pool) |}
                  else Ok (backToTop files)
              | brotliMode =>
                  Ok (backToTop (<[index := setBrotli file n]> (array pool)))
              end
          end
      end
  | _ => Ok pool
  end.

Definition isFinished (worker : Worker) : bool :=
  match worker with Finished => true | Awaiting _ _ => false end.

(** [await Promise.all(workers)]: resolved once every worker has finished,
    rejected with the first rejection. [None] when the schedule ends
    before either. *)
Fixpoint awaitAll (host : Host) (distPath : string) (useGzip useBrotli : bool)
    (schedule : list nat) (pool : Pool) : option (Outcome (list (FileStats Z))) :=
  if forallb isFinished (workers pool) then Some (Ok (array pool))
  else
    match schedule with
    | [] => None
    | i :: later =>
        match resume host distPath useGzip useBrotli pool i with
        | Throw error => Some (Throw error)
        | Ok pool' => awaitAll host distPath useGzip useBrotli later pool'
        end
    end.

Definition scanDirectory (host : Host) (distPath : string) (useGzip useBrotli : bool)
    (schedule : list nat) : option (Outcome (BundleStats Z)) :=
  match statDist host with
  | Throw _ | Ok false => Some (Throw ("Directory not found: " ++ distPath))
  | Ok true =>
      match walk host distPath distPath (listing host) [] with
      | Throw error => Some (Throw error)
      | Ok files =>
          let concurrency := Nat.max 1 (Nat.min 4 (List.length files)) in
          let '(workers, next) := spawn useGzip useBrotli concurrency files 0 in
          match awaitAll host distPath useGzip useBrotli schedule
                  {| array := files; nextIndex := next; workers := workers |} with
          | None => None
          | Some (Throw error) => Some (Throw error)
          | Some (Ok files) =>
              Some (Ok {| files := files;
                          totalSize := fold_left (fun sum f => sum + size f) files 0;
                          totalGzip := fold_left (fun sum f => sum + gzip f) files 0;
                          totalBrotli := fold_left (fun sum f => sum + brotli f) files 0;
                          timestamp := now host;
                          commit := orElse (GITHUB_SHA host) "unknown" |})
          end
      end
  end.

End Scan.

(* ===================================================================== *)
(** ** src/comment.ts                                                     *)
(* ===================================================================== *)

Module Comment.
Import Types.

Local Open Scope float_scope.

Record DiffMetrics := {
  diffSize : float;
  diffGzip : float;
  diffBrotli : float;
  diffPercentSize : float;
  diffPercentGzip : float;
  diffPercentBrotli : float;
  sizeEmoji : string;
  gzipEmoji : string;
  brotliEmoji : string;
}.

Definition getChangeEmoji (value : float) : string :=
  if 0 <? value then ":arrow_up_small:"
  else if value <? 0 then ":arrow_down_small:"
  else ":white_circle:".

Definition calculateDiffMetrics (current baseline : BundleStats float) : DiffMetrics :=
  let diffSize := totalSize current - totalSize baseline in
  let diffGzip := totalGzip current - totalGzip baseline in
  let diffBrotli := totalBrotli current - totalBrotli baseline in
  let diffPercentSize :=
    if 0 <? totalSize baseline then (diffSize / totalSize baseline) * 100 else 0 in
  let diffPercentGzip :=
    if 0 <? totalGzip baseline then (diffGzip / totalGzip baseline) * 100 else 0 in
  let diffPercentBrotli :=
    if 0 <? totalBrotli baseline then (diffBrotli / totalBrotli baseline) * 100 else 0 in
  {| diffSize := diffSize;
     diffGzip := diffGzip;
     diffBrotli := diffBrotli;
     diffPercentSize := diffPercentSize;
     diffPercentGzip := diffPercentGzip;
     diffPercentBrotli := diffPercentBrotli;
     sizeEmoji := getChangeEmoji diffSize;
     gzipEmoji := getChangeEmoji diffGzip;
     brotliEmoji := getChangeEmoji diffBrotli |}.

End Comment.


(* ===================================================================== *)
(** ** src/index.ts                                                       *)
(* ===================================================================== *)

Module Index.

Record OutputPathResult := {
  out_path : string;
  out_mode : string;               (* 'override' | 'auto' *)
  out_reason : string;
}.

Record ActionInputs := {
  buildCommand : string;
  buildTimeoutMs : Z;
  allowUnsafeBuild : bool;
  failOnStderr : bool;
  distPath : string;
  gzip : bool;
  brotli : bool;
  budgetMaxIncreaseKb : option float;
  warnAboveKb : option float;
  failAboveKb : option float;
  commentMode : string;            (* 'always' | 'on-increase' | 'never' *)
  failOnCommentError : bool;
  skipInstall : bool;
  githubToken : string;
}.

Record Env := {
  getInput : string -> string;     (* core.getInput(key): trimmed, empty when unset *)
  parseFloat : string -> float;    (* the built-in; NaN when no number starts the text *)
  parseInt10 : string -> option Z; (* parseInt(text, 10); [None] is NaN *)
  autoDetect : M (option OutputPathResult);
    (* what the probing of the repository for an output directory
       (autodetect.ts, from "No dist-path provided" on) comes to *)
}.

(** [locateBuildOutput(userProvidedPath)] of ./autodetect: a given path is
    taken as it is. *)
Definition locateBuildOutput (env : Env) (userProvidedPath : string)
  : M (option OutputPathResult) :=
  if nonEmpty userProvidedPath then
    ret (Some {| out_path := userProvidedPath; out_mode := "override";
                 out_reason := "user specified" |})
  else autoDetect env.

Definition readNumberInput (env : Env) (key errorMessage : string)
  : Outcome (option float) :=
  let value := getInput env key in
  if negb (nonEmpty value) then Ok None
  else
    let parsed := parseFloat env value in
    if negb (PrimFloat.is_finite parsed) then Throw errorMessage
    else Ok (Some parsed).

Definition sanitizeNonNegative (value : option float) (key : string)
  : M (option float) :=
  match value with
  | None => ret None
  | Some number =>
      if PrimFloat.ltb number 0 then
        warning (key ++ " cannot be negative; ignoring.");;
        ret None
      else ret (Some number)
  end.

(** [core.getInput(key, { required: true })] *)
Definition getRequiredInput (env : Env) (key : string) : Outcome string :=
  let value := getInput env key in
  if nonEmpty value then Ok value
  else Throw ("Input required and not supplied: " ++ key).

Definition readActionInputs (env : Env) : M ActionInputs :=
  let* budgetRaw :=
    lift (readNumberInput env "budget-max-increase-kb"
            "budget-max-increase-kb must be a number (e.g., 10 or 0.5)") in
  let* warnRaw :=
    lift (readNumberInput env "warn-above-kb"
            "warn-above-kb must be a number (e.g., 50)") in
  let* failRaw :=
    lift (readNumberInput env "fail-above-kb"
            "fail-above-kb must be a number (e.g., 100)") in
  let* budget := sanitizeNonNegative budgetRaw "budget-max-increase-kb" in
  let* warn := sanitizeNonNegative warnRaw "warn-above-kb" in
  let* fail := sanitizeNonNegative failRaw "fail-above-kb" in
  let commentMode :=
    let given := getInput env "comment-mode" in
    if nonEmpty given then given else "always" in
  if negb (existsb (String.eqb commentMode) ["always"; "on-increase"; "never"]) then
    throw "comment-mode must be: always, on-increase, or never"
  else
    let userProvidedPath := getInput env "dist-path" in
    let* outputPath := locateBuildOutput env userProvidedPath in
    match outputPath with
    | None =>
        throw ("Could not auto-detect output directory. "
               ++ "Please specify dist-path input (e.g., dist, build, out).")
    | Some outputPath =>
        info ("Using output path: " ++ out_path outputPath
              ++ " (mode: " ++ out_mode outputPath ++ ")");;
        (if String.eqb (out_mode outputPath) "auto"
         then info ("Auto-detection: " ++ out_reason outputPath)
         else ret tt);;
        let timeoutStr :=
          let given := getInput env "build-timeout-minutes" in
          if nonEmpty given then given else "15" in
        match parseInt10 env timeoutStr with
        | None => throw "build-timeout-minutes must be a positive integer (e.g., 30)"
        | Some timeoutMinutes =>
            if timeoutMinutes <=? 0 then
              throw "build-timeout-minutes must be a positive integer (e.g., 30)"
            else
              let allowUnsafeBuild := String.eqb (getInput env "allow-unsafe-build") "true" in
              let failOnStderr := String.eqb (getInput env "fail-on-stderr") "true" in
              let failOnCommentError :=
                String.eqb (getInput env "fail-on-comment-error") "true" in
              let skipInstall := String.eqb (getInput env "skip-install") "true" in
              let* token := lift (getRequiredInput env "github-token") in
              ret {| buildCommand :=
                       (let given := getInput env "build-command" in
                        if nonEmpty given then given else "npm run build");
                     buildTimeoutMs := timeoutMinutes * 60 * 1000;
                     allowUnsafeBuild := allowUnsafeBuild;
                     failOnStderr := failOnStderr;
                     distPath := out_path outputPath;
                     gzip := negb (String.eqb (getInput env "gzip") "false");
                     brotli := negb (String.eqb (getInput env "brotli") "false");
                     budgetMaxIncreaseKb := budget;
                     warnAboveKb := warn;
                     failAboveKb := fail;
                     commentMode := commentMode;
                     failOnCommentError := failOnCommentError;
                     skipInstall := skipInstall;
                     githubToken := token |}
        end
    end.

(** [run]: everything happens inside one [try]; whatever is thrown ends in
    [core.setFailed]. [afterInputs] stands for lines 15-125, the part of
    the run that follows [readActionInputs]. *)
Definition run (env : Env) (afterInputs : ActionInputs -> M unit) : M unit :=
  try_catch
    (let* inputs := readActionInputs env in
     afterInputs inputs)
    (fun message => setFailed message).

End Index.


(* ===================================================================== *)
(** ** src/autodetect.ts                                                  *)
(* ===================================================================== *)

Module Autodetect.
Import Scan Index.

(** The file system as the synchronous calls of this file see it. A
    listing with file types carries, for each directory in it, what
    listing that directory in turn answers. *)
Record Files := {
  repoRoot : string;                                 (* process.cwd() *)
  existsSync : string -> bool;                       (* fs.existsSync(p) *)
  isDirectory : string -> Outcome bool;              (* fs.statSync(p).isDirectory() *)
  readdirNames : string -> Outcome (list string);    (* fs.readdirSync(p) *)
  readdirEntries : string -> Outcome (list Dirent);
    (* fs.readdirSync(p, { withFileTypes: true }) *)
  isAssetFile : string -> bool;                      (* from ./utils *)
}.

Definition unreadable (dir message : string) : string :=
  "Skipping unreadable directory " ++ quote ++ dir ++ quote ++ ": " ++ message.

(** One turn of the [for (const entry of entries)] loop of
    [directoryHasAssets(dir)]: [true] is its [return true]. For a
    directory the inner [fix] is the loop of the recursive call. *)
Fixpoint entryHasAssets (fs : Files) (dir : string) (entry : Dirent) {struct entry}
  : M bool :=
  match entry with
  | DirEntry entryName listing =>
      let fullPath := Path.joinPaths [dir; entryName] in
      match listing with
      | Throw message => warning (unreadable fullPath message);; ret false
      | Ok entries =>
          (fix each (entries : list Dirent) : M bool :=
             match entries with
             | [] => ret false
             | entry :: later =>
                 let* found := entryHasAssets fs fullPath entry in
                 if found then ret true else each later
             end) entries
      end
  | FileEntry entryName _ => ret (isAssetFile fs entryName)
  | OtherEntry _ => ret false
  end.

(** The loop of [directoryHasAssets(dir)] over the entries of [dir]. *)
Fixpoint anyHasAssets (fs : Files) (dir : string) (entries : list Dirent) : M bool :=
  match entries with
  | [] => ret false
  | entry :: later =>
      let* found := entryHasAssets fs dir entry in
      if found then ret true else anyHasAssets fs dir later
  end.

Definition directoryHasAssets (fs : Files) (dir : string) : M bool :=
  match readdirEntries fs dir with
  | Throw message => warning (unreadable dir message);; ret false
  | Ok entries => anyHasAssets fs dir entries
  end.

(** [fs.existsSync(p) && fs.statSync(p).isDirectory()] *)
Definition isExistingDirectory (fs : Files) (p : string) : Outcome bool :=
  if existsSync fs p then isDirectory fs p else Ok false.

Definition commonPaths : list string := ["dist"; "build"; "out"; ".next"; ".output/public"].

(** The first loop of [locateBuildOutput]. *)
Fixpoint firstCommonPath (fs : Files) (dirNames : list string)
  : M (option OutputPathResult) :=
  match dirNames with
  | [] => ret None
  | dirName :: later =>
      let fullPath := Path.joinPaths [repoRoot fs; dirName] in
      let* isDir := lift (isExistingDirectory fs fullPath) in
      if isDir then
        let* hasAssets := directoryHasAssets fs fullPath in
        if negb hasAssets then firstCommonPath fs later
        else ret (Some {| out_path := dirName; out_mode := "auto";
                          out_reason := "found existing " ++ dirName ++ "/ directory" |})
      else firstCommonPath fs later
  end.

(** A configuration file pattern [/^tool\.config\.(js|ts|mjs|cjs)$/],
    kept as the tool's name, and the directory that tool builds into. *)
Record ToolConfig := { tool : string; candidate : string }.

Definition toolConfigs : list ToolConfig :=
  [ {| tool := "vite"; candidate := "dist" |};
    {| tool := "webpack"; candidate := "dist" |};
    {| tool := "next"; candidate := ".next" |};
    {| tool := "nuxt"; candidate := ".output/public" |};
    {| tool := "svelte"; candidate := "dist" |};
    {| tool := "astro"; candidate := "dist" |} ].

(** [config.pattern.test(f)] *)
Definition patternTest (config : ToolConfig) (f : string) : bool :=
  existsb (fun extension => String.eqb f (tool config ++ ".config." ++ extension))
    ["js"; "ts"; "mjs"; "cjs"].

(** [config.pattern.source] *)
Definition patternSource (config : ToolConfig) : string :=
  "^" ++ tool config ++ "\.config\.(js|ts|mjs|cjs)$".

(** [text.split(separator)[0]] *)
Definition firstPiece (separator text : string) : string :=
  match String.index 0 separator text with
  | Some at_ => String.substring 0 at_ text
  | None => text
  end.

(** The second loop of [locateBuildOutput]. *)
Fixpoint firstToolConfig (fs : Files) (rootFiles : list string)
    (configs : list ToolConfig) : M (option OutputPathResult) :=
  match configs with
  | [] => ret None
  | config :: later =>
      let hasConfig := existsb (patternTest config) rootFiles in
      if hasConfig then
        let candidatePath := Path.joinPaths [repoRoot fs; candidate config] in
        let* isDir := lift (isExistingDirectory fs candidatePath) in
        if isDir then
          let* hasAssets := directoryHasAssets fs candidatePath in
          if negb hasAssets then firstToolConfig fs rootFiles later
          else ret (Some {| out_path := candidate config; out_mode := "auto";
                            out_reason := "detected " ++ firstPiece "\." (patternSource config)
                                          ++ " project" |})
        else firstToolConfig fs rootFiles later
      else firstToolConfig fs rootFiles later
  end.

(** The innermost loop of the monorepo search, over the output
    directory names. *)
Fixpoint collectOutputs (fs : Files) (monoDir subDir subPath : string)
    (outDirs : list string) (candidates : list string) : M (list string) :=
  match outDirs with
  | [] => ret candidates
  | outDir :: later =>
      let outputPath := Path.joinPaths [subPath; outDir] in
      let* isDir := lift (isExistingDirectory fs outputPath) in
      if isDir then
        let* hasAssets := directoryHasAssets fs outputPath in
        if negb hasAssets then collectOutputs fs monoDir subDir subPath later candidates
        else collectOutputs fs monoDir subDir subPath later
               (candidates ++ [Path.joinPaths [monoDir; subDir; outDir]])%list
      else collectOutputs fs monoDir subDir subPath later candidates
  end.

(** The loop over the sub-directories of [apps] or [packages]. *)
Fixpoint collectSubDirs (fs : Files) (monoDir monoPath : string)
    (subDirs : list string) (candidates : list string) : M (list string) :=
  match subDirs with
  | [] => ret candidates
  | subDir :: later =>
      let subPath := Path.joinPaths [monoPath; subDir] in
      let* isDir := lift (isDirectory fs subPath) in
      if isDir then
        let* candidates := collectOutputs fs monoDir subDir subPath commonPaths candidates in
        collectSubDirs fs monoDir monoPath later candidates
      else collectSubDirs fs monoDir monoPath later candidates
  end.

(** The loop over [apps] and [packages]. *)
Fixpoint collectMonoRepo (fs : Files) (monoRepoPaths : list string)
    (candidates : list string) : M (list string) :=
  match monoRepoPaths with
  | [] => ret candidates
  | monoDir :: later =>
      let monoPath := Path.joinPaths [repoRoot fs; monoDir] in
      let* isDir := lift (isExistingDirectory fs monoPath) in
      if isDir then
        let* subDirs := lift (readdirNames fs monoPath) in
        let* candidates := collectSubDirs fs monoDir monoPath subDirs candidates in
        collectMonoRepo fs later candidates
      else collectMonoRepo fs later candidates
  end.

(** [locateBuildOutput(userProvidedPath)], with [repoRoot] left at its
    default. *)
Definition locateBuildOutput (fs : Files) (userProvidedPath : string)
  : M (option OutputPathResult) :=
  if nonEmpty userProvidedPath then
    ret (Some {| out_path := userProvidedPath; out_mode := "override";
                 out_reason := "user specified" |})
  else
    info "No dist-path provided, attempting auto-detection...";;
    let* common := firstCommonPath fs commonPaths in
    match common with
    | Some result => ret (Some result)
    | None =>
        let* rootFiles := lift (readdirNames fs (repoRoot fs)) in
        let* detected := firstToolConfig fs rootFiles toolConfigs in
        match detected with
        | Some result => ret (Some result)
        | None =>
            let* candidates := collectMonoRepo fs ["apps"; "packages"] [] in
            match candidates with
            | [only] =>
                ret (Some {| out_path := only; out_mode := "auto";
                             out_reason := "found single monorepo output directory" |})
            | [] =>
                warning ("Could not auto-detect output directory. "
                         ++ "Please specify dist-path input (e.g., dist, build, out).");;
                ret None
            | _ =>
                warning ("Multiple output directories detected: " ++ join ", " candidates
                         ++ ". Please specify dist-path input to choose one.");;
                ret None
            end
        end
    end.

End Autodetect.

(* ===================================================================== *)
(** ** src/types.ts (DiffResult), src/scan.ts (formatBytes) and the
       pull-request comment of src/comment.ts                             *)
(* ===================================================================== *)

Module Report.
Import Types Comment.

Local Open Scope float_scope.

Record Change := {
  file : string;
  before : float;
  after : float;
  diff : float;
}.

Inductive Status := pass | fail | noBaseline | baselineUpdated.
  (* 'pass' | 'fail' | 'no-baseline' | 'baseline-updated' *)

Inductive ThresholdStatus := thresholdOk | thresholdWarn | thresholdFail.
  (* 'ok' | 'warn' | 'fail' *)

Inductive CompareMetric := byBrotli | byGzip | bySize.
  (* 'brotli' | 'gzip' | 'size' *)

Record DiffResult := {
  baseline : option (BundleStats float);
  current : BundleStats float;
  diffSize : float;
  diffGzip : float;
  diffBrotli : float;
  diffMetric : float;
  diffPercent : float;
  diffPercentGzip : float;
  diffPercentBrotli : float;
  diffPercentSize : float;
  topChanges : list Change;
  compareMetric : CompareMetric;
  status : Status;
  worstDeltaKb : float;
  thresholdStatus : ThresholdStatus;
  thresholdMessage : option string;
  budgetMaxIncreaseKb : option float;
  warnAboveKb : option float;
  failAboveKb : option float;
}.

(** The built-ins of JavaScript's numbers that the formatting uses. *)
Record Numbers := {
  Math_log : float -> float;
  Math_floor : float -> float;
  Math_pow : float -> float -> float;
  toFixed2 : float -> string;          (* x.toFixed(2) *)
}.

(** [Math.min(a, b)]: NaN when either is. *)
Definition Math_min (a b : float) : float :=
  if PrimFloat.is_nan a then a
  else if PrimFloat.is_nan b then b
  else if a <? b then a else b.

(** [${sizes[unitIndex]}] for [sizes = ['B', 'KB', 'MB', 'GB', 'TB']]: an
    index that is none of 0 to 4 reads [undefined]. *)
Definition sizeUnit (unitIndex : float) : string :=
  if unitIndex =? 0 then "B"
  else if unitIndex =? 1 then "KB"
  else if unitIndex =? 2 then "MB"
  else if unitIndex =? 3 then "GB"
  else if unitIndex =? 4 then "TB"
  else "undefined".

(** [formatBytes] of src/scan.ts. *)
Definition formatBytes (js : Numbers) (bytes : float) : string :=
  if bytes =? 0 then "0 B"
  else
    let k := 1024 in
    let i := Math_floor js (Math_log js (PrimFloat.abs bytes) / Math_log js k) in
    let unitIndex := Math_min i 4 in
    let value := bytes / Math_pow js k unitIndex in
    let sign := if bytes <? 0 then "-" else "" in
    (sign ++ toFixed2 js (PrimFloat.abs value) ++ " " ++ sizeUnit unitIndex).

Definition COMMENT_MARKER : string := "<!-- build-size-diff -->".

Definition formatPercent (js : Numbers) (value : float) : string :=
  ((if 0 <=? value then "+" else "") ++ toFixed2 js value ++ "%").

(** [${x >= 0 ? '+' : ''}${formatBytes(x)}] *)
Definition signedBytes (js : Numbers) (x : float) : string :=
  ((if 0 <=? x then "+" else "") ++ formatBytes js x).

(** The line feed of the template literals. *)
Definition nl : string := String (ascii_of_nat 10) "".

(** The loop over [diff.topChanges], which appends one row per change. *)
Definition appendChanges (js : Numbers) (changes : list Change) (body : string) : string :=
  fold_left
    (fun body change =>
       body ++ "| `" ++ file change ++ "` | " ++ formatBytes js (before change)
       ++ " | " ++ formatBytes js (after change) ++ " | "
       ++ signedBytes js (diff change) ++ " " ++ getChangeEmoji (diff change)
       ++ " |" ++ nl)
    changes body.

Definition buildCommentMarkdown (js : Numbers) (d : DiffResult) : string :=
  let statusEmoji :=
    match status d with
    | pass => ":white_check_mark: PASS"
    | fail => ":x: FAIL"
    | noBaseline => ":information_source: NO BASELINE"
    | baselineUpdated => ":white_check_mark: UPDATED"
    end in
  let diffSizeEmoji := getChangeEmoji (diffSize d) in
  let diffEmoji := getChangeEmoji (diffGzip d) in
  let diffBrotliEmoji := getChangeEmoji (diffBrotli d) in
  let body :=
    (COMMENT_MARKER ++ nl
     ++ "## Bundle Size Report " ++ statusEmoji ++ nl
     ++ nl
     ++ "| Metric | Size | Gzip | Brotli |" ++ nl
     ++ "|--------|------|------|--------|" ++ nl
     ++ "| **Total** | " ++ formatBytes js (totalSize (current d)) ++ " | "
     ++ formatBytes js (totalGzip (current d)) ++ " | "
     ++ formatBytes js (totalBrotli (current d)) ++ " |" ++ nl
     ++ "| **Diff** | " ++ signedBytes js (diffSize d) ++ " " ++ diffSizeEmoji ++ " | "
     ++ signedBytes js (diffGzip d) ++ " " ++ diffEmoji ++ " | "
     ++ signedBytes js (diffBrotli d) ++ " " ++ diffBrotliEmoji ++ " |" ++ nl
     ++ "| **Change** | " ++ formatPercent js (diffPercentSize d) ++ " | "
     ++ formatPercent js (diffPercentGzip d) ++ " | "
     ++ formatPercent js (diffPercentBrotli d) ++ " |") in
  let body :=
    match budgetMaxIncreaseKb d with
    | Some budgetKb =>
        let budgetBytes := budgetKb * 1024 in
        let budgetEmoji :=
          (if budgetBytes <? diffMetric d then ":x:" else ":white_check_mark:") in
        let cell (chosen : bool) :=
          (if chosen then formatBytes js budgetBytes ++ " " ++ budgetEmoji else "-") in
        let sizeCell :=
          cell match compareMetric d with bySize => true | _ => false end in
        let gzipCell :=
          cell match compareMetric d with byGzip => true | _ => false end in
        let brotliCell :=
          cell match compareMetric d with byBrotli => true | _ => false end in
        (body ++ nl ++ "| **Budget Limit** | " ++ sizeCell ++ " | " ++ gzipCell ++ " | "
         ++ brotliCell ++ " |")
    | None => body
    end in
  let body := (body ++ nl) in
  let body :=
    match topChanges d with
    | [] => body
    | changes =>
        appendChanges js changes
          (body ++ nl ++ "### Top Changes" ++ nl ++ nl
           ++ "| File | Before | After | Diff |" ++ nl
           ++ "|------|--------|-------|------|" ++ nl)
    end in
  let hasMessage :=
    match thresholdMessage d with Some message => nonEmpty message | None => false end in
  let body :=
    match thresholdMessage d with
    | Some message =>
        if nonEmpty message then
          let label :=
            match thresholdStatus d with
            | thresholdFail => ":x: FAIL"
            | _ => ":warning: WARN"
            end in
          (body ++ nl ++ "> " ++ label ++ " **Threshold:** " ++ message ++ nl)
        else body
    | None => body
    end in
  let body :=
    match status d with
    | fail =>
        if negb hasMessage then
          (body ++ nl
           ++ "> :warning: WARN **Budget exceeded!** Bundle size increased more than the allowed limit."
           ++ nl)
        else body
    | _ => body
    end in
  let body :=
    match status d with
    | noBaseline =>
        (body ++ nl
         ++ "> :information_source: INFO **No baseline found.** Push to main branch first to create a baseline. Future PRs will show comparisons."
         ++ nl)
    | _ => body
    end in
  (body ++ nl ++ "<sub>Generated by build-size-diff Commit: "
   ++ String.substring 0 7 (commit (current d)) ++ "</sub>").

(** A comment of the pull request, by what the action reads of it. *)
Record IssueComment := {
  comment_id : Z;
  comment_body : option string;        (* c.body, which may be undefined *)
}.

(** [octokit.rest.issues], on the repository of the run. *)
Record Issues := {
  listComments : nat -> Z -> list (Outcome (list IssueComment));
    (* the pages [octokit.paginate.iterator] goes on to yield for the
       comments of an issue, newest first, 100 per page *)
  updateComment : nat -> Z -> string -> Outcome unit;   (* comment_id, body *)
  createComment : nat -> Z -> string -> Outcome unit;   (* issue_number, body *)
}.

(** [hay.includes(needle)] *)
Fixpoint includes (needle hay : string) : bool :=
  String.prefix needle hay
  || match hay with
     | EmptyString => false
     | String _ rest => includes needle rest
     end.

(** [c.body?.includes(COMMENT_MARKER)], as a condition. *)
Definition isOurs (c : IssueComment) : bool :=
  match comment_body c with
  | Some text => includes COMMENT_MARKER text
  | None => false
  end.

(** The [for await] loop of [findOurComment]. *)
Fixpoint findInPages (pages : list (Outcome (list IssueComment))) : M (option Z) :=
  match pages with
  | [] => ret None
  | page :: later =>
      let* data := request (fun _ => page) in
      match List.find isOurs data with
      | Some existing => ret (Some (comment_id existing))
      | None => findInPages later
      end
  end.

Definition findOurComment (issues : Issues) (prNumber : Z) : M (option Z) :=
  try_catch
    (let* pages := (fun w => (Ok (listComments issues (requests w) prNumber), w)) in
     findInPages pages)
    (fun message =>
       warning ("Failed to list comments: " ++ message);;
       ret None).

(** [updatePRComment(token, diff, mode, failOnError)]; [prNumber] is
    [context.payload.pull_request?.number]. The token only builds the
    client. *)
Definition updatePRComment (js : Numbers) (issues : Issues) (prNumber : option Z)
    (d : DiffResult) (mode : string) (failOnError : bool) : M unit :=
  if String.eqb mode "never" then ret tt
  else if String.eqb mode "on-increase" && (diffMetric d <=? 0) then ret tt
  else
    match prNumber with
    | None => info "Not a PR, skipping comment"
    | Some prNumber =>
        let body := buildCommentMarkdown js d in
        let* existingComment := findOurComment issues prNumber in
        try_catch
          (match existingComment with
           | Some existingId =>
               request (fun n => updateComment issues n existingId body);;
               info "Updated existing comment"
           | None =>
               request (fun n => createComment issues n prNumber body);;
               info "Created new comment"
           end)
          (fun message =>
             if failOnError then throw message
             else warning ("Failed to post comment: " ++ message))
    end.

End Report.

(* ===================================================================== *)
(** ** src/index.ts: the event, the branches and the gates before the build *)
(* ===================================================================== *)

Module Action.
Import Index.

(** [github.context.payload.pull_request], by what the action reads. *)
Record PullRequest := {
  head_repo : option string;       (* pr.head.repo?.full_name *)
  base_repo : option string;       (* pr.base.repo?.full_name *)
  base_ref : option string;        (* pull_request?.base?.ref *)
}.

(** [github.context], by what the action reads. *)
Record Context := {
  eventName : string;
  ref : string;
  pull_request : option PullRequest;
  default_branch : option string;  (* payload.repository?.default_branch *)
}.

(** ./build, whose two functions run the project's own commands. *)
Record Build := {
  installDeps : M unit;
  executeBuild : string -> Z -> bool -> bool -> M unit;
}.

Definition getDefaultBranchNames (ctx : Context) : list string :=
  match default_branch ctx with
  | Some defaultBranch =>
      if nonEmpty defaultBranch then [defaultBranch] else ["main"; "master"]
  | None => ["main"; "master"]
  end.

Definition getBaselineBranches (ctx : Context) : list string :=
  match pull_request ctx with
  | Some pr =>
      match base_ref pr with
      | Some prBaseRef =>
          if nonEmpty prBaseRef then [prBaseRef] else getDefaultBranchNames ctx
      | None => getDefaultBranchNames ctx
      end
  | None => getDefaultBranchNames ctx
  end.

Definition getDefaultBranchRefs (ctx : Context) : list string :=
  map (fun name => "refs/heads/" ++ name) (getDefaultBranchNames ctx).

(** Lines 15-125 of [run]: what follows [readActionInputs] inside the
    [try]. [rest inputs isMain isPR] stands for lines 73-125, the scan
    and the report, which the gates and the build come before. *)
Definition afterInputs (ctx : Context) (build : Build)
    (rest : ActionInputs -> bool -> bool -> M unit) (inputs : ActionInputs) : M unit :=
  let eventName := eventName ctx in
  (if String.eqb eventName "pull_request_target" then
     warning ("Running on pull_request_target. Workflow runs from base branch but checks out PR code. "
              ++ "Ensure build-command does not execute untrusted scripts from PR. "
              ++ "See: https://securitylab.github.com/research/github-actions-preventing-pwn-requests/")
   else ret tt);;
  (if String.eqb eventName "workflow_run" then
     warning ("Running on workflow_run event. This may have unexpected artifact access permissions. "
              ++ "Recommended: Use pull_request trigger for PR workflows.")
   else ret tt);;
  let isPR := bool_decide (is_Some (pull_request ctx)) in
  let* fork :=
    match pull_request ctx with
    | Some pr =>
        let headRepo := head_repo pr in
        let baseRepo := base_repo pr in
        match headRepo, baseRepo with
        | Some headRepo, Some baseRepo =>
            if nonEmpty headRepo && nonEmpty baseRepo
               && negb (String.eqb headRepo baseRepo) then
              setFailed ("Fork PRs not supported. This action requires " ++ quote
                         ++ "actions: read" ++ quote ++ " permission on base repo. "
                         ++ "See README for limitations.");;
              ret (Return tt)
            else ret Continue
        | _, _ => ret Continue
        end
    | None => ret Continue
    end in
  match fork with
  | Return _ => ret tt
  | Continue =>
      let isMain := existsb (String.eqb (ref ctx)) (getDefaultBranchRefs ctx) in
      if String.eqb eventName "pull_request_target" && negb (allowUnsafeBuild inputs) then
        setFailed ("pull_request_target is disabled by default for safety. "
                   ++ "Set allow-unsafe-build: true to override if you understand the risks.")
      else
        (if String.eqb eventName "pull_request_target" && allowUnsafeBuild inputs then
           warning ("allow-unsafe-build is enabled on pull_request_target. "
                    ++ "Build commands will execute untrusted PR code.")
         else ret tt);;
        (if negb (skipInstall inputs) then installDeps build else ret tt);;
        executeBuild build (buildCommand inputs) (buildTimeoutMs inputs)
          (failOnStderr inputs) (allowUnsafeBuild inputs);;
        rest inputs isMain isPR
  end.

(** [run], with its [try] and its [catch]. *)
Definition run (env : Env) (ctx : Context) (build : Build)
    (rest : ActionInputs -> bool -> bool -> M unit) : M unit :=
  Index.run env (afterInputs ctx build rest).

End Action.


(* ===================================================================== *)
(** ** Vocabulary of the specification                                    *)
(* ===================================================================== *)

Module Spec.
Import Artifact.

(** The world after [events] were logged, the latest first. *)
Definition logged (events : list Event) (w : World) : World :=
  {| requests := requests w; fsops := fsops w; disk := disk w;
     log := (events ++ log w)%list |}.

(** The world after [n] more remote requests. *)
Definition afterRequests (n : nat) (w : World) : World :=
  {| requests := (n + requests w)%nat; fsops := fsops w; disk := disk w;
     log := log w |}.

(** *** Bounded retry *)

(** The delay before the attempt that follows attempt number [attempt]
    (counted from 0): the base delay, doubled once per earlier attempt. *)
Definition backoffMs (attempt : nat) : Z := 1000 * 2 ^ Z.of_nat attempt.

(** The pause between a failed attempt and the next one. *)
Definition pause (operation : string) (attempt : nat) (w : World) : World :=
  logged [ Sleep (backoffMs attempt);
           Warning (operation ++ " failed, retrying in " ++ show (backoffMs attempt)
                    ++ "ms (" ++ show (Z.of_nat attempt + 1) ++ "/3)") ] w.

Definition failed {A} (o : Outcome A * World) : Prop :=
  exists error, fst o = Throw error.

(** [attempts] are consecutive calls of [fn], the first from [w] as attempt
    number [attempt]: each one but the last failed and was followed by a
    pause, and the next call started from the world the pause left. *)
Fixpoint consecutive {A} (fn : M A) (operation : string) (attempt : nat)
    (w : World) (attempts : list (Outcome A * World)) : Prop :=
  match attempts with
  | [] => True
  | o :: later =>
      fn w = o /\
      match later with
      | [] => True
      | _ => failed o /\
             consecutive fn operation (S attempt) (pause operation attempt (snd o)) later
      end
  end.

End Spec.


(* ===================================================================== *)
(** ** Vocabulary for the report and the inputs                           *)
(* ===================================================================== *)

Module Metrics.
Import Types Comment.

(** The three measures a record carries. *)
Inductive Metric := RawSize | Gzip | Brotli.

Definition total (m : Metric) (stats : BundleStats float) : float :=
  match m with
  | RawSize => totalSize stats
  | Gzip => totalGzip stats
  | Brotli => totalBrotli stats
  end.

Definition delta (m : Metric) (d : DiffMetrics) : float :=
  match m with
  | RawSize => diffSize d
  | Gzip => diffGzip d
  | Brotli => diffBrotli d
  end.

Definition percent (m : Metric) (d : DiffMetrics) : float :=
  match m with
  | RawSize => diffPercentSize d
  | Gzip => diffPercentGzip d
  | Brotli => diffPercentBrotli d
  end.

End Metrics.


Module Thresholds.
Import Index.

(** The three numeric threshold inputs, in the order [readActionInputs]
    reads them. *)
Inductive Threshold := Budget | WarnAbove | FailAbove.

Definition key (t : Threshold) : string :=
  match t with
  | Budget => "budget-max-increase-kb"
  | WarnAbove => "warn-above-kb"
  | FailAbove => "fail-above-kb"
  end.

Definition message (t : Threshold) : string :=
  match t with
  | Budget => "budget-max-increase-kb must be a number (e.g., 10 or 0.5)"
  | WarnAbove => "warn-above-kb must be a number (e.g., 50)"
  | FailAbove => "fail-above-kb must be a number (e.g., 100)"
  end.

Definition field (t : Threshold) (inputs : ActionInputs) : option float :=
  match t with
  | Budget => budgetMaxIncreaseKb inputs
  | WarnAbove => warnAboveKb inputs
  | FailAbove => failAboveKb inputs
  end.

End Thresholds.


Module Order.
Import Artifact.

(** What the targeted lookup gets to see, in the order it asks for it:
    branch by branch as given, within a branch run by run as the API
    lists them (most recent first), within a run artifact by artifact. *)
Definition candidates (runsOf : string -> option (list WorkflowRun))
    (artifactsOf : Z -> ResponseData) (branches : list string) : list ArtifactItem :=
  flat_map
    (fun branch =>
       flat_map (fun run => extractArtifacts (artifactsOf (run_id run)))
                (default [] (runsOf branch)))
    branches.

(** The artifacts a run of pages shows, and how many they are. *)
Definition shown (pages : list ResponseData) : list ArtifactItem :=
  flat_map extractArtifacts pages.

(** The warning of an exhausted page budget. *)
Definition budgetWarning (branches : list string) (maxPages checked : Z) : string :=
  "Reached max artifact search limit (" ++ show maxPages ++ " pages, "
  ++ show checked ++ " artifacts checked). "
  ++ "No baseline found for branches: " ++ join ", " branches ++ ". "
  ++ "Increase max-artifact-pages if your baseline is older. "
  ++ "Current repository has at least " ++ show checked
  ++ " artifacts - consider reducing artifact retention.".

End Order.


Module Load.
Import Artifact.

(** The paths [downloadBaselineArtifact] works with. *)
Definition tempDir (env : Env) : string := orElse (RUNNER_TEMP env) "/tmp".
Definition zipPath (env : Env) : string :=
  Path.joinPaths [tempDir env; "baseline-artifact.zip"].
Definition extractDir (env : Env) : string :=
  Path.joinPaths [tempDir env; "baseline-extracted"].
Definition statsPath (env : Env) : string :=
  Path.joinPaths [extractDir env; STATS_FILE].

(** The download request, retried. *)
Definition download (env : Env) (artifactId : Z) : M DownloadData :=
  retryOnFail (request (fun n => downloadArtifact (octokit env) n artifactId))
    "downloadArtifact".

Definition maxBytes : Z := MAX_ARTIFACT_SIZE_MB * 1024 * 1024.

Definition tooLarge (bytes : Z) : string :=
  "Artifact is too large (" ++ show (roundMB bytes) ++ " MB)".

(** The two failures the load treats as hard: it throws instead of
    answering null. [HardFailure env artifactId w error w'] says that the
    load of [artifactId] started in [w] runs into one of them, with that
    [error], leaving the world [w']. *)
Inductive HardFailure (env : Env) (artifactId : Z) (w : World)
  : string -> World -> Prop :=
| Oversized (zipBuffer : Download) (w1 : World) :
    download env artifactId w = (Ok (Bytes zipBuffer), w1) ->
    maxBytes < byteLength zipBuffer ->
    HardFailure env artifactId w (tooLarge (byteLength zipBuffer)) w1
| Malformed (zipBuffer : Download) (w1 w2 w3 w4 : World) (content error : string) :
    download env artifactId w = (Ok (Bytes zipBuffer), w1) ->
    0 < byteLength zipBuffer <= maxBytes ->
    writeFileSync (runtime env) (zipPath env) (ZipFile zipBuffer) w1 = (Ok tt, w2) ->
    (let* entries := openZip (runtime env) (zipPath env) in
     extractEntries env (extractDir env) entries 0) w2 = (Ok Continue, w3) ->
    existsSync (runtime env) (statsPath env) w3 = (Ok true, w3) ->
    readFileSync (runtime env) (statsPath env) w3 = (Ok content, w4) ->
    JSON_parse (runtime env) content = Throw error ->
    HardFailure env artifactId w error w4.

Definition fallbackWarning : string :=
  "Workflow-run baseline download failed; falling back to repo search.".

(** What [fetchBaselineArtifact] does with whatever is thrown inside it. *)
Definition degrade (message : string) : M (option JSON) :=
  warning ("Failed to download baseline: " ++ message);; ret None.

(** The repository-wide scan up to the end of its loop. *)
Definition startScan (env : Env) (branches : list string) (maxPages : Z) : M ScanEnd :=
  info ("Searching for baseline artifact (max " ++ show maxPages ++ " pages, "
        ++ show (maxPages * 100) ++ " artifacts)");;
  let* pages := (fun w => (Ok (listArtifactsForRepo (octokit env) (requests w)), w)) in
  scanPages branches (list_to_set branches) maxPages pages 0 0.

(** [Reaches env branches maxPages w artifact source w1]: the fetch started
    in [w] gets to load [artifact], found by [source], in the world [w1]. *)
Inductive Reaches (env : Env) (branches : list string) (maxPages : Z) (w : World)
  : ArtifactItem -> string -> World -> Prop :=
| ByWorkflowRun (artifact : ArtifactItem) (w1 : World) :
    findBaselineArtifactFromWorkflowRuns env branches w = (Ok (Some artifact), w1) ->
    Reaches env branches maxPages w artifact "workflow-run" w1
| ByRepoScan (artifact : ArtifactItem) (w1 w2 : World) (pageCount checked : Z) :
    workflowRunLookup env branches w = (Ok Continue, w1) ->
    startScan env branches maxPages w1
    = (Ok (LoopLeft (Some artifact) pageCount checked), w2) ->
    Reaches env branches maxPages w artifact "repo-pagination" w2.

(** The size the extraction loop charges an entry with: the size its
    header declares, or else the length of its data. *)
Definition entrySize (entry : ZipEntry) : Z :=
  match header_size entry with
  | Some size => size
  | None =>
      match getData entry with
      | Ok data => Z.of_nat (String.length data)
      | Throw _ => 0
      end
  end.

(** The entries the loop inflates and writes: files inside the sandbox. *)
Definition extracted (env : Env) (dir : string) (entry : ZipEntry) : bool :=
  negb (escapes env dir entry) && negb (isDirectory entry).

(** The cumulative size of an archive's extracted entries. *)
Definition cumulativeSize (env : Env) (dir : string) (entries : list ZipEntry) : Z :=
  foldr (fun entry total => entrySize entry + total) 0
        (List.filter (extracted env dir) entries).

(** The loop did not run to its end: it returned null from inside, or an
    exception interrupted it. *)
Definition stopped (o : Outcome (Flow (option JSON))) : Prop :=
  match o with
  | Ok (Return None) | Throw _ => True
  | Ok (Return (Some _)) | Ok Continue => False
  end.

(** The directory components of a path, outermost first. *)
Definition segments (p : string) : list string :=
  List.filter nonEmpty (Path.split p).

(** [target] lies in [dir] or below it: its components are those of [dir],
    possibly followed by more. *)
Definition within (dir target : string) : Prop :=
  exists rest, segments target = (segments dir ++ rest)%list.

(** What an extraction into [dir] may do to the rest of the disk: a path
    that does not start with [dir/] keeps what it held, unless a directory
    was made there. *)
Definition confined (dir : string) (before after : gmap string Node) : Prop :=
  forall p, String.prefix (dir ++ Path.sep) p = false ->
    after !! p = before !! p \/ after !! p = Some Dir.

(** A string without a slash. *)
Definition noSlash (s : string) : bool :=
  forallb (fun c => negb (Path.isSlash c)) (list_ascii_of_string s).

(** A proper path component: not empty, not [.] or [..], no slash. *)
Definition clean (seg : string) : bool :=
  nonEmpty seg && negb (String.eqb seg ".") && negb (String.eqb seg "..")
  && noSlash seg.

End Load.


Module Totals.
Import Types.

(** The sum of one field over a sequence of files. *)
Definition sumOf (field : FileStats Z -> Z) (files : list (FileStats Z)) : Z :=
  foldr (fun file rest => field file + rest) 0 files.

End Totals.

Module Progress.
Import Types Scan.
Local Open Scope nat_scope.

(** The [await]s a worker has left before it is back at the top of its
    loop. *)
Definition stages (useBrotli : bool) (worker : Worker) : nat :=
  match worker with
  | Awaiting _ gzipMode => if useBrotli then 2 else 1
  | Awaiting _ brotliMode => 1
  | Finished => 0
  end.

Fixpoint pending (useBrotli : bool) (workers : list Worker) : nat :=
  match workers with
  | [] => 0
  | worker :: others => stages useBrotli worker + pending useBrotli others
  end.

(** A bound on the settles the pool can still take: three for every file
    not yet claimed, and what the workers have left. *)
Definition remaining (useBrotli : bool) (pool : Pool) : nat :=
  3 * (List.length (array pool) - nextIndex pool) + pending useBrotli (workers pool).

(** A suspended worker holds the index of a file of the array. *)
Definition holdsFile (count : nat) (worker : Worker) : Prop :=
  match worker with
  | Awaiting index _ => index < count
  | Finished => True
  end.

Definition inBounds (pool : Pool) : Prop :=
  Forall (holdsFile (List.length (array pool))) (workers pool).

End Progress.


Module Cost.

(** The milliseconds slept, as a log shows them. *)
Definition sleptMs (events : list Event) : Z :=
  foldr (fun event total => match event with Sleep ms => ms + total | _ => total end)
        0 events.

End Cost.


Module Resolve.
Import Artifact.

(** The workflows of the repository that carry the running workflow's
    name, in the order the listing has them. *)
Definition namesakes (env : Env) (workflows : list Workflow) : list Workflow :=
  List.filter (fun workflow => String.eqb (workflow_name workflow) (context_workflow env))
    workflows.

(** What [resolveWorkflowId] logs about them. *)
Definition remarks (env : Env) (matches : list Workflow) : list Event :=
  match matches with
  | [] => [Warning "Could not resolve workflow id for baseline lookup."]
  | [_] => []
  | _ => [Warning ("Multiple workflows named " ++ quote ++ context_workflow env
                   ++ quote ++ " found; using the first match.")]
  end.

End Resolve.


Module Footprint.
Import Artifact Load.

(** What the fetch may do to the disk: apart from the path of the stored
    archive and the paths that start with the extraction directory, a
    path keeps what it held, unless a directory was made there. *)
Definition spared (env : Env) (before after : gmap string Node) : Prop :=
  forall p,
    String.prefix (extractDir env ++ Path.sep) p = false ->
    p <> Path.resolve (cwd (runtime env)) [zipPath env] ->
    after !! p = before !! p \/ after !! p = Some Dir.

(** A computation that spares the disk from whatever world it starts. *)
Definition sparing (env : Env) {A} (m : M A) : Prop :=
  forall w, spared env (disk w) (disk (snd (m w))).

End Footprint.

Module Gates.
Import Index Action.

(** The warnings [run] starts with, by the event that triggered it. *)
Definition eventWarnings (ctx : Context) : list Event :=
  if String.eqb (eventName ctx) "pull_request_target" then
    [Warning ("Running on pull_request_target. Workflow runs from base branch but checks out PR code. "
              ++ "Ensure build-command does not execute untrusted scripts from PR. "
              ++ "See: https://securitylab.github.com/research/github-actions-preventing-pwn-requests/")]
  else if String.eqb (eventName ctx) "workflow_run" then
    [Warning ("Running on workflow_run event. This may have unexpected artifact access permissions. "
              ++ "Recommended: Use pull_request trigger for PR workflows.")]
  else [].

Definition forkRefusal : string :=
  "Fork PRs not supported. This action requires " ++ quote ++ "actions: read" ++ quote
  ++ " permission on base repo. See README for limitations.".

Definition targetRefusal : string :=
  "pull_request_target is disabled by default for safety. "
  ++ "Set allow-unsafe-build: true to override if you understand the risks.".

(** The pull request comes from another repository than the one it is
    made against. *)
Definition fromFork (ctx : Context) : bool :=
  match pull_request ctx with
  | Some pr =>
      match head_repo pr, base_repo pr with
      | Some headRepo, Some baseRepo =>
          nonEmpty headRepo && nonEmpty baseRepo && negb (String.eqb headRepo baseRepo)
      | _, _ => false
      end
  | None => false
  end.


End Gates.

Module Measure.
Import Types Scan.
Local Open Scope nat_scope.

(** What the record is to hold for a file under one compression: the
    size [getCompressedSize] reports for the file's path below
    [distPath] when that compression is asked for, and 0 when it is not. *)
Definition measured (host : Host) (distPath : string) (use : bool) (mode : Mode)
    (file : FileStats Z) (value : Z) : Prop :=
  if use then getCompressedSize host (Path.joinPaths [distPath; path file]) mode = Ok value
  else value = 0%Z.

(** A file as [walk] pushes it: nothing measured yet. *)
Definition fresh (file : FileStats Z) : Prop := gzip file = 0%Z /\ brotli file = 0%Z.

(** The same file, whatever has been measured of it. *)
Definition sameFile (a b : FileStats Z) : Prop :=
  path a = path b /\ name a = name b /\ size a = size b.

(** A file of the array while the pool is at work: each compressed size
    is still 0 or is already the measured one. *)
Definition underWay (host : Host) (distPath : string) (useGzip useBrotli : bool)
    (walked file : FileStats Z) : Prop :=
  sameFile walked file
  /\ (gzip file = 0%Z \/ (useGzip = true /\ measured host distPath true gzipMode file (gzip file)))
  /\ (brotli file = 0%Z
      \/ (useBrotli = true /\ measured host distPath true brotliMode file (brotli file))).

(** A file of the finished record. *)
Definition complete (host : Host) (distPath : string) (useGzip useBrotli : bool)
    (walked file : FileStats Z) : Prop :=
  sameFile walked file
  /\ measured host distPath useGzip gzipMode file (gzip file)
  /\ measured host distPath useBrotli brotliMode file (brotli file).

(** Some worker is suspended on file [index] in [mode]. *)
Definition held (workers : list Worker) (index : nat) (mode : Mode) : Prop :=
  exists j, workers !! j = Some (Awaiting index mode).

(** The state of the pool between two settles. *)
Record Sound (host : Host) (distPath : string) (useGzip useBrotli : bool)
    (walked : list (FileStats Z)) (files : list (FileStats Z)) (next : nat)
    (workers : list Worker) : Prop := {
  sound_files : Forall2 (underWay host distPath useGzip useBrotli) walked files;
  sound_workers : forall j index mode,
    workers !! j = Some (Awaiting index mode) ->
    index < next /\ index < List.length files
    /\ (mode = gzipMode -> useGzip = true) /\ (mode = brotliMode -> useBrotli = true);
  sound_claimed : forall i file,
    files !! i = Some file -> i < next ->
    held workers i gzipMode
    \/ (measured host distPath useGzip gzipMode file (gzip file)
        /\ (held workers i brotliMode
            \/ measured host distPath useBrotli brotliMode file (brotli file)));
  sound_finished :
    (exists j, workers !! j = Some Finished) -> List.length files <= next;
}.

(** The pool after the compressions named by [schedule] have settled,
    one after the other. *)
Fixpoint settle (host : Host) (distPath : string) (useGzip useBrotli : bool)
    (schedule : list nat) (pool : Pool) : Outcome Pool :=
  match schedule with
  | [] => Ok pool
  | i :: later =>
      match resume host distPath useGzip useBrotli pool i with
      | Ok pool' => settle host distPath useGzip useBrotli later pool'
      | Throw error => Throw error
      end
  end.

(** The compressions in flight: one for every suspended worker. *)
Definition inFlight (pool : Pool) : nat :=
  List.length (List.filter (fun worker => negb (isFinished worker)) (workers pool)).

End Measure.

Module Assets.
Import Scan Autodetect.

(** An asset file is listed in [entries], or in a directory listed there,
    and so on through directories that can be listed. *)
Inductive AssetBelow (isAsset : string -> bool) : list Dirent -> Prop :=
| asset_here (entries : list Dirent) (fileName : string) (size : Outcome Z) :
    In (FileEntry fileName size) entries -> isAsset fileName = true ->
    AssetBelow isAsset entries
| asset_deeper (entries : list Dirent) (dirName : string) (inside : list Dirent) :
    In (DirEntry dirName (Ok inside)) entries -> AssetBelow isAsset inside ->
    AssetBelow isAsset entries.

(** The same, for one entry. *)
Definition AssetIn (isAsset : string -> bool) (entry : Dirent) : Prop :=
  match entry with
  | FileEntry fileName _ => isAsset fileName = true
  | DirEntry _ (Ok inside) => AssetBelow isAsset inside
  | DirEntry _ (Throw _) => False
  | OtherEntry _ => False
  end.

(** [p] exists, is a directory, can be listed and holds an asset file. *)
Definition holdsAssets (fs : Files) (p : string) : Prop :=
  existsSync fs p = true
  /\ isDirectory fs p = Ok true
  /\ exists entries,
       readdirEntries fs p = Ok entries /\ AssetBelow (isAssetFile fs) entries.

(** A path as the monorepo search proposes it: an output directory with
    assets, in a directory of [apps] or of [packages]. *)
Definition MonoOutput (fs : Files) (proposed : string) : Prop :=
  exists monoDir subDir outDir,
    In monoDir ["apps"; "packages"] /\ In outDir commonPaths
    /\ proposed = Path.joinPaths [monoDir; subDir; outDir]
    /\ holdsAssets fs
         (Path.joinPaths
            [Path.joinPaths [Path.joinPaths [repoRoot fs; monoDir]; subDir]; outDir]).

(** Two worlds that differ in their logs only. *)
Definition onlyLogged (w w' : World) : Prop :=
  requests w' = requests w /\ fsops w' = fsops w /\ disk w' = disk w.

End Assets.



(* ===================================================================== *)
(** ** Sample runs                                                        *)
(* ===================================================================== *)

(** Concrete environments on which the properties below are exercised. *)
Module Sample.
Import Artifact.

Definition recordText : string :=
  "{" ++ quote ++ "totalGzip" ++ quote ++ ":5120," ++ quote ++ "commit" ++ quote
  ++ ":" ++ quote ++ "0123456789abcdef" ++ quote ++ "}".

Definition record : JSON :=
  JObject [("totalGzip", JNumber 5120%float); ("commit", JString "0123456789abcdef")].

(** [JSON.parse] on the two texts the samples hold: the record text, and
    text that is no JSON. [String(x)] on the one number they print. *)
Definition rt : Runtime := {|
  cwd := "/home/runner/work/app/app";
  fsFault := fun _ => None;
  JSON_parse := fun text =>
    if String.eqb text recordText then Ok record
    else Throw "Unexpected token n in JSON at position 1";
  numberToString := fun _ => "5120";
|}.

Definition artifact (artifactId : Z) (artifactName branch : string) : ArtifactItem :=
  {| id := artifactId; name := artifactName; expired := Some false;
     workflow_run := Some {| head_branch := Some branch |} |}.

(** Runs per branch, most recent first, and artifacts per run. *)
Definition runsOf (branch : string) : option (list WorkflowRun) :=
  if String.eqb branch "release" then Some [ {| run_id := 31 |} ]
  else if String.eqb branch "main" then Some [ {| run_id := 42 |}; {| run_id := 41 |} ]
  else Some [].

Definition artifactsOf (run : Z) : ResponseData :=
  if run =? 42 then
    DataObject (Some (Some [artifact 421 "coverage" "main"; artifact 420 "bundle-stats" "main"]))
  else if run =? 41 then DataObject (Some (Some [artifact 410 "bundle-stats" "main"]))
  else if run =? 31 then DataArray [artifact 310 "bundle-stats" "release"]
  else DataObject None.

Definition noRuns (branch : string) : option (list WorkflowRun) := Some [].

(** A remote that answers every request at once. *)
Definition remote (runs : string -> option (list WorkflowRun))
    (download : DownloadData) (pages : list (Outcome ResponseData)) : Octokit :=
  {| getWorkflow := fun _ _ => Ok 7;
     listRepoWorkflows := fun _ => Ok [ {| workflow_id := 7; workflow_name := "CI" |} ];
     listWorkflowRuns := fun _ _ branch => Ok (runs branch);
     listWorkflowRunArtifacts := fun _ run => Ok (artifactsOf run);
     downloadArtifact := fun _ _ => Ok download;
     listArtifactsForRepo := fun _ => pages |}.

Definition envOf (o : Octokit) : Env :=
  {| runtime := rt;
     octokit := o;
     RUNNER_TEMP := Some "/tmp";
     GITHUB_WORKFLOW_REF := Some "acme/app/.github/workflows/ci.yml@refs/heads/main";
     context_workflow := "CI";
     workflowRefMatch := fun _ => Some "ci.yml" |}.

Definition start : World := {| requests := 0; fsops := 0; disk := ∅; log := [] |}.

Definition file (entry : string) (text : string) : ZipEntry :=
  {| entryName := entry; isDirectory := false;
     header_size := Some (Z.of_nat (String.length text)); getData := Ok text |}.

Definition zip (entries : list ZipEntry) : DownloadData :=
  Bytes {| byteLength := 4096; body := "PK"; archive := Ok entries |}.

(** A download of 60 MB. *)
Definition oversized : Env :=
  envOf (remote runsOf
           (Bytes {| byteLength := 62914560; body := "PK";
                     archive := Throw "Invalid or unsupported zip format" |})
           []).

(** An archive whose record file holds no JSON. *)
Definition malformed : Env :=
  envOf (remote runsOf (zip [file "bundle-stats.json" "{not json"]) []).

(** An archive with a record file and an entry that declares 200 MB + 1. *)
Definition bombEntries : list ZipEntry :=
  [ file "bundle-stats.json" recordText;
    {| entryName := "assets/blob.bin"; isDirectory := false;
       header_size := Some 209715201; getData := Throw "Z_BUF_ERROR" |} ].

Definition bomb : Env := envOf (remote runsOf (zip bombEntries) []).

(** An archive with an entry that climbs out of the sandbox. *)
Definition climber : ZipEntry := file "../../etc/passwd" "root:x:0:0".

Definition traversal : Env :=
  envOf (remote runsOf (zip [climber; file "bundle-stats.json" recordText]) []).

(** A download of no bytes, and one page of artifacts to fall back on. *)
Definition emptyDownload : Env :=
  envOf (remote runsOf
           (Bytes {| byteLength := 0; body := ""; archive := Throw "Invalid filename" |})
           [Ok (DataObject (Some (Some [artifact 500 "coverage" "main"])))]).

(** No run on any branch, and three pages without a baseline. *)
Definition pageOf (first : Z) : ResponseData :=
  DataObject (Some (Some [ artifact first "coverage" "main";
                           artifact (first + 1) "bundle-stats" "feature" ])).

Definition crowded : Env :=
  envOf (remote noRuns Unsupported [Ok (pageOf 600); Ok (pageOf 700); Ok (pageOf 800)]).

(** A remote whose every request fails. *)
Definition unreachable : M Z := request (fun n => Throw ("ECONNRESET #" ++ show (Z.of_nat n))).

(** A healthy remote and a good archive. *)
Definition healthy : Env :=
  envOf (remote runsOf (zip [file "bundle-stats.json" recordText]) []).

End Sample.


Module SampleScan.
Import Types Scan.

(** A build output of two assets, a picture and a link. *)
Definition host : Host := {|
  cwd := "/home/runner/work/app/app";
  statDist := Ok true;
  listing := Ok [ FileEntry "app.js" (Ok 1000);
                  DirEntry "assets" (Ok [ FileEntry "style.css" (Ok 400);
                                          FileEntry "logo.png" (Ok 9000) ]);
                  OtherEntry "current" ];
  compressorOutput := fun filePath mode =>
    if String.eqb filePath "dist/app.js" then
      match mode with gzipMode => Ok [300; 41] | brotliMode => Ok [290] end
    else if String.eqb filePath "dist/assets/style.css" then
      match mode with gzipMode => Ok [120] | brotliMode => Ok [64; 32] end
    else Throw "ENOENT: no such file or directory";
  isAssetFile := fun fileName =>
    existsb (String.eqb fileName) ["app.js"; "style.css"];
  now := "2024-05-01T12:00:00.000Z";
  GITHUB_SHA := Some "0123456789abcdef0123456789abcdef01234567";
|}.

(** The compressions settle in this order of workers. *)
Definition schedule : list nat := [1; 0; 0; 1]%nat.

(** What the scan of [dist] produces. *)
Definition scanned : BundleStats Z :=
  Eval vm_compute in
    match scanDirectory host "dist" true true schedule with
    | Some (Ok stats) => stats
    | _ => {| files := []; totalSize := 0; totalGzip := 0; totalBrotli := 0;
              timestamp := ""; commit := "" |}
    end.

End SampleScan.

Module SampleReport.
Import Types.

Definition stats (size gzip brotli : float) : BundleStats float :=
  {| files := []; totalSize := size; totalGzip := gzip; totalBrotli := brotli;
     timestamp := "2024-05-01T12:00:00.000Z"; commit := "0123456" |}.

(** A baseline with no brotli measurement, and a build 5000 gzip bytes
    larger. *)
Definition baseline : BundleStats float := stats 400000 100000 0.
Definition current : BundleStats float := stats 410000 105000 97000.

End SampleReport.

Module SampleInputs.
Import Index.

(** [parseFloat] on the texts the samples hold. *)
Definition parse (text : string) : float :=
  if String.eqb text "-5" then (-5)%float
  else if String.eqb text "50" then 50%float
  else PrimFloat.nan.

Definition inputs (warnAbove : string) : Env := {|
  getInput := fun k =>
    if String.eqb k "warn-above-kb" then warnAbove
    else if String.eqb k "fail-above-kb" then "50"
    else if String.eqb k "dist-path" then "dist"
    else if String.eqb k "github-token" then "ghs_token"
    else "";
  parseFloat := parse;
  parseInt10 := fun text => if String.eqb text "15" then Some 15 else None;
  autoDetect := ret None;
|}.

Definition negative : Env := inputs "-5".
Definition unparseable : Env := inputs "ten".

End SampleInputs.


Module SampleRemote.
Import Artifact.

(** A remote that refuses every request. *)
Definition down : Octokit :=
  {| getWorkflow := fun _ _ => Throw "ECONNRESET";
     listRepoWorkflows := fun _ => Throw "ECONNRESET";
     listWorkflowRuns := fun _ _ _ => Throw "ECONNRESET";
     listWorkflowRunArtifacts := fun _ _ => Throw "ECONNRESET";
     downloadArtifact := fun _ _ => Throw "ECONNRESET";
     listArtifactsForRepo := fun _ => [Throw "ECONNRESET"] |}.

Definition offline : Env := Sample.envOf down.

(** A download that is no archive. *)
Definition notZip : Download :=
  {| byteLength := 4096; body := "<html>"; 
     archive := Throw "Invalid or unsupported zip format. No END header found" |}.

Definition garbled : Env :=
  Sample.envOf (Sample.remote Sample.runsOf (Bytes notZip) []).

(** A run without [GITHUB_WORKFLOW_REF], in a repository with two
    workflows named CI. *)
Definition workflows : list Workflow :=
  [ {| workflow_id := 3; workflow_name := "Docs" |};
    {| workflow_id := 7; workflow_name := "CI" |};
    {| workflow_id := 9; workflow_name := "CI" |} ].

Definition unnamedRef : Env :=
  {| runtime := Sample.rt;
     octokit :=
       {| getWorkflow := fun _ _ => Throw "Not Found";
          listRepoWorkflows := fun _ => Ok workflows;
          listWorkflowRuns := fun _ _ branch => Ok (Sample.runsOf branch);
          listWorkflowRunArtifacts := fun _ run => Ok (Sample.artifactsOf run);
          downloadArtifact := fun _ _ => Throw "Not Found";
          listArtifactsForRepo := fun _ => [] |};
     RUNNER_TEMP := Some "/tmp";
     GITHUB_WORKFLOW_REF := None;
     context_workflow := "CI";
     workflowRefMatch := fun _ => None |}.

End SampleRemote.

Module SampleAction.
Import Index Action.

(** Inputs that pass every check. *)
Definition inputs : Env := SampleInputs.inputs "50".

(** A pull request from a fork. *)
Definition forkPR : Context := {|
  eventName := "pull_request";
  ref := "refs/pull/7/merge";
  pull_request := Some {| head_repo := Some "mallory/app";
                          base_repo := Some "acme/app";
                          base_ref := Some "main" |};
  default_branch := Some "main";
|}.

(** A pull request of the repository itself, run on [pull_request_target]. *)
Definition target : Context := {|
  eventName := "pull_request_target";
  ref := "refs/heads/main";
  pull_request := Some {| head_repo := Some "acme/app";
                          base_repo := Some "acme/app";
                          base_ref := Some "main" |};
  default_branch := Some "main";
|}.

(** A build and a report that leave their marks on the log. *)
Definition build : Build := {|
  installDeps := info "npm ci";
  executeBuild := fun command _ _ _ => info ("ran " ++ command);
|}.

Definition rest (inputs : ActionInputs) (isMain isPR : bool) : M unit :=
  info "scanned and reported".

End SampleAction.

Module SamplePool.
Import Types Scan Measure.

(** The files [walk] finds in the sample build output. *)
Definition walked : list (FileStats Z) :=
  Eval vm_compute in
    match walk SampleScan.host "dist" "dist" (listing SampleScan.host) [] with
    | Ok files => files
    | Throw _ => []
    end.

(** The pool as the two workers start. *)
Definition started : Pool :=
  Eval vm_compute in
    let '(workers, next) := spawn true true 2 walked 0 in
    {| array := walked; nextIndex := next; workers := workers |}.

(** The pool after the second worker's gzip and the first worker's gzip
    have settled. *)
Definition midway : Pool :=
  Eval vm_compute in
    match settle SampleScan.host "dist" true true [1; 0]%nat started with
    | Ok pool => pool
    | Throw _ => started
    end.

End SamplePool.

Module SampleFiles.
Import Scan Autodetect.

Definition root : string := "/home/runner/work/app/app".
Definition dist : string := "/home/runner/work/app/app/dist".

(** A checkout whose only output directory is [dist], holding the sample
    build output. *)
Definition checkout : Files := {|
  repoRoot := root;
  existsSync := fun p => String.eqb p dist;
  isDirectory := fun p =>
    if String.eqb p dist then Ok true
    else Throw ("ENOENT: no such file or directory, stat '" ++ p ++ "'");
  readdirNames := fun p =>
    if String.eqb p root then Ok ["dist"; "package.json"; "vite.config.ts"]
    else Throw ("ENOTDIR: not a directory, scandir '" ++ p ++ "'");
  readdirEntries := fun p =>
    if String.eqb p dist then listing SampleScan.host
    else Throw ("ENOENT: no such file or directory, scandir '" ++ p ++ "'");
  isAssetFile := Scan.isAssetFile SampleScan.host;
|}.

End SampleFiles.

Module SampleComments.
Import Types Report.

(** Stand-ins for the number built-ins, enough to build a comment. *)
Definition numbers : Numbers := {|
  Math_log := fun x => x;
  Math_floor := fun x => x;
  Math_pow := fun _ _ => 1%float;
  toFixed2 := fun _ => "0.00";
|}.

(** A comparison that passed. *)
Definition passed : DiffResult := {|
  baseline := Some SampleReport.baseline;
  current := SampleReport.current;
  diffSize := 10000; diffGzip := 5000; diffBrotli := 97000;
  diffMetric := 5000; diffPercent := 5;
  diffPercentGzip := 5; diffPercentBrotli := 0; diffPercentSize := 2.5;
  topChanges := [ {| file := "app.js"; before := 300; after := 341; diff := 41 |} ];
  compareMetric := byGzip;
  status := pass;
  worstDeltaKb := 9.765625;
  thresholdStatus := thresholdOk;
  thresholdMessage := None;
  budgetMaxIncreaseKb := Some 10%float;
  warnAboveKb := None;
  failAboveKb := None;
|}.

Definition review : IssueComment :=
  {| comment_id := 901; comment_body := Some "Looks good to me" |}.

Definition ours : IssueComment :=
  {| comment_id := 902; comment_body := Some (buildCommentMarkdown numbers passed) |}.

Definition empty : IssueComment := {| comment_id := 903; comment_body := None |}.

(** A pull request with our comment on its second page of comments. *)
Definition commented : Issues := {|
  listComments := fun _ _ => [Ok [review; empty]; Ok [ours; review]; Ok [review]];
  updateComment := fun _ _ _ => Ok tt;
  createComment := fun _ _ _ => Ok tt;
|}.

(** A token that may write comments but not list them. *)
Definition unlistable : Issues := {|
  listComments := fun _ _ => [Throw "Resource not accessible by integration"];
  updateComment := fun _ _ _ => Ok tt;
  createComment := fun _ _ _ => Ok tt;
|}.

End SampleComments.


(* ===================================================================== *)
(** * Properties                                                          *)
(* ===================================================================== *)

(** ** Sanity checks of the run-time model *)

Example path_join_tmp :
  Path.joinPaths ["/tmp"; "baseline-extracted"] = "/tmp/baseline-extracted".
Proof. reflexivity. Qed.

Example path_resolve_inside :
  Path.resolve "/work" ["/tmp/baseline-extracted"; "a/./b/../bundle-stats.json"]
  = "/tmp/baseline-extracted/a/bundle-stats.json".
Proof. reflexivity. Qed.

Example path_resolve_escape :
  Path.resolve "/work" ["/tmp/baseline-extracted"; "../../etc/passwd"] = "/etc/passwd".
Proof. reflexivity. Qed.

Example path_resolve_absolute_entry :
  Path.resolve "/work" ["/tmp/baseline-extracted"; "/etc/passwd"] = "/etc/passwd".
Proof. reflexivity. Qed.

Example path_dirname_nested :
  Path.dirname "/tmp/baseline-extracted/a/b.js" = "/tmp/baseline-extracted/a"
  /\ Path.dirname "/x" = "/" /\ Path.dirname "x" = ".".
Proof. repeat split; reflexivity. Qed.

Example path_relative_down :
  Path.relative "/work" "dist" "dist/assets/app.js" = "assets/app.js".
Proof. reflexivity. Qed.

Example path_ancestors :
  Path.ancestors "/work" "/tmp/x/y" = ["/tmp"; "/tmp/x"; "/tmp/x/y"].
Proof. reflexivity. Qed.

Example show_numbers : show 1000 = "1000" /\ show 0 = "0" /\ show (-5) = "-5".
Proof. repeat split; reflexivity. Qed.

(** ** The monad *)

Section MonadLaws.
Context {A B : Type}.

Lemma bind_ok (m : M A) (k : A -> M B) w a w' :
  m w = (Ok a, w') -> bind m k w = k a w'.
Proof. intros H. unfold bind. now rewrite H. Qed.

Lemma bind_throw (m : M A) (k : A -> M B) w e w' :
  m w = (Throw e, w') -> bind m k w = (Throw e, w').
Proof. intros H. unfold bind. now rewrite H. Qed.

Lemma bind_lift_ok (a : A) (k : A -> M B) w : bind (lift (Ok a)) k w = k a w.
Proof. reflexivity. Qed.

Lemma bind_lift_throw (e : string) (k : A -> M B) w :
  bind (lift (Throw e)) k w = (Throw e, w).
Proof. reflexivity. Qed.

Lemma try_catch_ok (m : M A) (h : string -> M A) w a w' :
  m w = (Ok a, w') -> try_catch m h w = (Ok a, w').
Proof. intros H. unfold try_catch. now rewrite H. Qed.

Lemma try_catch_throw (m : M A) (h : string -> M A) w e w' :
  m w = (Throw e, w') -> try_catch m h w = h e w'.
Proof. intros H. unfold try_catch. now rewrite H. Qed.
End MonadLaws.

(** ** Facts about paths *)

Section PathFacts.
Import Load.

Lemma append_cons (c : ascii) (s t : string) : String c s ++ t = String c (s ++ t).
Proof. reflexivity. Qed.

Lemma append_nil_r (s : string) : s ++ "" = s.
Proof.
  induction s as [|c s IH]; [reflexivity|]. now rewrite append_cons, IH.
Qed.

Lemma append_assoc (a b c : string) : (a ++ b) ++ c = a ++ (b ++ c).
Proof.
  induction a as [|x a IH]; [reflexivity|]. now rewrite !append_cons, IH.
Qed.

Lemma prefix_append (p s : string) :
  String.prefix p s = true -> exists suffix, s = p ++ suffix.
Proof.
  revert s. induction p as [|c p IH]; intros s H.
  - now exists s.
  - destruct s as [|d s]; [discriminate|]. cbn [String.prefix] in H.
    destruct (Ascii.ascii_dec c d) as [->|]; [|discriminate].
    destruct (IH _ H) as [suffix ->]. now exists suffix.
Qed.

Lemma prefix_of_append (p suffix : string) : String.prefix p (p ++ suffix) = true.
Proof.
  induction p as [|c p IH]; [now destruct suffix|]. rewrite append_cons.
  cbn [String.prefix]. destruct (Ascii.ascii_dec c c); [exact IH|contradiction].
Qed.

(** Splitting distributes over a separator. *)
Lemma splitFrom_slash (a b current : string) :
  Path.splitFrom (a ++ "/" ++ b) current
  = (Path.splitFrom a current ++ Path.split b)%list.
Proof.
  revert current. induction a as [|c a IH]; intros current.
  - reflexivity.
  - rewrite append_cons. cbn [Path.splitFrom]. destruct (Path.isSlash c).
    + cbn [app]. now rewrite IH.
    + apply IH.
Qed.

Lemma segments_slash (a b : string) :
  segments (a ++ "/" ++ b) = (segments a ++ segments b)%list.
Proof.
  unfold segments, Path.split. rewrite splitFrom_slash.
  apply List.filter_app.
Qed.

(** Passing the [startsWith] test puts the target in the directory. *)
Lemma prefix_within (dir target : string) :
  String.prefix (dir ++ Path.sep) target = true -> within dir target.
Proof.
  intros H. apply prefix_append in H as [suffix ->].
  exists (segments suffix). unfold Path.sep.
  rewrite append_assoc. apply segments_slash.
Qed.

(** *** Resolved paths are in normal form *)

Lemma noSlash_snoc (current : string) (c : ascii) :
  noSlash current = true -> Path.isSlash c = false ->
  noSlash (current ++ String c "") = true.
Proof.
  intros Hcur Hc. induction current as [|d current IH].
  - change ("" ++ String c "") with (String c ""). unfold noSlash.
    cbn [list_ascii_of_string forallb]. now rewrite Hc.
  - rewrite append_cons. unfold noSlash in *. cbn [list_ascii_of_string forallb] in *.
    apply andb_prop in Hcur as [Hd Hrest]. rewrite Hd. now apply IH.
Qed.

Lemma splitFrom_noSlash (s : string) :
  forall current, noSlash current = true ->
    Forall (fun seg => noSlash seg = true) (Path.splitFrom s current).
Proof.
  induction s as [|c s IH]; intros current Hcur; cbn [Path.splitFrom].
  - now constructor.
  - destruct (Path.isSlash c) eqn:Hc.
    + constructor; [exact Hcur|]. now apply IH.
    + apply IH. now apply noSlash_snoc.
Qed.

Lemma splitFrom_single (s : string) :
  noSlash s = true -> forall current, Path.splitFrom s current = [current ++ s].
Proof.
  induction s as [|c s IH]; intros Hs current; cbn [Path.splitFrom].
  - now rewrite append_nil_r.
  - unfold noSlash in Hs. cbn [list_ascii_of_string forallb] in Hs.
    apply andb_prop in Hs as [Hc Hrest]. apply negb_true_iff in Hc. rewrite Hc.
    rewrite (IH Hrest). now rewrite append_assoc.
Qed.

Lemma split_join (segs : list string) :
  segs <> [] -> Forall (fun seg => noSlash seg = true) segs ->
  Path.split (join "/" segs) = segs.
Proof.
  induction segs as [|seg rest IH]; intros Hne Hall; [contradiction|].
  inversion Hall as [|? ? Hseg Hrest]; subst.
  destruct rest as [|next rest'].
  - cbn. now rewrite (splitFrom_single seg Hseg "").
  - change (join "/" (seg :: next :: rest'))
      with (seg ++ "/" ++ join "/" (next :: rest')).
    unfold Path.split. rewrite splitFrom_slash, (splitFrom_single seg Hseg "").
    cbn [append app]. f_equal. now apply IH.
Qed.

Lemma clean_noSlash (seg : string) : clean seg = true -> noSlash seg = true.
Proof. unfold clean. intros H. now apply andb_prop in H as [_ H]. Qed.

(** Normalising keeps clean components clean. *)
Lemma normalizeSegments_clean (segs : list string) :
  forall stack,
    Forall (fun seg => noSlash seg = true) segs ->
    Forall (fun seg => clean seg = true) stack ->
    Forall (fun seg => clean seg = true) (Path.normalizeSegments false segs stack).
Proof.
  induction segs as [|seg rest IH]; intros stack Hsegs Hstack;
    cbn [Path.normalizeSegments].
  - now apply Forall_rev.
  - inversion Hsegs as [|? ? Hseg Hrest]; subst.
    destruct (String.eqb seg "") eqn:E1; cbn [orb]; [now apply IH|].
    destruct (String.eqb seg ".") eqn:E2; [now apply IH|].
    destruct (String.eqb seg "..") eqn:E3.
    + destruct stack as [|top below]; [now apply IH|].
      inversion Hstack as [|? ? Htop Hbelow]; subst.
      destruct (String.eqb top "..") eqn:E4.
      * unfold clean in Htop. rewrite E4 in Htop. cbn in Htop.
        rewrite andb_false_r in Htop. discriminate.
      * now apply IH.
    + apply IH; [exact Hrest|]. constructor; [|exact Hstack].
      unfold clean, nonEmpty. now rewrite E1, E2, E3, Hseg.
Qed.

(** Clean components normalise to themselves. *)
Lemma normalizeSegments_id (segs : list string) :
  Forall (fun seg => clean seg = true) segs ->
  forall stack,
    Path.normalizeSegments false (segs ++ [""])%list stack = (rev stack ++ segs)%list.
Proof.
  induction segs as [|seg rest IH]; intros Hall stack; cbn [app Path.normalizeSegments].
  - cbn. now rewrite app_nil_r.
  - inversion Hall as [|? ? Hseg Hrest]; subst.
    unfold clean, nonEmpty in Hseg.
    apply andb_prop in Hseg as [Hseg _]. apply andb_prop in Hseg as [Hseg E3].
    apply andb_prop in Hseg as [E1 E2].
    apply negb_true_iff in E1, E2, E3. rewrite E1, E2, E3. cbn [orb].
    rewrite (IH Hrest). cbn [rev]. now rewrite <- app_assoc.
Qed.

Lemma prefix_empty (s : string) : String.prefix "" s = true.
Proof. now destruct s. Qed.

Lemma isAbsolute_nonEmpty (p : string) :
  Path.isAbsolute p = true -> String.eqb p "" = false.
Proof. now destruct p. Qed.

Lemma resolveFrom_last_absolute (front : list string) (cwd : string) :
  Path.isAbsolute cwd = true ->
  forall acc, snd (Path.resolveFrom (front ++ [cwd])%list acc) = true.
Proof.
  intros Habs. induction front as [|p front IH]; intros acc;
    cbn [app Path.resolveFrom].
  - now rewrite (isAbsolute_nonEmpty _ Habs), Habs.
  - destruct (String.eqb p ""); [apply IH|].
    destruct (Path.isAbsolute p); [reflexivity|apply IH].
Qed.

(** With an absolute working directory, a resolved path is a slash
    followed by clean components joined by slashes. *)
Lemma resolve_form (cwd : string) (paths : list string) :
  Path.isAbsolute cwd = true ->
  exists segs, Forall (fun seg => clean seg = true) segs
               /\ Path.resolve cwd paths = "/" ++ join "/" segs.
Proof.
  intros Habs. unfold Path.resolve.
  pose proof (resolveFrom_last_absolute (rev paths) cwd Habs "") as Hlast.
  cbn [rev]. destruct (Path.resolveFrom (rev paths ++ [cwd])%list "") as [joined abs].
  cbn [snd] in Hlast. subst abs. cbn [negb].
  eexists. split; [|reflexivity].
  apply normalizeSegments_clean; [|constructor].
  apply splitFrom_noSlash. reflexivity.
Qed.

(** The components of a resolved path are clean: no [.] and no [..] is
    left in it, so comparing paths component by component compares the
    places they name. *)
Lemma resolve_segments_clean (cwd : string) (paths : list string) :
  Path.isAbsolute cwd = true ->
  Forall (fun seg => clean seg = true) (segments (Path.resolve cwd paths)).
Proof.
  intros Habs. destruct (resolve_form cwd paths Habs) as (segs & Hclean & ->).
  unfold segments, Path.split.
  change ("/" ++ join "/" segs) with (String "/" (join "/" segs)).
  cbn [Path.splitFrom]. change (Path.isSlash "/") with true. cbv iota.
  cbn [List.filter nonEmpty String.eqb negb].
  destruct segs as [|seg rest]; [constructor|].
  fold (Path.split (join "/" (seg :: rest))).
  rewrite split_join;
    [| discriminate
     | eapply Forall_impl; [exact Hclean | intros; now apply clean_noSlash]].
  rewrite forallb_filter_id; [exact Hclean|].
  apply forallb_forall. intros x Hx.
  rewrite Forall_forall in Hclean. rewrite <- list_elem_of_In in Hx.
  specialize (Hclean x Hx).
  unfold clean in Hclean. apply andb_prop in Hclean as [Hclean _].
  apply andb_prop in Hclean as [Hclean _]. now apply andb_prop in Hclean as [Hclean _].
Qed.

(** Resolving a resolved path changes nothing. *)
Lemma resolve_idempotent (cwd : string) (paths : list string) :
  Path.isAbsolute cwd = true ->
  Path.resolve cwd [Path.resolve cwd paths] = Path.resolve cwd paths.
Proof.
  intros Habs. destruct (resolve_form cwd paths Habs) as (segs & Hclean & ->).
  change ("/" ++ join "/" segs) with (String "/" (join "/" segs)).
  unfold Path.resolve. cbn [rev app Path.resolveFrom].
  cbn [String.eqb Ascii.eqb Bool.eqb Path.isAbsolute String.prefix].
  destruct (Ascii.ascii_dec "/" "/") as [_|]; [|contradiction].
  rewrite prefix_empty. cbn [negb].
  rewrite (append_cons "/" (join "/" segs) ("/" ++ "")).
  unfold Path.split. cbn [Path.splitFrom].
  change (Path.isSlash "/") with true. cbv iota.
  rewrite splitFrom_slash. change (Path.split "") with [""].
  change (Path.normalizeSegments false
            ("" :: Path.splitFrom (join "/" segs) "" ++ [""])%list [])
    with (Path.normalizeSegments false
            (Path.split (join "/" segs) ++ [""])%list []).
  destruct segs as [|seg rest]; [reflexivity|].
  rewrite split_join;
    [| discriminate
     | eapply Forall_impl; [exact Hclean | intros; now apply clean_noSlash]].
  now rewrite normalizeSegments_id.
Qed.
End PathFacts.

(** ** C6: bounded retry with exponential backoff *)

Section Retry.
Import Artifact Spec.
Context {A : Type} (fn : M A) (operation : string).

Lemma retry_pause (attempt : nat) (k : M A) w :
  (warning (operation ++ " failed, retrying in "
            ++ show (RETRY_BASE_DELAY_MS * 2 ^ Z.of_nat attempt) ++ "ms ("
            ++ show (Z.of_nat attempt + 1) ++ "/" ++ show RETRY_COUNT ++ ")");;
   sleep (RETRY_BASE_DELAY_MS * 2 ^ Z.of_nat attempt);; k) w
  = k (pause operation attempt w).
Proof. reflexivity. Qed.

(** A first attempt that succeeds is the whole story. *)
Lemma retryOnFail_first_ok w a w' :
  fn w = (Ok a, w') -> retryOnFail fn operation w = (Ok a, w').
Proof.
  intros H. unfold retryOnFail. simpl. now apply try_catch_ok.
Qed.

(** The run of [retryOnFail], attempt by attempt. *)
Lemma retryOnFail_unfold w :
  retryOnFail fn operation w =
  match fn w with
  | (Ok a, w1) => (Ok a, w1)
  | (Throw _, w1) =>
      match fn (pause operation 0 w1) with
      | (Ok a, w2) => (Ok a, w2)
      | (Throw _, w2) => fn (pause operation 1 w2)
      end
  end.
Proof.
  unfold retryOnFail. simpl. unfold try_catch at 1.
  destruct (fn w) as [[a|e1] w1]; [reflexivity|].
  change (0 =? RETRY_COUNT - 1) with false. cbv iota.
  rewrite (retry_pause 0). simpl retryLoop. unfold try_catch at 1.
  destruct (fn (pause operation 0 w1)) as [[a|e2] w2]; [reflexivity|].
  change (0 + 1 =? RETRY_COUNT - 1) with false. cbv iota.
  rewrite (retry_pause 1). simpl retryLoop. unfold try_catch at 1.
  destruct (fn (pause operation 1 w2)) as [[a|e3] w3]; reflexivity.
Qed.

(** C6. Every call wrapped in [retryOnFail] is attempted at least once
    and at most 3 times; a failed attempt number i (from 0) is followed
    by a warning and a sleep of 1000 * 2^i ms (1000 ms, then 2000 ms)
    before the next attempt; the result of the wrapper is the result of
    the last attempt made, so when all three fail the error of the third
    is the one thrown to the caller; and fewer than three attempts are
    made only when the last of them succeeded. *)
Theorem retryOnFail_bounded_backoff w :
  exists attempts : list (Outcome A * World),
    (1 <= List.length attempts <= Z.to_nat RETRY_COUNT)%nat
    /\ consecutive fn operation 0 w attempts
    /\ List.last attempts (retryOnFail fn operation w) = retryOnFail fn operation w
    /\ ((List.length attempts < Z.to_nat RETRY_COUNT)%nat ->
        exists a w', retryOnFail fn operation w = (Ok a, w'))
    /\ backoffMs 0 = RETRY_BASE_DELAY_MS
    /\ (forall i, backoffMs (S i) = 2 * backoffMs i).
Proof.
  rewrite retryOnFail_unfold.
  change (Z.to_nat RETRY_COUNT) with 3%nat.
  assert (Hdouble : forall i, backoffMs (S i) = 2 * backoffMs i).
  { intros i. unfold backoffMs. rewrite Nat2Z.inj_succ, Z.pow_succ_r by lia. lia. }
  destruct (fn w) as [[a|e1] w1] eqn:E1.
  - exists [(Ok a, w1)]. simpl.
    repeat split; auto; try lia. eauto.
  - destruct (fn (pause operation 0 w1)) as [[a|e2] w2] eqn:E2.
    + exists [(Throw e1, w1); (Ok a, w2)]. simpl.
      repeat split; auto; try lia; [now exists e1 | eauto].
    + exists [(Throw e1, w1); (Throw e2, w2); fn (pause operation 1 w2)]. simpl.
      repeat split; auto; try lia; [now exists e1 | now exists e2].
Qed.
End Retry.

(** ** C5: branch priority, then recency *)

Lemma find_app {X} (p : X -> bool) (l1 l2 : list X) :
  List.find p (l1 ++ l2)%list
  = match List.find p l1 with Some x => Some x | None => List.find p l2 end.
Proof.
  induction l1 as [|x l1 IH]; [reflexivity|]. simpl.
  destruct (p x); [reflexivity|exact IH].
Qed.

Lemma request_answer {X} (answer : nat -> Outcome X) w :
  request answer w = (answer (requests w), Spec.afterRequests 1 w).
Proof. reflexivity. Qed.

Lemma retry_request_ok {X} (answer : nat -> Outcome X) operation w x :
  answer (requests w) = Ok x ->
  Artifact.retryOnFail (request answer) operation w = (Ok x, Spec.afterRequests 1 w).
Proof.
  intros H. apply retryOnFail_first_ok. rewrite request_answer. now rewrite H.
Qed.

Section WorkflowRunOrder.
Import Artifact Order.
Variables (env : Env) (workflowId : Z).
Variable runsOf : string -> option (list WorkflowRun).
Variable artifactsOf : Z -> ResponseData.

(** The remote answers every listing, and always the same way. *)
Hypothesis runs_listed : forall n branch,
  listWorkflowRuns (octokit env) n workflowId branch = Ok (runsOf branch).
Hypothesis artifacts_listed : forall n run,
  listWorkflowRunArtifacts (octokit env) n run = Ok (artifactsOf run).

Lemma searchRuns_first branch runs w :
  exists w',
    searchRuns env branch runs w
    = (Ok (List.find isBaseline
             (flat_map (fun run => extractArtifacts (artifactsOf (run_id run))) runs)),
       w').
Proof.
  revert w. induction runs as [|run later IH]; intros w.
  - now exists w.
  - cbn [searchRuns flat_map]. rewrite find_app.
    erewrite bind_ok by (apply retry_request_ok, artifacts_listed).
    destruct (List.find isBaseline (extractArtifacts (artifactsOf (run_id run))))
      as [item|].
    + eexists. reflexivity.
    + apply IH.
Qed.

Lemma searchBranches_first branches w :
  exists w',
    searchBranches env workflowId branches w
    = (Ok (List.find isBaseline (candidates runsOf artifactsOf branches)), w').
Proof.
  revert w. induction branches as [|branch later IH]; intros w.
  - now exists w.
  - cbn [searchBranches]. unfold candidates. cbn [flat_map]. rewrite find_app.
    erewrite bind_ok by (apply retry_request_ok, runs_listed).
    destruct (runsOf branch) as [[|run runs]|];
      cbn [default from_option Datatypes.id flat_map List.find]; try apply IH.
    destruct (searchRuns_first branch (run :: runs) (Spec.afterRequests 1 w))
      as [w1 H1].
    erewrite bind_ok by exact H1. cbn [flat_map].
    destruct (List.find isBaseline _) as [item|] in H1 |- *.
    + now exists w1.
    + apply IH.
Qed.

(** C5. With the workflow resolved and the remote answering its
    listings, the targeted lookup returns the first non-expired artifact
    named [bundle-stats] in the order: candidate branches as given, runs
    of a branch as listed (recency), artifacts of a run as listed. It is
    a function of that order alone, so nothing about size or age across
    branches enters. *)
Theorem workflow_lookup_first_in_branch_then_recency_order branches w w1 :
  resolveWorkflowId env w = (Ok (Some workflowId), w1) ->
  workflowId <> 0 ->
  exists w',
    findBaselineArtifactFromWorkflowRuns env branches w
    = (Ok (List.find isBaseline (candidates runsOf artifactsOf branches)), w').
Proof.
  intros Hid Hnz. unfold findBaselineArtifactFromWorkflowRuns.
  erewrite bind_ok by exact Hid.
  cbv beta iota. apply Z.eqb_neq in Hnz. rewrite Hnz.
  apply searchBranches_first.
Qed.
End WorkflowRunOrder.

(** ** C4: the page budget of the repository-wide scan *)

Lemma afterRequests_add n m w :
  Spec.afterRequests n (Spec.afterRequests m w) = Spec.afterRequests (n + m) w.
Proof. unfold Spec.afterRequests. cbn. f_equal. lia. Qed.

Section PageBudget.
Import Artifact Order Spec Load.
Variables (env : Env) (branches : list string).

(** Pages that show no candidate use the budget up: the loop gives up at
    the page that reaches it, having asked for exactly that many pages. *)
Lemma scanPages_budget (maxPages : Z) (datas : list ResponseData) :
  forall (later : list (Outcome ResponseData)) (pageCount checked : Z) (w : World),
    datas <> [] ->
    pageCount + Z.of_nat (List.length datas) = maxPages ->
    List.find (onCandidateBranch (list_to_set branches)) (shown datas) = None ->
    scanPages branches (list_to_set branches) maxPages (map Ok datas ++ later)%list
      pageCount checked w
    = (Ok BudgetReached,
       logged [Warning (budgetWarning branches maxPages
                          (checked + Z.of_nat (List.length (shown datas))))]
         (afterRequests (List.length datas) w)).
Proof.
  induction datas as [|data rest IH]; intros later pageCount checked w Hne Hlen Hnone;
    [contradiction|].
  unfold shown in Hnone. cbn [flat_map] in Hnone. rewrite find_app in Hnone.
  destruct (List.find (onCandidateBranch (list_to_set branches)) (extractArtifacts data)) eqn:Ehere;
    [discriminate|].
  cbn [map app scanPages].
  erewrite bind_ok by reflexivity. cbv beta zeta. rewrite Ehere.
  destruct rest as [|data' rest']; cbn [List.length] in Hlen.
  - replace (pageCount + 1 >=? maxPages) with true
      by (symmetry; apply Z.geb_le; lia).
    unfold shown. cbn [flat_map]. rewrite app_nil_r. reflexivity.
  - replace (pageCount + 1 >=? maxPages) with false
      by (symmetry; rewrite Z.geb_leb; apply Z.leb_gt; lia).
    rewrite IH; [| discriminate | cbn [List.length] in *; lia | exact Hnone].
    unfold shown. cbn [flat_map]. rewrite !length_app, !Nat2Z.inj_add, !Z.add_assoc.
    unfold logged, afterRequests. cbn [requests fsops disk log List.length].
    do 2 f_equal. lia.
Qed.

(** C4. When the targeted lookup produced nothing and the first
    [maxPages] pages of the repository-wide listing arrive without
    showing a non-expired [bundle-stats] artifact of a candidate branch,
    [fetchBaselineArtifact] returns null and throws nothing; it has asked
    for exactly [maxPages] pages, and the last thing it logged is the
    warning that names the page budget, the number of artifacts checked
    and the [max-artifact-pages] input to raise. *)
Theorem page_budget_exhausted_gives_null (maxPages : option Z) (w w1 : World)
    (datas : list ResponseData) :
  let budget := default 10 maxPages in
  workflowRunLookup env branches w = (Ok Continue, w1) ->
  1 <= budget ->
  Z.of_nat (List.length datas) = budget ->
  take (List.length datas) (listArtifactsForRepo (octokit env) (requests w1))
    = map Ok datas ->
  List.find (onCandidateBranch (list_to_set branches)) (shown datas) = None ->
  fetchBaselineArtifact env branches maxPages w
  = (Ok None,
     logged [ Warning (budgetWarning branches budget
                         (Z.of_nat (List.length (shown datas))));
              Info ("Searching for baseline artifact (max " ++ show budget
                    ++ " pages, " ++ show (budget * 100) ++ " artifacts)") ]
       (afterRequests (List.length datas) w1)).
Proof.
  intros budget Hlookup Hpos Hlen Hpages Hnone.
  unfold fetchBaselineArtifact. fold budget.
  apply try_catch_ok. erewrite bind_ok by exact Hlookup. cbv beta iota.
  unfold repoSearch.
  erewrite bind_ok by reflexivity.
  erewrite bind_ok by reflexivity. cbv beta.
  cbn [requests].
  rewrite <- (take_drop (List.length datas)
                (listArtifactsForRepo (octokit env) (requests w1))), Hpages.
  erewrite bind_ok.
  2:{ apply scanPages_budget; [|lia|exact Hnone].
      intros ->. cbn in Hlen. lia. }
  reflexivity.
Qed.
End PageBudget.

(** ** C10: a candidate that yields no record falls back to the scan *)

Section Fallback.
Import Artifact Spec Load.
Variables (env : Env) (branches : list string).

Lemma workflowRunLookup_found w artifact w1 :
  findBaselineArtifactFromWorkflowRuns env branches w = (Ok (Some artifact), w1) ->
  workflowRunLookup env branches w
  = (let* stats := downloadBaselineArtifact env (id artifact) "workflow-run" in
     match stats with
     | Some value =>
         if truthy value then ret (Return (Some value))
         else warning fallbackWarning;; ret Continue
     | None => warning fallbackWarning;; ret Continue
     end) w1.
Proof.
  intros H. unfold workflowRunLookup.
  erewrite bind_ok by (apply try_catch_ok; exact H). reflexivity.
Qed.

(** C10. When the targeted search found a candidate and loading it
    answered null (an empty download, an aborted or failed extraction, a
    missing record file), [fetchBaselineArtifact] does not return yet:
    it logs the fall-back warning and carries on with the
    repository-wide scan, whose outcome (under the same catch-all) is the
    outcome of the fetch. *)
Theorem null_load_falls_back_to_repo_scan (maxPages : option Z)
    (w w1 w2 : World) (artifact : ArtifactItem) :
  findBaselineArtifactFromWorkflowRuns env branches w = (Ok (Some artifact), w1) ->
  downloadBaselineArtifact env (id artifact) "workflow-run" w1 = (Ok None, w2) ->
  workflowRunLookup env branches w
  = (Ok Continue, logged [Warning fallbackWarning] w2)
  /\ fetchBaselineArtifact env branches maxPages w
     = try_catch (repoSearch env branches (default 10 maxPages)) degrade
         (logged [Warning fallbackWarning] w2).
Proof.
  intros Hfound Hload.
  assert (Hlookup : workflowRunLookup env branches w
                    = (Ok Continue, logged [Warning fallbackWarning] w2)).
  { rewrite (workflowRunLookup_found _ _ _ Hfound).
    erewrite bind_ok by exact Hload. reflexivity. }
  split; [exact Hlookup|].
  unfold fetchBaselineArtifact, try_catch.
  erewrite bind_ok by exact Hlookup. reflexivity.
Qed.
End Fallback.

(** ** The steps of a load *)

Section LoadSteps.
Import Artifact Spec Load.
Variable env : Env.

(** What [downloadBaselineArtifact] does once the response is in hand. *)
Lemma load_from_response artifactId source w zipBuffer w1 :
  download env artifactId w = (Ok (Bytes zipBuffer), w1) ->
  downloadBaselineArtifact env artifactId source w
  = (if byteLength zipBuffer =? 0 then
       warning "Downloaded artifact is empty";; ret None
     else if byteLength zipBuffer >? maxBytes then
       throw (tooLarge (byteLength zipBuffer))
     else
       writeFileSync (runtime env) (zipPath env) (ZipFile zipBuffer);;
       let* extraction :=
         try_catch
           (let* entries := openZip (runtime env) (zipPath env) in
            extractEntries env (extractDir env) entries 0)
           (fun message =>
              warning ("Failed to extract artifact zip: " ++ message);;
              ret (Return None)) in
       match extraction with
       | Return result => ret result
       | Continue =>
           let* present := existsSync (runtime env) (statsPath env) in
           if negb present then
             warning "bundle-stats.json not found in artifact";;
             ret None
           else
             let* content := readFileSync (runtime env) (statsPath env) in
             let* stats := lift (JSON_parse (runtime env) content) in
             let* totalGzip := lift (getMember stats "totalGzip") in
             let* commit := lift (getMember stats "commit") in
             let* commitPrefix :=
               lift (sliceText (numberToString (runtime env)) commit) in
             info ("Baseline loaded (" ++ source ++ "): "
                   ++ textOf (numberToString (runtime env)) totalGzip
                   ++ " bytes gzip from commit " ++ commitPrefix);;
             ret (Some stats)
       end) w1.
Proof.
  intros Hdl. unfold downloadBaselineArtifact. fold (download env artifactId).
  erewrite bind_ok by exact Hdl. reflexivity.
Qed.

Lemma size_in_range (n : Z) :
  0 < n <= maxBytes -> (n =? 0) = false /\ (n >? maxBytes) = false.
Proof.
  intros [Hpos Hsmall]. split; [apply Z.eqb_neq; lia|].
  rewrite Z.gtb_ltb. apply Z.ltb_ge. lia.
Qed.

Lemma size_over (n : Z) :
  maxBytes < n -> (n =? 0) = false /\ (n >? maxBytes) = true.
Proof.
  intros Hbig. split; [apply Z.eqb_neq; unfold maxBytes, MAX_ARTIFACT_SIZE_MB in Hbig; lia|].
  now apply Z.gtb_lt.
Qed.
End LoadSteps.

(** ** C1: what becomes of a hard failure of the load *)

Section HardFailures.
Import Artifact Spec Load.
Variables (env : Env).

(** The repository-wide search is its scan, followed by what it does
    with the way the scan ended. *)
Lemma repoSearch_after_scan branches maxPages w :
  repoSearch env branches maxPages w
  = (let* scan := startScan env branches maxPages in
     match scan with
     | BudgetReached => ret None
     | LoopLeft None pageCount checked =>
         info ("No baseline artifact found for " ++ join ", " branches
               ++ " after checking " ++ show checked
               ++ " artifacts (" ++ show pageCount ++ " pages)");;
         ret None
     | LoopLeft (Some artifact) _ _ =>
         downloadBaselineArtifact env (id artifact) "repo-pagination"
     end) w.
Proof.
  unfold repoSearch, startScan, bind. cbn [info emit].
  destruct (scanPages _ _ _ _ _ _ _) as [[scan|e] w']; reflexivity.
Qed.

(** Both hard failures make [downloadBaselineArtifact] throw. *)
Lemma hard_failure_throws artifactId source w error w' :
  HardFailure env artifactId w error w' ->
  downloadBaselineArtifact env artifactId source w = (Throw error, w').
Proof.
  intros [zipBuffer w1 Hdl Hbig
         | zipBuffer w1 w2 w3 w4 content e Hdl Hrange Hwrite Hextract
             Hexists Hread Hparse];
    rewrite (load_from_response _ _ source _ _ _ Hdl).
  - destruct (size_over _ Hbig) as [-> ->]. reflexivity.
  - destruct (size_in_range _ Hrange) as [-> ->].
    erewrite bind_ok by exact Hwrite.
    erewrite bind_ok by (apply try_catch_ok; exact Hextract). cbv beta iota.
    erewrite bind_ok by exact Hexists. cbn [negb].
    erewrite bind_ok by exact Hread.
    rewrite Hparse. apply bind_lift_throw.
Qed.

(** C1 (as the code has it). When the fetch gets to load an artifact,
    by either route, and the load runs into an oversized download (more
    than 50 MB) or into record content that [JSON.parse] rejects, then
    the load itself fails hard, by throwing; the fetch catches what was
    thrown, logs it as a "Failed to download baseline" warning and
    returns null. The error does not leave the fetch. *)
Theorem hard_failure_is_caught_by_fetch (branches : list string)
    (maxPages : option Z) (w w1 w2 : World) (artifact : ArtifactItem)
    (source error : string) :
  Reaches env branches (default 10 maxPages) w artifact source w1 ->
  HardFailure env (id artifact) w1 error w2 ->
  downloadBaselineArtifact env (id artifact) source w1 = (Throw error, w2)
  /\ fetchBaselineArtifact env branches maxPages w
     = (Ok None, logged [Warning ("Failed to download baseline: " ++ error)] w2).
Proof.
  intros Hreach Hhard.
  pose proof (hard_failure_throws _ source _ _ _ Hhard) as Hthrow.
  split; [exact Hthrow|].
  unfold fetchBaselineArtifact.
  destruct Hreach as [artifact w1 Hfound | artifact w0 w1 pageCount checked Hlookup Hscan].
  - erewrite try_catch_throw; [reflexivity|].
    apply bind_throw. rewrite (workflowRunLookup_found _ _ _ _ _ Hfound).
    now apply bind_throw.
  - erewrite try_catch_throw; [reflexivity|].
    erewrite bind_ok by exact Hlookup. cbv beta iota.
    rewrite repoSearch_after_scan.
    erewrite bind_ok by exact Hscan. exact Hthrow.
Qed.
End HardFailures.

(** ** C2: the ceiling on the unzipped size *)

Section UnzippedCeiling.
Import Artifact Spec Load.
Variables (env : Env) (dir : string).

Lemma maxUnzippedBytes_value : maxUnzippedBytes = 209715200.
Proof. reflexivity. Qed.

Lemma cumulativeSize_cons entry later :
  cumulativeSize env dir (entry :: later)
  = (if extracted env dir entry then entrySize entry else 0)
    + cumulativeSize env dir later.
Proof.
  unfold cumulativeSize. cbn [List.filter].
  destruct (extracted env dir entry); reflexivity.
Qed.

(** An entry outside the sandbox costs a warning and nothing else. *)
Lemma extractEntries_skip entry later unzipped w :
  escapes env dir entry = true ->
  extractEntries env dir (entry :: later) unzipped w
  = extractEntries env dir later unzipped
      (logged [Warning ("Skipping path traversal: " ++ entryName entry)] w).
Proof.
  intros H. cbn [extractEntries]. unfold escapes in H. rewrite H. reflexivity.
Qed.

(** A declared size that would pass the ceiling stops the loop before
    the entry is inflated: the warning is all that happens. *)
Lemma extractEntries_declared_over entry later unzipped size w :
  extracted env dir entry = true ->
  header_size entry = Some size ->
  maxUnzippedBytes < unzipped + size ->
  extractEntries env dir (entry :: later) unzipped w
  = (Ok (Return None), logged [Warning unzippedWarning] w).
Proof.
  intros Hin Hsize Hover. unfold extracted in Hin.
  apply andb_prop in Hin as [Hesc Hdir].
  apply negb_true_iff in Hesc. apply negb_true_iff in Hdir.
  cbn [extractEntries]. unfold escapes in Hesc. rewrite Hesc, Hdir, Hsize.
  replace (unzipped + size >? maxUnzippedBytes) with true
    by (symmetry; apply Z.gtb_lt; exact Hover).
  reflexivity.
Qed.

(** Once the charged sizes of the entries still to come pass the
    ceiling, the loop cannot run to its end: it returns null from inside
    or is interrupted by an exception. *)
Lemma extractEntries_over_ceiling entries :
  forall unzipped w,
    unzipped <= maxUnzippedBytes ->
    maxUnzippedBytes < unzipped + cumulativeSize env dir entries ->
    stopped (fst (extractEntries env dir entries unzipped w)).
Proof.
  induction entries as [|entry later IH]; intros unzipped w Hle Hover.
  - cbn in Hover. lia.
  - rewrite cumulativeSize_cons in Hover. unfold extracted, escapes in Hover.
    cbn [extractEntries].
    destruct (negb (String.prefix _ _)) eqn:Hesc; cbn [negb andb] in Hover.
    { unfold bind at 1, warning at 1, emit at 1. apply IH; [exact Hle|lia]. }
    destruct (isDirectory entry) eqn:Hdir; cbn [negb] in Hover.
    { unfold bind at 1.
      destruct (mkdirSync _ _ w) as [[[]|e] w1]; [apply IH; [exact Hle|lia]|exact I]. }
    unfold entrySize in Hover.
    destruct (header_size entry) as [size|] eqn:Hsize.
    + destruct (unzipped + size >? maxUnzippedBytes) eqn:Hcheck; [exact I|].
      unfold bind at 1, inflate, bind at 1, emit at 1, lift at 1.
      destruct (getData entry) as [data|e]; [|exact I].
      cbv beta iota zeta. rewrite Z.gtb_ltb in Hcheck. apply Z.ltb_ge in Hcheck.
      unfold bind at 1.
      destruct (mkdirSync _ _ _) as [[[]|e] w1]; [|exact I].
      unfold bind at 1.
      destruct (writeFileSync _ _ _ w1) as [[[]|e] w2]; [|exact I].
      apply IH; lia.
    + unfold bind at 1, inflate, bind at 1, emit at 1, lift at 1.
      destruct (getData entry) as [data|e]; [|exact I].
      cbv beta iota zeta.
      destruct (unzipped + Z.of_nat (String.length data) >? maxUnzippedBytes)
        eqn:Hcheck; [exact I|].
      rewrite Z.gtb_ltb in Hcheck. apply Z.ltb_ge in Hcheck.
      unfold bind at 1.
      destruct (mkdirSync _ _ _) as [[[]|e] w1]; [|exact I].
      unfold bind at 1.
      destruct (writeFileSync _ _ _ w1) as [[[]|e] w2]; [|exact I].
      apply IH; lia.
Qed.

Lemma writeFileSync_stored rt path content w w' :
  writeFileSync rt path content w = (Ok tt, w') ->
  disk w' !! Path.resolve (cwd rt) [path] = Some content.
Proof.
  unfold writeFileSync, fsCall. destruct (fsFault rt (fsops w)); [discriminate|].
  destruct (disk w !! _) as [[]|]; try discriminate;
    intros [= <-]; cbn; apply lookup_insert_eq.
Qed.

(** However [openZip] and the loop end, a total over the ceiling leaves
    the [try] block with null. *)
Lemma extraction_over_ceiling zipBuffer entries w :
  disk w !! Path.resolve (cwd (runtime env)) [zipPath env] = Some (ZipFile zipBuffer) ->
  archive zipBuffer = Ok entries ->
  maxUnzippedBytes < cumulativeSize env dir entries ->
  exists w',
    try_catch
      (let* entries := openZip (runtime env) (zipPath env) in
       extractEntries env dir entries 0)
      (fun message =>
         warning ("Failed to extract artifact zip: " ++ message);;
         ret (Return None)) w
    = (Ok (Return None), w').
Proof.
  intros Hdisk Harchive Hover.
  unfold try_catch, bind at 1, openZip, fsCall.
  destruct (fsFault (runtime env) (fsops w)) as [fault|]; [eexists; reflexivity|].
  rewrite Hdisk, Harchive.
  match goal with |- context [extractEntries env dir entries 0 ?w0] =>
    pose proof (extractEntries_over_ceiling entries 0 w0) as Hstop;
    destruct (extractEntries env dir entries 0 w0) as [[[|[value|]]|e] w1]
  end; cbn [fst stopped] in Hstop.
  - exfalso. apply Hstop; [rewrite maxUnzippedBytes_value; lia | lia].
  - exfalso. apply Hstop; [rewrite maxUnzippedBytes_value; lia | lia].
  - eexists. reflexivity.
  - eexists. reflexivity.
Qed.
End UnzippedCeiling.

Section UnzippedCeilingLoad.
Import Artifact Spec Load.
Variable env : Env.

(** C2. When the archive that was downloaded holds entries whose
    cumulative size, as the loop charges it (declared size, or data
    length where none is declared), exceeds 200 MB, whether one entry or
    many make up the excess: the load never returns a record; once the
    archive is within the download ceiling and stored, the load returns
    null; and an entry whose declared size would pass the ceiling stops
    the loop before it is inflated, with nothing but the warning
    happening. *)
Theorem unzipped_ceiling_aborts_with_null (artifactId : Z) (source : string)
    (w w1 : World) (zipBuffer : Download) (entries : list ZipEntry) :
  download env artifactId w = (Ok (Bytes zipBuffer), w1) ->
  archive zipBuffer = Ok entries ->
  maxUnzippedBytes < cumulativeSize env (extractDir env) entries ->
  (forall stats,
     fst (downloadBaselineArtifact env artifactId source w) <> Ok (Some stats))
  /\ (forall w2,
        0 < byteLength zipBuffer <= maxBytes ->
        writeFileSync (runtime env) (zipPath env) (ZipFile zipBuffer) w1 = (Ok tt, w2) ->
        exists w', downloadBaselineArtifact env artifactId source w = (Ok None, w'))
  /\ (forall entry later unzipped size w0,
        extracted env (extractDir env) entry = true ->
        header_size entry = Some size ->
        maxUnzippedBytes < unzipped + size ->
        extractEntries env (extractDir env) (entry :: later) unzipped w0
        = (Ok (Return None), logged [Warning unzippedWarning] w0)).
Proof.
  intros Hdl Harchive Hover.
  assert (Hstored : forall w2,
             writeFileSync (runtime env) (zipPath env) (ZipFile zipBuffer) w1
             = (Ok tt, w2) ->
             exists w',
               (let* extraction :=
                  try_catch
                    (let* entries := openZip (runtime env) (zipPath env) in
                     extractEntries env (extractDir env) entries 0)
                    (fun message =>
                       warning ("Failed to extract artifact zip: " ++ message);;
                       ret (Return None)) in
                match extraction with
                | Return result => ret result
                | Continue =>
                    let* present := existsSync (runtime env) (statsPath env) in
                    if negb present then
                      warning "bundle-stats.json not found in artifact";;
                      ret None
                    else
                      let* content := readFileSync (runtime env) (statsPath env) in
                      let* stats := lift (JSON_parse (runtime env) content) in
                      let* totalGzip := lift (getMember stats "totalGzip") in
                      let* commit := lift (getMember stats "commit") in
                      let* commitPrefix :=
                        lift (sliceText (numberToString (runtime env)) commit) in
                      info ("Baseline loaded (" ++ source ++ "): "
                            ++ textOf (numberToString (runtime env)) totalGzip
                            ++ " bytes gzip from commit " ++ commitPrefix);;
                      ret (Some stats)
                end) w2 = (Ok None, w')).
  { intros w2 Hwrite.
    destruct (extraction_over_ceiling env (extractDir env) zipBuffer entries w2)
      as [w3 Hextract]; [now apply writeFileSync_stored in Hwrite | exact Harchive
                        | exact Hover |].
    erewrite bind_ok by exact Hextract. now exists w3. }
  rewrite (load_from_response _ _ source _ _ _ Hdl).
  split; [|split].
  - intros stats.
    destruct (byteLength zipBuffer =? 0); [discriminate|].
    destruct (byteLength zipBuffer >? maxBytes); [discriminate|].
    unfold bind at 1.
    destruct (writeFileSync _ _ _ w1) as [[[]|e] w2] eqn:Hwrite; [|discriminate].
    destruct (Hstored w2 eq_refl) as [w' ->]. discriminate.
  - intros w2 Hrange Hwrite.
    destruct (size_in_range _ Hrange) as [-> ->].
    erewrite bind_ok by exact Hwrite. now apply Hstored.
  - intros entry later unzipped size w0 Hin Hsize Hmore.
    now apply (extractEntries_declared_over env _ entry later unzipped size).
Qed.
End UnzippedCeilingLoad.

(** ** Loads that answer null, and a fetch that never throws *)

Section NullLoads.
Import Artifact Spec Load.
Variable env : Env.

(** A download of no bytes is answered with null. *)
Lemma empty_download_is_null artifactId source w zipBuffer w1 :
  download env artifactId w = (Ok (Bytes zipBuffer), w1) ->
  byteLength zipBuffer = 0 ->
  downloadBaselineArtifact env artifactId source w
  = (Ok None, logged [Warning "Downloaded artifact is empty"] w1).
Proof.
  intros Hdl Hzero. rewrite (load_from_response _ _ source _ _ _ Hdl).
  now rewrite Hzero.
Qed.

(** An archive that extracts without leaving a record file is answered
    with null. *)
Lemma missing_record_is_null artifactId source w zipBuffer w1 w2 w3 :
  download env artifactId w = (Ok (Bytes zipBuffer), w1) ->
  0 < byteLength zipBuffer <= maxBytes ->
  writeFileSync (runtime env) (zipPath env) (ZipFile zipBuffer) w1 = (Ok tt, w2) ->
  (let* entries := openZip (runtime env) (zipPath env) in
   extractEntries env (extractDir env) entries 0) w2 = (Ok Continue, w3) ->
  disk w3 !! Path.resolve (cwd (runtime env)) [statsPath env] = None ->
  downloadBaselineArtifact env artifactId source w
  = (Ok None, logged [Warning "bundle-stats.json not found in artifact"] w3).
Proof.
  intros Hdl Hrange Hwrite Hextract Hmissing.
  rewrite (load_from_response _ _ source _ _ _ Hdl).
  destruct (size_in_range _ Hrange) as [-> ->].
  erewrite bind_ok by exact Hwrite.
  erewrite bind_ok by (apply try_catch_ok; exact Hextract). cbv beta iota.
  unfold bind at 1, existsSync at 1. rewrite Hmissing.
  rewrite bool_decide_eq_false_2 by (intros [? ?]; discriminate).
  reflexivity.
Qed.

End NullLoads.

(** ** C3: entries that resolve outside the sandbox *)

Section Sandbox.
Import Artifact Spec Load.
Variables (env : Env) (dir : string).
Hypothesis cwd_absolute : Path.isAbsolute (cwd (runtime env)) = true.

Lemma confined_refl d : confined dir d d.
Proof. intros p _. now left. Qed.

Lemma confined_trans d1 d2 d3 :
  confined dir d1 d2 -> confined dir d2 d3 -> confined dir d1 d3.
Proof.
  intros H12 H23 p Hp. destruct (H23 p Hp) as [E|E]; [|now right].
  rewrite E. now apply H12.
Qed.

Lemma mkdirAll_only_dirs paths :
  forall d p, (mkdirAll paths d).2 !! p = d !! p \/ (mkdirAll paths d).2 !! p = Some Dir.
Proof.
  induction paths as [|q paths IH]; intros d p; cbn [mkdirAll]; [now left|].
  destruct (d !! q) as [[]|] eqn:E; cbn [snd]; try (now left); [apply IH|].
  destruct (IH (<[q:=Dir]> d) p) as [H|H]; [|now right].
  rewrite H. destruct (decide (q = p)) as [->|Hne].
  - right. apply lookup_insert_eq.
  - left. now apply lookup_insert_ne.
Qed.

Lemma mkdirSync_confined path w :
  confined dir (disk w) (disk (mkdirSync (runtime env) path w).2).
Proof.
  intros p _. unfold mkdirSync, fsCall.
  destruct (fsFault _ _); [now left|].
  pose proof (mkdirAll_only_dirs (Path.ancestors (cwd (runtime env)) path) (disk w) p) as H.
  destruct (mkdirAll _ _) as [r d]. exact H.
Qed.

Lemma writeFileSync_confined name content w :
  String.prefix (dir ++ Path.sep)
    (Path.resolve (cwd (runtime env)) [dir; name]) = true ->
  confined dir (disk w)
    (disk (writeFileSync (runtime env)
             (Path.resolve (cwd (runtime env)) [dir; name]) content w).2).
Proof.
  intros Hin p Hout. left. unfold writeFileSync, fsCall.
  destruct (fsFault _ _); [reflexivity|].
  rewrite (resolve_idempotent _ _ cwd_absolute).
  destruct (disk w !! _) as [[]|]; cbn [snd disk setDisk]; try reflexivity;
    apply lookup_insert_ne; intros <-; congruence.
Qed.

(** The whole loop leaves the disk outside the sandbox alone, whatever
    the archive holds and however the loop ends. *)
Lemma extractEntries_confined entries :
  forall unzipped w,
    confined dir (disk w) (disk (extractEntries env dir entries unzipped w).2).
Proof.
  induction entries as [|entry later IH]; intros unzipped w;
    cbn [extractEntries]; [apply confined_refl|].
  destruct (negb (String.prefix _ _)) eqn:Hesc.
  { unfold bind at 1, warning at 1, emit at 1.
    exact (IH unzipped _). }
  apply negb_false_iff in Hesc.
  destruct (isDirectory entry).
  { unfold bind at 1.
    pose proof (mkdirSync_confined
                  (Path.resolve (cwd (runtime env)) [dir; entryName entry]) w) as Hmk.
    destruct (mkdirSync _ _ w) as [[[]|e] w1]; cbn [snd] in *; [|exact Hmk].
    eapply confined_trans; [exact Hmk|apply IH]. }
  destruct (match header_size entry with
            | Some size => unzipped + size >? maxUnzippedBytes
            | None => false
            end); [apply confined_refl|].
  unfold bind at 1, inflate, bind at 1, emit at 1, lift at 1.
  destruct (getData entry) as [data|e]; [|apply confined_refl].
  cbv beta iota zeta.
  match goal with |- context [if ?c then _ else _] => destruct c end;
    [apply confined_refl|].
  unfold bind at 1.
  match goal with |- context [mkdirSync ?rt ?path ?w0] =>
    pose proof (mkdirSync_confined path w0) as Hmk;
    destruct (mkdirSync rt path w0) as [[[]|e] w1]
  end; cbn [snd disk] in *; [|exact Hmk].
  unfold bind at 1.
  pose proof (writeFileSync_confined (entryName entry) (DataFile data) w1 Hesc) as Hwr.
  destruct (writeFileSync _ _ _ w1) as [[[]|e] w2]; cbn [snd] in *;
    [|eapply confined_trans; [exact Hmk|exact Hwr]].
  eapply confined_trans; [exact Hmk|].
  eapply confined_trans; [exact Hwr|apply IH].
Qed.

(** C3. An entry whose resolved target is not in the extraction
    directory or below it is skipped: the loop logs the warning for it,
    touches nothing else, and goes on with the remaining entries under
    the same running total. And whatever else the archive holds, after
    the loop the disk holds at that target what it held before (or a
    directory made on the way to another entry): no entry is ever
    written there. *)
Theorem escaping_entry_skipped_never_written (before : list ZipEntry)
    (entry : ZipEntry) (later : list ZipEntry) :
  let target := Path.resolve (cwd (runtime env)) [dir; entryName entry] in
  ~ within dir target ->
  (forall unzipped w,
     extractEntries env dir (entry :: later) unzipped w
     = extractEntries env dir later unzipped
         (logged [Warning ("Skipping path traversal: " ++ entryName entry)] w))
  /\ (forall w,
        let w' := snd (extractEntries env dir (before ++ entry :: later)%list 0 w) in
        disk w' !! target = disk w !! target \/ disk w' !! target = Some Dir).
Proof.
  intros target Hout.
  assert (Hprefix : String.prefix (dir ++ Path.sep) target = false).
  { destruct (String.prefix (dir ++ Path.sep) target) eqn:E; [|reflexivity].
    exfalso. apply Hout. now apply prefix_within. }
  split.
  - intros unzipped w. apply extractEntries_skip. unfold escapes.
    fold target. now rewrite Hprefix.
  - intros w w'. exact (extractEntries_confined _ 0 w target Hprefix).
Qed.
End Sandbox.

(** ** C7: the totals of a scanned record *)

Section ScanTotals.
Import Types Scan Totals.

Lemma reduce_sum (field : FileStats Z -> Z) (files : list (FileStats Z)) :
  forall start,
    fold_left (fun sum f => sum + field f) files start = start + sumOf field files.
Proof.
  induction files as [|file files IH]; intros start; cbn.
  - lia.
  - rewrite IH. unfold sumOf. lia.
Qed.

(** C7. Whenever the directory scan produces a record, under any order in
    which the compressions settle, each of its three totals is the sum of
    the corresponding field over the record's own [files]. *)
Theorem scan_totals_are_sums (host : Host) (distPath : string)
    (useGzip useBrotli : bool) (schedule : list nat) (stats : BundleStats Z) :
  scanDirectory host distPath useGzip useBrotli schedule = Some (Ok stats) ->
  totalSize stats = sumOf size (files stats)
  /\ totalGzip stats = sumOf gzip (files stats)
  /\ totalBrotli stats = sumOf brotli (files stats).
Proof.
  unfold scanDirectory.
  destruct (statDist host) as [[|]|]; try discriminate.
  destruct (walk _ _ _ _ _) as [found|]; try discriminate.
  destruct (spawn _ _ _ _ _) as [workers next].
  destruct (awaitAll _ _ _ _ _ _) as [[final|]|]; try discriminate.
  intros [= <-]. cbn [files totalSize totalGzip totalBrotli].
  rewrite !reduce_sum. repeat split; lia.
Qed.
End ScanTotals.

(** *** The scan comes to an end *)

Section ScanSettles.
Import Types Scan Progress.
Local Open Scope nat_scope.

(** A worker at the top of its loop moves the counter on, and what it
    goes on to wait for costs less than the files it passed over. *)
Lemma loopTop_progress (useGzip useBrotli : bool) (fromNext : list (FileStats Z)) :
  forall next worker next',
    loopTop useGzip useBrotli fromNext next = (worker, next') ->
    next < next'
    /\ stages useBrotli worker + 3 * (List.length fromNext - (next' - next))
       < 3 * List.length fromNext + 1
    /\ match worker with
       | Awaiting index _ => next <= index < next + List.length fromNext
       | Finished => True
       end.
Proof.
  induction fromNext as [|file later IH]; intros next worker next'; cbn [loopTop List.length].
  - intros [= <- <-]. cbn. lia.
  - destruct useGzip.
    + intros [= <- <-]. cbn. destruct useBrotli; lia.
    + destruct useBrotli.
      * intros [= <- <-]. cbn. lia.
      * intros Htop. destruct (IH _ _ _ Htop) as (Hlt & Hless & Hidx).
        split; [lia|]. split; [lia|]. destruct worker; [lia|exact I].
Qed.

Lemma pending_insert (useBrotli : bool) (workers : list Worker) :
  forall i old new,
    workers !! i = Some old ->
    pending useBrotli (<[i := new]> workers) + stages useBrotli old
    = pending useBrotli workers + stages useBrotli new.
Proof.
  induction workers as [|worker rest IH]; intros [|i] old new; try discriminate.
  - intros [= ->]. cbn. lia.
  - intros Hold. specialize (IH _ _ new Hold).
    change (<[S i := new]> (worker :: rest)) with (worker :: <[i := new]> rest).
    cbn [pending]. lia.
Qed.

(** While [Promise.all] is pending, some worker is suspended. *)
Lemma unfinished_worker (workers : list Worker) :
  forallb isFinished workers = false ->
  exists i index mode, workers !! i = Some (Awaiting index mode).
Proof.
  induction workers as [|worker rest IH]; cbn; [discriminate|].
  destruct worker as [index mode|]; cbn.
  - intros _. now exists 0, index, mode.
  - intros Hrest. destruct (IH Hrest) as (i & index & mode & Hi).
    now exists (S i), index, mode.
Qed.

Variable host : Host.
Variable distPath : string.
Variables useGzip useBrotli : bool.

(** Every settle of a pending compression brings the pool closer to its
    end, and keeps the workers on files of the array. *)
Lemma resume_progress (pool pool' : Pool) (i index : nat) (mode : Mode) :
  inBounds pool ->
  workers pool !! i = Some (Awaiting index mode) ->
  resume host distPath useGzip useBrotli pool i = Ok pool' ->
  inBounds pool' /\ remaining useBrotli pool' < remaining useBrotli pool.
Proof.
  intros Hin Hi. unfold resume. rewrite Hi.
  assert (Hidx : index < List.length (array pool)).
  { unfold inBounds in Hin. rewrite Forall_lookup in Hin. exact (Hin _ _ Hi). }
  destruct (lookup_lt_is_Some_2 _ _ Hidx) as [file Hfile]. rewrite Hfile.
  destruct (getCompressedSize _ _ _) as [n|]; [|discriminate].
  assert (Htop : forall files,
    List.length files = List.length (array pool) ->
    forall worker next,
      loopTop useGzip useBrotli (drop (nextIndex pool) files) (nextIndex pool) = (worker, next) ->
      let pool' := {| array := files; nextIndex := next;
                      workers := <[i := worker]> (workers pool) |} in
      inBounds pool'
      /\ remaining useBrotli pool' + stages useBrotli (Awaiting index mode)
         < remaining useBrotli pool + 1).
  { intros files Hlen worker next Hloop.
    destruct (loopTop_progress _ _ _ _ _ _ Hloop) as (Hlt & Hless & Hw).
    rewrite length_drop, Hlen in Hless, Hw.
    split.
    - unfold inBounds. cbn [array workers]. rewrite Hlen.
      apply Forall_insert; [exact Hin|]. destruct worker; [cbn; lia|exact I].
    - unfold remaining. cbn [array workers nextIndex]. rewrite Hlen.
      pose proof (pending_insert useBrotli _ _ _ worker Hi) as Hsum. lia. }
  destruct mode.
  - destruct useBrotli eqn:Hb.
    + intros [= <-]. split.
      * unfold inBounds. cbn [array workers]. rewrite length_insert.
        apply Forall_insert; [exact Hin|exact Hidx].
      * unfold remaining. cbn [array workers nextIndex]. rewrite length_insert.
        pose proof (pending_insert true _ _ _ (Awaiting index brotliMode) Hi) as Hsum.
        cbn [stages] in Hsum. lia.
    + destruct (loopTop _ _ _ _) as [worker next] eqn:Hloop. intros [= <-].
      destruct (Htop _ (length_insert _ _ _) _ _ Hloop) as [Hb' Hless].
      split; [exact Hb'|]. cbn [stages] in Hless. lia.
  - destruct (loopTop _ _ _ _) as [worker next] eqn:Hloop. intros [= <-].
    destruct (Htop _ (length_insert _ _ _) _ _ Hloop) as [Hb' Hless].
    split; [exact Hb'|]. cbn [stages] in Hless. lia.
Qed.

(** From any pool some settling order leads to the end. *)
Lemma awaitAll_settles (bound : nat) :
  forall pool,
    inBounds pool -> remaining useBrotli pool <= bound ->
    exists schedule result,
      awaitAll host distPath useGzip useBrotli schedule pool = Some result.
Proof.
  induction bound as [|bound IH]; intros pool Hin Hle.
  - exists [], (Ok (array pool)). cbn.
    destruct (forallb isFinished (workers pool)) eqn:Hall; [reflexivity|].
    destruct (unfinished_worker _ Hall) as (i & index & mode & Hi).
    pose proof (pending_insert useBrotli _ _ _ Finished Hi) as Hsum.
    unfold remaining in Hle. destruct mode; cbn [stages] in Hsum; destruct useBrotli; lia.
  - destruct (forallb isFinished (workers pool)) eqn:Hall.
    + exists [], (Ok (array pool)). cbn. now rewrite Hall.
    + destruct (unfinished_worker _ Hall) as (i & index & mode & Hi).
      destruct (resume host distPath useGzip useBrotli pool i) as [pool'|error] eqn:Hres.
      * destruct (resume_progress _ _ _ _ _ Hin Hi Hres) as [Hin' Hless].
        destruct (IH pool' Hin' ltac:(lia)) as (schedule & result & Hrun).
        exists (i :: schedule), result. cbn [awaitAll]. now rewrite Hall, Hres.
      * exists [i], (Throw error). cbn [awaitAll]. now rewrite Hall, Hres.
Qed.

Lemma spawn_inBounds (files : list (FileStats Z)) (count : nat) :
  forall next workers final,
    spawn useGzip useBrotli count files next = (workers, final) ->
    Forall (holdsFile (List.length files)) workers.
Proof.
  induction count as [|count IH]; intros next workers final; cbn [spawn].
  - intros [= <- <-]. constructor.
  - destruct (loopTop _ _ _ _) as [worker next'] eqn:Hloop.
    destruct (spawn _ _ _ _ _) as [others final'] eqn:Hspawn.
    intros [= <- <-]. constructor; [|exact (IH _ _ _ Hspawn)].
    destruct (loopTop_progress _ _ _ _ _ _ Hloop) as (_ & _ & Hw).
    rewrite length_drop in Hw. destruct worker; [cbn; lia|exact I].
Qed.

Lemma resume_inBounds (pool pool' : Pool) (i : nat) :
  inBounds pool ->
  resume host distPath useGzip useBrotli pool i = Ok pool' ->
  inBounds pool'.
Proof.
  intros Hin Hres.
  destruct (workers pool !! i) as [[index mode|]|] eqn:Hi.
  - exact (proj1 (resume_progress _ _ _ _ _ Hin Hi Hres)).
  - unfold resume in Hres. rewrite Hi in Hres. now injection Hres as <-.
  - unfold resume in Hres. rewrite Hi in Hres. now injection Hres as <-.
Qed.

Lemma awaitAll_never_stuck (schedule : list nat) :
  forall pool,
    inBounds pool ->
    exists more result,
      awaitAll host distPath useGzip useBrotli (schedule ++ more) pool = Some result.
Proof.
  induction schedule as [|i later IH]; intros pool Hin.
  - exact (awaitAll_settles _ pool Hin (le_n _)).
  - cbn [app awaitAll].
    destruct (forallb isFinished (workers pool)); [now exists [], (Ok (array pool))|].
    destruct (resume host distPath useGzip useBrotli pool i) as [pool'|error] eqn:Hres.
    + exact (IH pool' (resume_inBounds _ _ _ Hin Hres)).
    + now exists [], (Throw error).
Qed.

(** X16. The scan never gets stuck: however the compressions have
    settled so far, some continuation of the settling order makes
    [scanDirectory] return, with a record or with an error. *)
Lemma scanDirectory_settles (schedule : list nat) :
  exists more result,
    scanDirectory host distPath useGzip useBrotli (schedule ++ more) = Some result.
Proof.
  unfold scanDirectory.
  destruct (statDist host) as [[|]|];
    try (now exists [], (Throw ("Directory not found: " ++ distPath))).
  destruct (walk _ _ _ _ _) as [found|error]; [|now exists [], (Throw error)].
  destruct (spawn _ _ _ _ _) as [workers next] eqn:Hspawn.
  destruct (awaitAll_never_stuck schedule
              {| array := found; nextIndex := next; workers := workers |}
              (spawn_inBounds _ _ _ _ _ Hspawn))
    as (more & [final|error] & Hrun); exists more.
  - eexists. now rewrite Hrun.
  - exists (Throw error). now rewrite Hrun.
Qed.
End ScanSettles.

(** ** C8: percentage change against the baseline *)

Section Percentages.
Import Types Comment Metrics.
Local Open Scope float_scope.

(** A total that compares equal to zero is not above zero. *)
Lemma zero_not_positive (x : float) :
  PrimFloat.is_zero x = true -> (0 <? x) = false.
Proof.
  unfold PrimFloat.is_zero.
  rewrite FloatAxioms.eqb_spec, FloatAxioms.ltb_spec.
  destruct (FloatOps.Prim2SF x) as [s | s | | s m e]; vm_compute;
    try discriminate; try reflexivity.
  - destruct s; discriminate.
  - destruct s; discriminate.
Qed.

(** C8. For each of size, gzip and brotli: the delta is current minus
    baseline; when the baseline total is above zero the percentage is
    (delta / baseline total) * 100; when the baseline total is zero the
    percentage is 0 and no division takes place. *)
Theorem percent_change_of_baseline (current baseline : BundleStats float)
    (m : Metric) :
  let d := calculateDiffMetrics current baseline in
  delta m d = total m current - total m baseline
  /\ ((0 <? total m baseline) = true ->
      percent m d = (delta m d / total m baseline) * 100)
  /\ (PrimFloat.is_zero (total m baseline) = true -> percent m d = 0).
Proof.
  destruct m; cbn; (split; [reflexivity|split]); intros H.
  all: try (rewrite H; reflexivity).
  all: rewrite (zero_not_positive _ H); reflexivity.
Qed.
End Percentages.

(** ** C9: negative and unparseable threshold inputs *)

Section ThresholdInputs.
Import Index Thresholds Spec.
Variable env : Env.

Lemma readNumberInput_finite k msg :
  nonEmpty (getInput env k) = true ->
  PrimFloat.is_finite (parseFloat env (getInput env k)) = true ->
  readNumberInput env k msg = Ok (Some (parseFloat env (getInput env k))).
Proof. intros Hv Hf. unfold readNumberInput. now rewrite Hv, Hf. Qed.

Lemma readNumberInput_not_finite k msg :
  nonEmpty (getInput env k) = true ->
  PrimFloat.is_finite (parseFloat env (getInput env k)) = false ->
  readNumberInput env k msg = Throw msg.
Proof. intros Hv Hf. unfold readNumberInput. now rewrite Hv, Hf. Qed.

Lemma sanitizeNonNegative_negative x k w :
  PrimFloat.ltb x 0 = true ->
  sanitizeNonNegative (Some x) k w
  = (Ok None, logged [Warning (k ++ " cannot be negative; ignoring.")] w).
Proof. intros H. unfold sanitizeNonNegative. now rewrite H. Qed.

Lemma readNumberInput_throws k msg e :
  readNumberInput env k msg = Throw e -> e = msg.
Proof.
  unfold readNumberInput.
  destruct (negb (nonEmpty _)); [discriminate|].
  destruct (negb (is_finite _)); [|discriminate].
  now intros [= <-].
Qed.

(** [readActionInputs] starts with the three reads, in order, and none
    of them touches the world. *)
Lemma readActionInputs_reads w :
  match readNumberInput env (key Budget) (message Budget),
        readNumberInput env (key WarnAbove) (message WarnAbove),
        readNumberInput env (key FailAbove) (message FailAbove) with
  | Throw e, _, _ => readActionInputs env w = (Throw e, w)
  | Ok _, Throw e, _ => readActionInputs env w = (Throw e, w)
  | Ok _, Ok _, Throw e => readActionInputs env w = (Throw e, w)
  | Ok b, Ok wa, Ok fa =>
      forall inputs w', readActionInputs env w = (Ok inputs, w') ->
        exists w1 w2 w3,
          sanitizeNonNegative b (key Budget) w = (Ok (field Budget inputs), w1)
          /\ sanitizeNonNegative wa (key WarnAbove) w1 = (Ok (field WarnAbove inputs), w2)
          /\ sanitizeNonNegative fa (key FailAbove) w2 = (Ok (field FailAbove inputs), w3)
  end.
Proof.
  unfold readActionInputs. cbn [key message].
  destruct (readNumberInput env "budget-max-increase-kb" _) as [b|e]; [|reflexivity].
  destruct (readNumberInput env "warn-above-kb" _) as [wa|e]; [|reflexivity].
  destruct (readNumberInput env "fail-above-kb" _) as [fa|e]; [|reflexivity].
  intros inputs w'. unfold bind at 1, lift at 1. unfold bind at 1, lift at 1.
  unfold bind at 1, lift at 1.
  unfold bind at 1.
  destruct (sanitizeNonNegative b _ w) as [[b'|?] w1] eqn:E1; [|discriminate].
  unfold bind at 1.
  destruct (sanitizeNonNegative wa _ w1) as [[wa'|?] w2] eqn:E2; [|discriminate].
  unfold bind at 1.
  destruct (sanitizeNonNegative fa _ w2) as [[fa'|?] w3] eqn:E3; [|discriminate].
  intros H. exists w1, w2, w3.
  destruct (negb (existsb _ _)); [discriminate|].
  unfold bind at 1 in H.
  destruct (locateBuildOutput env _ w3) as [[[out|]|?] w4]; try discriminate.
  unfold bind at 1, info at 1, emit at 1 in H.
  unfold bind at 1 in H.
  match type of H with context [(if ?c then info _ else ret tt) ?x] =>
    destruct ((if c then info _ else ret tt) x) as [[[]|?] w5] end; [|discriminate].
  destruct (parseInt10 env _) as [minutes|]; [|discriminate].
  destruct (minutes <=? 0); [discriminate|].
  unfold bind at 1, lift at 1 in H.
  destruct (getRequiredInput env _) as [token|?]; [|discriminate].
  injection H as <- <-. cbn. auto.
Qed.

(** C9. For each of the three numeric threshold inputs that is set:
    when the text parses to a finite negative number, the read returns
    it, the sanitizer logs the warning and returns null, throwing
    nothing, and the inputs the action goes on with hold null for it;
    when the text does not parse to a finite number, the read throws the
    input's error message, and the run ends in [setFailed] with the
    message of an unparseable threshold, the rest of the run never
    started. *)
Theorem threshold_negative_ignored_unparseable_fatal (t : Threshold) (w : World) :
  let value := getInput env (key t) in
  let parsed := parseFloat env value in
  nonEmpty value = true ->
  (PrimFloat.is_finite parsed = true -> PrimFloat.ltb parsed 0 = true ->
     readNumberInput env (key t) (message t) = Ok (Some parsed)
     /\ sanitizeNonNegative (Some parsed) (key t) w
        = (Ok None, logged [Warning (key t ++ " cannot be negative; ignoring.")] w)
     /\ forall inputs w', readActionInputs env w = (Ok inputs, w') ->
          field t inputs = None)
  /\ (PrimFloat.is_finite parsed = false ->
        readNumberInput env (key t) (message t) = Throw (message t)
        /\ forall afterInputs, exists msg,
             In msg (map message [Budget; WarnAbove; FailAbove])
             /\ run env afterInputs w = (Ok tt, logged [SetFailed msg] w)).
Proof.
  intros value parsed Hset. split.
  - intros Hfin Hneg.
    pose proof (readNumberInput_finite (key t) (message t) Hset Hfin) as Hread.
    split; [exact Hread|]. split; [now apply sanitizeNonNegative_negative|].
    intros inputs w' Hrun.
    pose proof (readActionInputs_reads w) as R.
    destruct t; rewrite ?Hread in R.
    + destruct (readNumberInput env (key WarnAbove) _); [|congruence].
      destruct (readNumberInput env (key FailAbove) _); [|congruence].
      destruct (R _ _ Hrun) as (w1 & w2 & w3 & H1 & _).
      rewrite sanitizeNonNegative_negative in H1 by exact Hneg. congruence.
    + destruct (readNumberInput env (key Budget) _); [|congruence].
      destruct (readNumberInput env (key FailAbove) _); [|congruence].
      destruct (R _ _ Hrun) as (w1 & w2 & w3 & _ & H2 & _).
      rewrite sanitizeNonNegative_negative in H2 by exact Hneg. congruence.
    + destruct (readNumberInput env (key Budget) _); [|congruence].
      destruct (readNumberInput env (key WarnAbove) _); [|congruence].
      destruct (R _ _ Hrun) as (w1 & w2 & w3 & _ & _ & H3).
      rewrite sanitizeNonNegative_negative in H3 by exact Hneg. congruence.
  - intros Hnot.
    pose proof (readNumberInput_not_finite (key t) (message t) Hset Hnot) as Hread.
    split; [exact Hread|]. intros afterInputs.
    assert (exists msg, In msg (map message [Budget; WarnAbove; FailAbove])
                        /\ readActionInputs env w = (Throw msg, w)) as (msg & Hin & Hthrow).
    { pose proof (readActionInputs_reads w) as R. cbn [map In].
      destruct (readNumberInput env (key Budget) _) as [b|e] eqn:Eb.
      2:{ exists e. apply readNumberInput_throws in Eb. subst. auto. }
      destruct (readNumberInput env (key WarnAbove) _) as [wa|e] eqn:Ew.
      2:{ exists e. apply readNumberInput_throws in Ew. subst. auto. }
      destruct (readNumberInput env (key FailAbove) _) as [fa|e] eqn:Ef.
      2:{ exists e. apply readNumberInput_throws in Ef. subst. auto 6. }
      destruct t; congruence. }
    exists msg. split; [exact Hin|].
    unfold run. rewrite (try_catch_throw _ _ _ msg w); [reflexivity|].
    now apply bind_throw.
Qed.
End ThresholdInputs.

(** ** The properties on the sample runs *)

Section OnSamples.
Import Artifact Spec Load Order.

(** All three attempts fail: two pauses, of 1000 and 2000 ms, and the
    third error is the one thrown. *)
Example retry_three_failures :
  retryOnFail Sample.unreachable "listRepoWorkflows" Sample.start
  = (Throw "ECONNRESET #2",
     afterRequests 3
       (logged [ Sleep 2000;
                 Warning "listRepoWorkflows failed, retrying in 2000ms (2/3)";
                 Sleep 1000;
                 Warning "listRepoWorkflows failed, retrying in 1000ms (1/3)" ]
          Sample.start)).
Proof. reflexivity. Qed.

(** A later branch holds a more recent run; the first branch wins. *)
Example first_branch_wins :
  fst (findBaselineArtifactFromWorkflowRuns Sample.healthy ["release"; "main"]
         Sample.start)
  = Ok (Some (Sample.artifact 310 "bundle-stats" "release")).
Proof. reflexivity. Qed.

Example traversal_entry_left_out :
  let w := snd (fetchBaselineArtifact Sample.traversal ["main"] None Sample.start) in
  disk w !! "/etc/passwd" = None
  /\ In (Warning "Skipping path traversal: ../../etc/passwd") (log w)
  /\ disk w !! "/tmp/baseline-extracted/bundle-stats.json"
     = Some (DataFile Sample.recordText).
Proof. vm_compute. auto 10. Qed.
End OnSamples.

(** ** The theorems at work on the samples *)

Section Instances.
Import Artifact Spec Load Order.

(** An oversized download, found by the targeted lookup: the load throws,
    the fetch answers null. *)
Lemma hard_failure_is_caught_by_fetch_oversized :
  let w1 := snd (findBaselineArtifactFromWorkflowRuns Sample.oversized ["main"]
                   Sample.start) in
  downloadBaselineArtifact Sample.oversized 420 "workflow-run" w1
  = (Throw "Artifact is too large (60 MB)", afterRequests 1 w1)
  /\ fetchBaselineArtifact Sample.oversized ["main"] None Sample.start
     = (Ok None,
        logged [Warning "Failed to download baseline: Artifact is too large (60 MB)"]
          (afterRequests 1 w1)).
Proof.
  intros w1.
  apply (hard_failure_is_caught_by_fetch Sample.oversized ["main"] None
           Sample.start w1 (afterRequests 1 w1)
           (Sample.artifact 420 "bundle-stats" "main") "workflow-run"
           (tooLarge 62914560)).
  - apply ByWorkflowRun. reflexivity.
  - apply (Oversized Sample.oversized 420 w1
             {| byteLength := 62914560; body := "PK";
                archive := Throw "Invalid or unsupported zip format" |}).
    + reflexivity.
    + reflexivity.
Defined.

(** The claim as worded fails on these runs: an oversized download and a
    record file that is no JSON both end with the fetch returning null
    and a warning, not with an exception. *)
Lemma fetch_returns_null_on_hard_failures :
  (let r := fetchBaselineArtifact Sample.oversized ["main"] None Sample.start in
   fst r = Ok None
   /\ hd_error (log (snd r))
      = Some (Warning "Failed to download baseline: Artifact is too large (60 MB)"))
  /\ (let r := fetchBaselineArtifact Sample.malformed ["main"] None Sample.start in
      fst r = Ok None
      /\ hd_error (log (snd r))
         = Some (Warning
                   "Failed to download baseline: Unexpected token n in JSON at position 1")).
Proof. vm_compute. auto. Qed.

Lemma unzipped_ceiling_aborts_with_null_bomb :
  (forall stats,
     fst (downloadBaselineArtifact Sample.bomb 420 "workflow-run" Sample.start)
     <> Ok (Some stats))
  /\ (exists w', downloadBaselineArtifact Sample.bomb 420 "workflow-run" Sample.start
                 = (Ok None, w')).
Proof.
  destruct (unzipped_ceiling_aborts_with_null Sample.bomb 420 "workflow-run"
              Sample.start (afterRequests 1 Sample.start)
              {| byteLength := 4096; body := "PK"; archive := Ok Sample.bombEntries |}
              Sample.bombEntries eq_refl eq_refl eq_refl)
    as (Hnone & Hnull & _).
  split; [exact Hnone|].
  apply (Hnull (snd (writeFileSync Sample.rt (zipPath Sample.bomb)
                       (ZipFile {| byteLength := 4096; body := "PK";
                                   archive := Ok Sample.bombEntries |})
                       (afterRequests 1 Sample.start)))).
  - vm_compute. split; [reflexivity | discriminate].
  - vm_compute. reflexivity.
Defined.

Lemma escaping_entry_skipped_never_written_climber :
  (forall unzipped w,
     extractEntries Sample.traversal (extractDir Sample.traversal)
       (Sample.climber :: [Sample.file "bundle-stats.json" Sample.recordText])
       unzipped w
     = extractEntries Sample.traversal (extractDir Sample.traversal)
         [Sample.file "bundle-stats.json" Sample.recordText] unzipped
         (logged [Warning "Skipping path traversal: ../../etc/passwd"] w))
  /\ (forall w,
        let w' := snd (extractEntries Sample.traversal (extractDir Sample.traversal)
                         ([] ++ Sample.climber
                             :: [Sample.file "bundle-stats.json" Sample.recordText])%list
                         0 w) in
        disk w' !! "/etc/passwd" = disk w !! "/etc/passwd"
        \/ disk w' !! "/etc/passwd" = Some Dir).
Proof.
  assert (Hout : ~ within (extractDir Sample.traversal) "/etc/passwd").
  { intros [rest H]. vm_compute in H. discriminate. }
  exact (escaping_entry_skipped_never_written Sample.traversal
           (extractDir Sample.traversal) eq_refl [] Sample.climber
           [Sample.file "bundle-stats.json" Sample.recordText] Hout).
Defined.

Lemma page_budget_exhausted_gives_null_crowded :
  let w1 := snd (workflowRunLookup Sample.crowded ["main"] Sample.start) in
  fetchBaselineArtifact Sample.crowded ["main"] (Some 2) Sample.start
  = (Ok None,
     logged [ Warning (budgetWarning ["main"] 2 4);
              Info "Searching for baseline artifact (max 2 pages, 200 artifacts)" ]
       (afterRequests 2 w1)).
Proof.
  intros w1.
  apply (page_budget_exhausted_gives_null Sample.crowded ["main"] (Some 2)
           Sample.start w1 [Sample.pageOf 600; Sample.pageOf 700]).
  - reflexivity.
  - cbn. lia.
  - reflexivity.
  - reflexivity.
  - vm_compute. reflexivity.
Defined.

Lemma workflow_lookup_first_in_order_healthy :
  exists w',
    findBaselineArtifactFromWorkflowRuns Sample.healthy ["release"; "main"]
      Sample.start
    = (Ok (Some (Sample.artifact 310 "bundle-stats" "release")), w').
Proof.
  apply (workflow_lookup_first_in_branch_then_recency_order Sample.healthy 7
           Sample.runsOf Sample.artifactsOf
           (fun _ _ => eq_refl) (fun _ _ => eq_refl)
           ["release"; "main"] Sample.start (afterRequests 1 Sample.start)).
  - reflexivity.
  - discriminate.
Defined.

Lemma scan_totals_are_sums_sample :
  Types.totalSize SampleScan.scanned = 1400
  /\ Types.totalGzip SampleScan.scanned = 461
  /\ Types.totalBrotli SampleScan.scanned = 386.
Proof.
  apply (scan_totals_are_sums SampleScan.host "dist" true true SampleScan.schedule
           SampleScan.scanned).
  vm_compute. reflexivity.
Defined.

Lemma percent_change_of_baseline_sample :
  Metrics.percent Metrics.Gzip
    (Comment.calculateDiffMetrics SampleReport.current SampleReport.baseline)
  = ((5000 / 100000) * 100)%float
  /\ Metrics.percent Metrics.Brotli
       (Comment.calculateDiffMetrics SampleReport.current SampleReport.baseline)
     = 0%float.
Proof.
  split.
  - apply (percent_change_of_baseline SampleReport.current SampleReport.baseline
             Metrics.Gzip). reflexivity.
  - apply (percent_change_of_baseline SampleReport.current SampleReport.baseline
             Metrics.Brotli). reflexivity.
Defined.

Lemma threshold_negative_ignored_unparseable_fatal_sample :
  (Index.sanitizeNonNegative (Some (-5)%float) "warn-above-kb" Sample.start
   = (Ok None, logged [Warning "warn-above-kb cannot be negative; ignoring."]
                 Sample.start))
  /\ Index.readNumberInput SampleInputs.unparseable "warn-above-kb"
       "warn-above-kb must be a number (e.g., 50)"
     = Throw "warn-above-kb must be a number (e.g., 50)".
Proof.
  split.
  - apply (threshold_negative_ignored_unparseable_fatal SampleInputs.negative
             Thresholds.WarnAbove Sample.start eq_refl); reflexivity.
  - apply (threshold_negative_ignored_unparseable_fatal SampleInputs.unparseable
             Thresholds.WarnAbove Sample.start eq_refl). reflexivity.
Defined.

Lemma null_load_falls_back_to_repo_scan_empty :
  let w1 := snd (findBaselineArtifactFromWorkflowRuns Sample.emptyDownload ["main"]
                   Sample.start) in
  let w2 := logged [Warning "Downloaded artifact is empty"] (afterRequests 1 w1) in
  workflowRunLookup Sample.emptyDownload ["main"] Sample.start
  = (Ok Continue, logged [Warning fallbackWarning] w2)
  /\ fetchBaselineArtifact Sample.emptyDownload ["main"] None Sample.start
     = try_catch (repoSearch Sample.emptyDownload ["main"] (default 10 None)) degrade
         (logged [Warning fallbackWarning] w2).
Proof.
  intros w1 w2.
  apply (null_load_falls_back_to_repo_scan Sample.emptyDownload ["main"] None
           Sample.start w1 w2 (Sample.artifact 420 "bundle-stats" "main")).
  - reflexivity.
  - reflexivity.
Defined.
End Instances.

(* ===================================================================== *)
(** * Further properties of the code                                      *)
(* ===================================================================== *)

(** ** The repository-wide scan: what it picks and what it costs *)

Section RepoScanChoice.
Import Artifact Order Spec Load.
Variables (branches : list string) (maxPages : Z).


End RepoScanChoice.

Section PageRequests.
Import Artifact Order Spec Load.
Variables (branches : list string) (branchSet : gset string) (maxPages : Z).

Lemma scanPages_requests (pages : list (Outcome ResponseData)) :
  forall (pageCount checked : Z) (w w' : World) (result : Outcome ScanEnd),
    scanPages branches branchSet maxPages pages pageCount checked w = (result, w') ->
    Z.of_nat (requests w') - Z.of_nat (requests w) <= Z.max 1 (maxPages - pageCount)
    /\ Z.of_nat (requests w') - Z.of_nat (requests w) <= Z.of_nat (List.length pages)
    /\ disk w' = disk w.
Proof.
  induction pages as [|page pages IH]; intros pageCount checked w w' result;
    cbn [scanPages].
  - intros [= <- <-]. cbn. repeat split; lia.
  - unfold bind at 1. rewrite request_answer.
    destruct page as [data|error]; cbv beta iota zeta.
    2:{ intros [= <- <-]. cbn [afterRequests requests disk List.length].
        repeat split; lia. }
    destruct (List.find (onCandidateBranch branchSet) (extractArtifacts data)).
    { intros [= <- <-]. cbn [List.length]. cbn. repeat split; lia. }
    destruct (pageCount + 1 >=? maxPages) eqn:Hbudget.
    { intros [= <- <-]. cbn [List.length]. cbn. repeat split; lia. }
    rewrite Z.geb_leb in Hbudget. apply Z.leb_gt in Hbudget.
    intros Hrest. destruct (IH _ _ _ _ _ Hrest) as (Hbound & Hlen & Hdisk).
    cbn [afterRequests requests disk] in Hbound, Hlen, Hdisk.
    cbn [List.length]. split; [lia|]. split; [lia|exact Hdisk].
Qed.

(** X2. However the loop over the repository's artifact pages ends
    (an artifact found, the budget reached, the pages run out, a page
    that fails), it has asked for at most [maxPages] pages, and for one
    page when [maxPages] is below one; it never asks for more pages
    than there are, and it leaves the disk as it was. *)
Theorem repo_scan_page_bound (pages : list (Outcome ResponseData)) (w : World) :
  let after := snd (scanPages branches branchSet maxPages pages 0 0 w) in
  Z.of_nat (requests after) - Z.of_nat (requests w) <= Z.max 1 maxPages
  /\ Z.of_nat (requests after) - Z.of_nat (requests w) <= Z.of_nat (List.length pages)
  /\ disk after = disk w.
Proof.
  intros after. subst after.
  destruct (scanPages branches branchSet maxPages pages 0 0 w) as [result w'] eqn:Hscan.
  destruct (scanPages_requests _ _ _ _ _ _ Hscan) as (Hbound & Hlen & Hdisk).
  cbn [snd]. rewrite Z.sub_0_r in Hbound. auto.
Qed.
End PageRequests.

(** ** Failures the fetch and the load absorb *)

Section LookupFailure.
Import Artifact Spec Load.
Variables (env : Env) (branches : list string).

(** X3. When the targeted workflow-run lookup throws (a remote call of
    it failed on every attempt), the fetch does not give up: it logs
    "Workflow-run lookup failed: ..." and carries on with the
    repository-wide scan, whose outcome, under the catch-all, is the
    outcome of the fetch. *)
Theorem lookup_failure_falls_back_to_repo_scan (maxPages : option Z)
    (w w1 : World) (error : string) :
  findBaselineArtifactFromWorkflowRuns env branches w = (Throw error, w1) ->
  let w2 := logged [Warning ("Workflow-run lookup failed: " ++ error)] w1 in
  workflowRunLookup env branches w = (Ok Continue, w2)
  /\ fetchBaselineArtifact env branches maxPages w
     = try_catch (repoSearch env branches (default 10 maxPages)) degrade w2.
Proof.
  intros Hfail w2.
  assert (Hlookup : workflowRunLookup env branches w = (Ok Continue, w2)).
  { unfold workflowRunLookup.
    erewrite bind_ok; [|erewrite try_catch_throw by exact Hfail; reflexivity].
    reflexivity. }
  split; [exact Hlookup|].
  unfold fetchBaselineArtifact, try_catch.
  erewrite bind_ok by exact Hlookup. reflexivity.
Qed.
End LookupFailure.

Section ExtractionFailure.
Import Artifact Spec Load.
Variable env : Env.

(** X4. Whatever is thrown while the stored archive is opened and
    extracted (bytes that are no archive, an entry that cannot be
    inflated, a directory or file that cannot be written) does not leave
    the load: the load logs "Failed to extract artifact zip: ..." and
    returns null. *)
Theorem extraction_failure_is_null (artifactId : Z) (source : string)
    (w w1 w2 w3 : World) (zipBuffer : Download) (error : string) :
  download env artifactId w = (Ok (Bytes zipBuffer), w1) ->
  0 < byteLength zipBuffer <= maxBytes ->
  writeFileSync (runtime env) (zipPath env) (ZipFile zipBuffer) w1 = (Ok tt, w2) ->
  (let* entries := openZip (runtime env) (zipPath env) in
   extractEntries env (extractDir env) entries 0) w2 = (Throw error, w3) ->
  downloadBaselineArtifact env artifactId source w
  = (Ok None, logged [Warning ("Failed to extract artifact zip: " ++ error)] w3).
Proof.
  intros Hdl Hrange Hwrite Hextract.
  rewrite (load_from_response _ _ source _ _ _ Hdl).
  destruct (size_in_range _ Hrange) as [-> ->].
  erewrite bind_ok by exact Hwrite.
  erewrite bind_ok; [|erewrite try_catch_throw by exact Hextract; reflexivity].
  reflexivity.
Qed.
End ExtractionFailure.

(** ** Resolving the workflow by its name *)

Section WorkflowByName.
Import Artifact Spec Resolve.
Variable env : Env.

(** X5. When [GITHUB_WORKFLOW_REF] names no workflow file and the
    repository's workflows are listed, the workflow id is that of the
    first listed workflow whose name is the running workflow's name;
    more than one of that name costs a warning; and when there is none,
    a warning is logged and the targeted lookup returns null having made
    that one request: it lists no runs. *)
Theorem workflow_resolved_by_name (branches : list string) (w : World)
    (workflows : list Workflow) :
  getWorkflowFileFromRef env = None ->
  listRepoWorkflows (octokit env) (requests w) = Ok workflows ->
  let matches := namesakes env workflows in
  let w' := logged (remarks env matches) (afterRequests 1 w) in
  resolveWorkflowId env w = (Ok (workflow_id <$> head matches), w')
  /\ (matches = [] ->
      findBaselineArtifactFromWorkflowRuns env branches w = (Ok None, w')).
Proof.
  intros Href Hlist matches w'.
  assert (Hres : resolveWorkflowId env w = (Ok (workflow_id <$> head matches), w')).
  { unfold resolveWorkflowId. rewrite Href.
    erewrite bind_ok by reflexivity. cbv beta iota.
    erewrite bind_ok by (apply retry_request_ok; exact Hlist).
    cbv beta zeta. subst w' matches. unfold namesakes.
    destruct (List.filter _ workflows) as [|first [|second others]]; reflexivity. }
  split; [exact Hres|].
  intros Hnone. unfold findBaselineArtifactFromWorkflowRuns.
  erewrite bind_ok by exact Hres. now rewrite Hnone.
Qed.
End WorkflowByName.

(** ** What a retried request costs *)

Section RetriedRequest.
Import Artifact Spec Cost.
Context {A : Type} (answer : nat -> Outcome A) (operation : string).

Lemma sleptMs_pause (attempt : nat) (w : World) :
  sleptMs (log (pause operation attempt w)) = backoffMs attempt + sleptMs (log w).
Proof. reflexivity. Qed.

(** X6. A remote request wrapped in [retryOnFail] costs one request and
    no sleep, or two requests and 1000 ms of sleep, or three requests
    and 3000 ms of sleep, and nothing else: it never sleeps after its
    last attempt, it does not touch the disk, and a request answered at
    once is not repeated. *)
Theorem retried_request_cost (w : World) :
  let after := snd (retryOnFail (request answer) operation w) in
  let asked := (requests after - requests w)%nat in
  let slept := sleptMs (log after) - sleptMs (log w) in
  ((asked = 1%nat /\ slept = 0) \/ (asked = 2%nat /\ slept = 1000)
   \/ (asked = 3%nat /\ slept = 3000))
  /\ disk after = disk w
  /\ fsops after = fsops w
  /\ (forall a, answer (requests w) = Ok a -> asked = 1%nat).
Proof.
  intros after asked slept. subst after asked slept.
  rewrite retryOnFail_unfold. rewrite !request_answer.
  change (backoffMs 0) with 1000 in *.
  destruct (answer (requests w)) as [a|e1] eqn:E1; cbn [snd].
  - cbn [afterRequests requests log disk fsops].
    split; [left; split; lia|]. split; [reflexivity|]. split; [reflexivity|].
    intros _ _. lia.
  - match goal with |- context [match answer ?n with _ => _ end] =>
      destruct (answer n) as [a|e2] end; cbn [snd].
    + cbn [afterRequests log]. rewrite sleptMs_pause. cbn [afterRequests log].
      unfold pause, logged. cbn [afterRequests requests disk fsops].
      change (backoffMs 0) with 1000.
      split; [right; left; split; lia|]. split; [reflexivity|].
      split; [reflexivity|discriminate].
    + cbn [afterRequests log]. rewrite sleptMs_pause. cbn [afterRequests log].
      rewrite sleptMs_pause. cbn [afterRequests log].
      unfold pause, logged. cbn [afterRequests requests disk fsops].
      change (backoffMs 0) with 1000. change (backoffMs 1) with 2000.
      split; [right; right; split; lia|]. split; [reflexivity|].
      split; [reflexivity|discriminate].
Qed.
End RetriedRequest.

(** ** A fetch without candidate branches *)

Section NoCandidateBranch.
Import Artifact Spec Load.
Variable env : Env.

Lemma workflowRunLookup_no_branches (w : World) :
  exists w1, workflowRunLookup env [] w = (Ok Continue, w1).
Proof.
  unfold workflowRunLookup, bind at 1, try_catch at 1,
    findBaselineArtifactFromWorkflowRuns, bind at 1.
  destruct (resolveWorkflowId env w) as [[[workflowId|]|error] w1];
    try (eexists; reflexivity).
  destruct (workflowId =? 0); eexists; reflexivity.
Qed.

Lemma scanPages_found_candidate (branches : list string) (maxPages : Z)
    (pages : list (Outcome ResponseData)) :
  forall pageCount checked w item pageCount' checked' w',
    scanPages branches (list_to_set branches) maxPages pages pageCount checked w
    = (Ok (LoopLeft (Some item) pageCount' checked'), w') ->
    onCandidateBranch (list_to_set branches) item = true.
Proof.
  induction pages as [|page pages IH]; intros pageCount checked w item pc tc w';
    cbn [scanPages]; [discriminate|].
  unfold bind at 1. rewrite request_answer.
  destruct page as [data|error]; [|discriminate]. cbv beta iota zeta.
  destruct (List.find _ (extractArtifacts data)) as [found|] eqn:Hfind.
  - intros [= -> _ _ _]. now apply find_some in Hfind.
  - destruct (pageCount + 1 >=? maxPages); [discriminate|]. apply IH.
Qed.

Lemma repoSearch_no_branches (maxPages : Z) (w w' : World) (result : option JSON) :
  repoSearch env [] maxPages w = (Ok result, w') -> result = None.
Proof.
  rewrite repoSearch_after_scan. unfold bind at 1.
  destruct (startScan env [] maxPages w) as [[[[item|] pageCount checked|]|error] w1]
    eqn:Hscan; try discriminate.
  - exfalso. unfold startScan, bind at 1, info at 1, emit at 1, bind at 1 in Hscan.
    apply scanPages_found_candidate in Hscan. unfold onCandidateBranch in Hscan.
    destruct (negb _ || _); [discriminate|].
    destruct (workflow_run item) as [run|]; [|discriminate].
    destruct (head_branch run) as [branch|]; [|discriminate].
    apply andb_prop in Hscan as [_ Hin].
    apply bool_decide_eq_true_1 in Hin. set_solver.
  - now intros [= <- _].
  - now intros [= <- _].
Qed.

(** X7. With an empty list of candidate branches the fetch returns
    null, whatever the remote holds: the targeted lookup has no branch
    to list runs for, and no artifact of the repository-wide scan is on
    a candidate branch. *)
Theorem no_candidate_branch_gives_null (maxPages : option Z) (w : World) :
  fst (fetchBaselineArtifact env [] maxPages w) = Ok None.
Proof.
  unfold fetchBaselineArtifact, try_catch.
  destruct (workflowRunLookup_no_branches w) as [w1 Hlookup].
  erewrite bind_ok by exact Hlookup. cbv beta iota.
  destruct (repoSearch env [] (default 10 maxPages) w1) as [[result|error] w2] eqn:Hsearch.
  - now rewrite (repoSearch_no_branches _ _ _ _ Hsearch).
  - reflexivity.
Qed.
End NoCandidateBranch.

(** ** What the targeted lookup can return *)

Section LookupChoice.
Import Artifact Spec.
Variable env : Env.

Lemma searchRuns_baseline (branch : string) (runs : list WorkflowRun) :
  forall w w' item,
    searchRuns env branch runs w = (Ok (Some item), w') -> isBaseline item = true.
Proof.
  induction runs as [|run later IH]; intros w w' item; cbn [searchRuns];
    [discriminate|].
  unfold bind at 1.
  destruct (retryOnFail _ _ w) as [[response|error] w1]; [|discriminate].
  cbv zeta.
  destruct (List.find isBaseline (extractArtifacts response)) as [found|] eqn:Hfind.
  - intros [= -> _]. now apply find_some in Hfind.
  - apply IH.
Qed.

Lemma searchBranches_baseline (workflowId : Z) (branches : list string) :
  forall w w' item,
    searchBranches env workflowId branches w = (Ok (Some item), w') ->
    isBaseline item = true.
Proof.
  induction branches as [|branch later IH]; intros w w' item; cbn [searchBranches];
    [discriminate|].
  unfold bind at 1.
  destruct (retryOnFail _ _ w) as [[runs|error] w1]; [|discriminate].
  cbv zeta. destruct (default [] runs) as [|run runs'] eqn:Hruns; [apply IH|].
  unfold bind at 1.
  destruct (searchRuns env branch (run :: runs') w1) as [[[found|]|error] w2] eqn:Hsearch;
    try discriminate.
  - intros [= <- _]. exact (searchRuns_baseline _ _ _ _ _ Hsearch).
  - apply IH.
Qed.

(** X27. Whatever the remote answers, and whichever of its answers
    fail and are retried, an artifact the targeted workflow-run lookup
    returns is named [bundle-stats] and is not expired. *)
Theorem workflow_lookup_returns_only_baselines (branches : list string)
    (w w' : World) (item : ArtifactItem) :
  findBaselineArtifactFromWorkflowRuns env branches w = (Ok (Some item), w') ->
  name item = ARTIFACT_NAME /\ isExpired item = false.
Proof.
  unfold findBaselineArtifactFromWorkflowRuns, bind at 1.
  destruct (resolveWorkflowId env w) as [[[workflowId|]|error] w1]; try discriminate.
  destruct (workflowId =? 0); [discriminate|].
  intros Hsearch. apply searchBranches_baseline in Hsearch.
  unfold isBaseline in Hsearch. apply andb_prop in Hsearch as [Hname Hfresh].
  split; [now apply String.eqb_eq|now apply negb_true_iff].
Qed.
End LookupChoice.

(** ** What the fetch leaves on the disk *)

Section FetchFootprint.
Import Artifact Spec Load Footprint.
Variable env : Env.
Hypothesis cwd_absolute : Path.isAbsolute (cwd (runtime env)) = true.

Lemma spared_refl d : spared env d d.
Proof. intros p _ _. now left. Qed.

Lemma spared_trans d1 d2 d3 : spared env d1 d2 -> spared env d2 d3 -> spared env d1 d3.
Proof.
  intros H12 H23 p Hp Hz. destruct (H23 p Hp Hz) as [E|E]; [|now right].
  rewrite E. now apply H12.
Qed.

Lemma confined_spared d1 d2 : confined (extractDir env) d1 d2 -> spared env d1 d2.
Proof. intros H p Hp _. now apply H. Qed.

Lemma sparing_ret {A} (a : A) : sparing env (ret a).
Proof. intros w. apply spared_refl. Qed.

Lemma sparing_throw {A} (e : string) : sparing env (@throw A e).
Proof. intros w. apply spared_refl. Qed.

Lemma sparing_lift {A} (o : Outcome A) : sparing env (lift o).
Proof. intros w. apply spared_refl. Qed.

Lemma sparing_emit (e : Event) : sparing env (emit e).
Proof. intros w. apply spared_refl. Qed.

Lemma sparing_request {A} (answer : nat -> Outcome A) : sparing env (request answer).
Proof. intros w. apply spared_refl. Qed.

Lemma sparing_bind {A B} (m : M A) (k : A -> M B) :
  sparing env m -> (forall a, sparing env (k a)) -> sparing env (bind m k).
Proof.
  intros Hm Hk w. unfold bind. specialize (Hm w).
  destruct (m w) as [[a|e] w1]; cbn [snd] in *; [|exact Hm].
  eapply spared_trans; [exact Hm|apply Hk].
Qed.

Lemma sparing_try_catch {A} (body : M A) (handler : string -> M A) :
  sparing env body -> (forall e, sparing env (handler e)) ->
  sparing env (try_catch body handler).
Proof.
  intros Hm Hk w. unfold try_catch. specialize (Hm w).
  destruct (body w) as [[a|e] w1]; cbn [snd] in *; [exact Hm|].
  eapply spared_trans; [exact Hm|apply Hk].
Qed.

Lemma sparing_retryLoop {A} (fn : M A) (operation : string) (remaining : nat) :
  sparing env fn -> forall attempt, sparing env (retryLoop fn operation remaining attempt).
Proof.
  intros Hfn. induction remaining as [|remaining IH]; intros attempt; cbn [retryLoop].
  - apply sparing_throw.
  - apply sparing_try_catch; [exact Hfn|]. intros e.
    destruct (attempt =? RETRY_COUNT - 1); [apply sparing_throw|].
    apply sparing_bind; [apply sparing_emit|]. intros _.
    apply sparing_bind; [apply sparing_emit|]. intros _. apply IH.
Qed.

Lemma sparing_retried {A} (answer : nat -> Outcome A) (operation : string) :
  sparing env (retryOnFail (request answer) operation).
Proof. apply sparing_retryLoop, sparing_request. Qed.

(** A file-system call that only reads. *)
Lemma sparing_reads {A} (op : gmap string Node -> Outcome A * gmap string Node) :
  (forall d, snd (op d) = d) -> sparing env (fsCall (runtime env) op).
Proof.
  intros Hread w. unfold fsCall.
  destruct (fsFault _ _); cbn [snd disk]; [apply spared_refl|].
  specialize (Hread (disk w)). destruct (op (disk w)) as [r d]. cbn [snd] in *.
  subst d. apply spared_refl.
Qed.

(** Storing the downloaded archive. *)
Lemma sparing_store (content : Node) :
  sparing env (writeFileSync (runtime env) (zipPath env) content).
Proof.
  intros w p _ Hzip. left. unfold writeFileSync, fsCall.
  destruct (fsFault _ _); [reflexivity|].
  destruct (disk w !! _) as [[]|]; cbn [snd disk setDisk]; try reflexivity;
    now apply lookup_insert_ne.
Qed.

Lemma sparing_extractEntries (entries : list ZipEntry) (unzipped : Z) :
  sparing env (extractEntries env (extractDir env) entries unzipped).
Proof.
  intros w. apply confined_spared.
  exact (extractEntries_confined env (extractDir env) cwd_absolute entries unzipped w).
Qed.

Ltac sparing_step :=
  first
    [ apply sparing_ret | apply sparing_throw | apply sparing_lift
    | apply sparing_emit | apply sparing_retried | apply sparing_request
    | apply sparing_store | apply sparing_extractEntries
    | apply sparing_bind; [|intros ?]
    | apply sparing_try_catch; [|intros ?] ].

Lemma sparing_downloadBaselineArtifact (artifactId : Z) (source : string) :
  sparing env (downloadBaselineArtifact env artifactId source).
Proof.
  unfold downloadBaselineArtifact.
  apply sparing_bind; [sparing_step|]. intros downloadData.
  apply sparing_bind; [sparing_step|]. intros zipBuffer.
  destruct (byteLength _ =? 0); [repeat sparing_step|].
  destruct (byteLength _ >? _); [sparing_step|].
  fold (zipPath env) (extractDir env).
  apply sparing_bind; [sparing_step|]. intros _.
  apply sparing_bind.
  { apply sparing_try_catch; [|intros message; repeat sparing_step].
    apply sparing_bind; [|intros entries; sparing_step].
    apply sparing_reads. intros d. now destruct (d !! _) as [[]|]. }
  intros extraction. destruct extraction as [|result]; [|sparing_step].
  apply sparing_bind; [intros w; apply spared_refl|]. intros present.
  destruct (negb present); [repeat sparing_step|].
  apply sparing_bind; [|intros content; repeat sparing_step].
  apply sparing_reads. intros d. now destruct (d !! _) as [[]|].
Qed.

Lemma sparing_resolveWorkflowId : sparing env (resolveWorkflowId env).
Proof.
  unfold resolveWorkflowId. apply sparing_bind.
  - destruct (getWorkflowFileFromRef env) as [file|]; [|sparing_step].
    destruct (nonEmpty file); repeat sparing_step.
  - intros fromRef. destruct fromRef as [|workflowId]; [|sparing_step].
    apply sparing_bind; [sparing_step|]. intros workflows. cbv zeta.
    destruct (List.filter _ workflows) as [|first others]; [repeat sparing_step|].
    apply sparing_bind; [|intros _; sparing_step].
    destruct others; sparing_step.
Qed.

Lemma sparing_searchRuns (branch : string) (runs : list WorkflowRun) :
  sparing env (searchRuns env branch runs).
Proof.
  induction runs as [|run later IH]; cbn [searchRuns]; [sparing_step|].
  apply sparing_bind; [sparing_step|]. intros response. cbv zeta.
  destruct (List.find isBaseline _); [repeat sparing_step|exact IH].
Qed.

Lemma sparing_searchBranches (workflowId : Z) (branches : list string) :
  sparing env (searchBranches env workflowId branches).
Proof.
  induction branches as [|branch later IH]; cbn [searchBranches]; [sparing_step|].
  apply sparing_bind; [sparing_step|]. intros runs. cbv zeta.
  destruct (default [] runs) as [|run runs'] eqn:Hruns; [exact IH|].
  apply sparing_bind; [apply sparing_searchRuns|]. intros found.
  destruct found; [sparing_step|exact IH].
Qed.

Lemma sparing_findBaselineArtifactFromWorkflowRuns (branches : list string) :
  sparing env (findBaselineArtifactFromWorkflowRuns env branches).
Proof.
  unfold findBaselineArtifactFromWorkflowRuns.
  apply sparing_bind; [apply sparing_resolveWorkflowId|]. intros workflowId.
  destruct workflowId as [workflowId|]; [|sparing_step].
  destruct (workflowId =? 0); [sparing_step|apply sparing_searchBranches].
Qed.

Lemma sparing_scanPages (branches : list string) (branchSet : gset string)
    (maxPages : Z) (pages : list (Outcome ResponseData)) :
  forall pageCount checked,
    sparing env (scanPages branches branchSet maxPages pages pageCount checked).
Proof.
  induction pages as [|page later IH]; intros pageCount checked; cbn [scanPages];
    [sparing_step|].
  apply sparing_bind; [sparing_step|]. intros data. cbv zeta.
  destruct (List.find _ _); [repeat sparing_step|].
  destruct (_ >=? _); [repeat sparing_step|apply IH].
Qed.

Lemma sparing_workflowRunLookup (branches : list string) :
  sparing env (workflowRunLookup env branches).
Proof.
  unfold workflowRunLookup. apply sparing_bind.
  - apply sparing_try_catch; [apply sparing_findBaselineArtifactFromWorkflowRuns|].
    intros message. repeat sparing_step.
  - intros workflowArtifact. destruct workflowArtifact as [artifact|]; [|sparing_step].
    apply sparing_bind; [apply sparing_downloadBaselineArtifact|]. intros stats.
    destruct stats as [value|]; [|repeat sparing_step].
    destruct (truthy value); repeat sparing_step.
Qed.

Lemma sparing_repoSearch (branches : list string) (maxPages : Z) :
  sparing env (repoSearch env branches maxPages).
Proof.
  unfold repoSearch. cbv zeta.
  apply sparing_bind; [sparing_step|]. intros _.
  apply sparing_bind; [intros w; apply spared_refl|]. intros pages.
  apply sparing_bind; [apply sparing_scanPages|]. intros scan.
  destruct scan as [[artifact|] pageCount checked|];
    [apply sparing_downloadBaselineArtifact|repeat sparing_step|sparing_step].
Qed.

(** X8. With an absolute working directory, a whole baseline fetch
    (targeted lookup, repository-wide scan, up to two loads, whatever
    the remote sends and however any step fails) changes nothing on the
    disk outside its two places: every path other than that of the
    stored archive and not starting with the extraction directory holds
    afterwards what it held before, or a directory made on the way. *)
Theorem fetch_spares_the_disk (branches : list string) (maxPages : option Z)
    (w : World) (p : string) :
  String.prefix (extractDir env ++ Path.sep) p = false ->
  p <> Path.resolve (cwd (runtime env)) [zipPath env] ->
  let after := snd (fetchBaselineArtifact env branches maxPages w) in
  disk after !! p = disk w !! p \/ disk after !! p = Some Dir.
Proof.
  intros Hout Hzip after. subst after.
  assert (Hfetch : sparing env (fetchBaselineArtifact env branches maxPages)).
  { unfold fetchBaselineArtifact. cbv zeta. apply sparing_try_catch.
    - apply sparing_bind; [apply sparing_workflowRunLookup|]. intros early.
      destruct early; [apply sparing_repoSearch|sparing_step].
    - intros message. repeat sparing_step. }
  exact (Hfetch w p Hout Hzip).
Qed.
End FetchFootprint.

(** ** The further properties at work on the samples *)

Section FurtherInstances.
Import Artifact Spec Load Order.


Lemma lookup_failure_falls_back_to_repo_scan_offline :
  let w1 := snd (findBaselineArtifactFromWorkflowRuns SampleRemote.offline ["main"]
                   Sample.start) in
  let w2 := logged [Warning "Workflow-run lookup failed: ECONNRESET"] w1 in
  workflowRunLookup SampleRemote.offline ["main"] Sample.start = (Ok Continue, w2)
  /\ fetchBaselineArtifact SampleRemote.offline ["main"] None Sample.start
     = try_catch (repoSearch SampleRemote.offline ["main"] (default 10 None)) degrade w2.
Proof.
  intros w1 w2.
  apply (lookup_failure_falls_back_to_repo_scan SampleRemote.offline ["main"] None
           Sample.start w1 "ECONNRESET").
  vm_compute. reflexivity.
Defined.

Lemma extraction_failure_is_null_garbled :
  exists w3,
    downloadBaselineArtifact SampleRemote.garbled 420 "workflow-run" Sample.start
    = (Ok None,
       logged [Warning ("Failed to extract artifact zip: "
                        ++ "Invalid or unsupported zip format. No END header found")]
         w3).
Proof.
  eexists.
  apply (extraction_failure_is_null SampleRemote.garbled 420 "workflow-run"
           Sample.start (afterRequests 1 Sample.start)
           (snd (writeFileSync Sample.rt (zipPath SampleRemote.garbled)
                   (ZipFile SampleRemote.notZip) (afterRequests 1 Sample.start)))
           _ SampleRemote.notZip).
  - reflexivity.
  - vm_compute. split; [reflexivity|discriminate].
  - vm_compute. reflexivity.
  - vm_compute. reflexivity.
Defined.

Lemma workflow_resolved_by_name_two_named_ci :
  fst (resolveWorkflowId SampleRemote.unnamedRef Sample.start) = Ok (Some 7)
  /\ hd_error (log (snd (resolveWorkflowId SampleRemote.unnamedRef Sample.start)))
     = Some (Warning ("Multiple workflows named " ++ quote ++ "CI" ++ quote
                      ++ " found; using the first match.")).
Proof.
  destruct (workflow_resolved_by_name SampleRemote.unnamedRef ["main"] Sample.start
              SampleRemote.workflows eq_refl eq_refl) as [Hresolved _].
  rewrite Hresolved. split; reflexivity.
Defined.

Lemma workflow_lookup_returns_only_baselines_healthy :
  name (Sample.artifact 420 "bundle-stats" "main") = ARTIFACT_NAME
  /\ isExpired (Sample.artifact 420 "bundle-stats" "main") = false.
Proof.
  apply (workflow_lookup_returns_only_baselines Sample.healthy ["main"] Sample.start
           (snd (findBaselineArtifactFromWorkflowRuns Sample.healthy ["main"]
                   Sample.start))).
  vm_compute. reflexivity.
Defined.

Lemma fetch_spares_the_disk_healthy :
  let after := snd (fetchBaselineArtifact Sample.healthy ["main"] None Sample.start) in
  disk after !! "/etc/passwd" = disk Sample.start !! "/etc/passwd"
  \/ disk after !! "/etc/passwd" = Some Dir.
Proof.
  apply (fetch_spares_the_disk Sample.healthy eq_refl ["main"] None Sample.start
           "/etc/passwd").
  - reflexivity.
  - intros H. vm_compute in H. discriminate.
Defined.
End FurtherInstances.

(** ** The inputs the action goes on with *)




Section ValidatedInputs.
Import Index Thresholds Spec Gates.
Variable env : Env.



End ValidatedInputs.

(** ** The gates before the build *)

Section BeforeTheBuild.
Import Index Action Spec Gates.
Variables (env : Env) (ctx : Context).

Lemma eventWarnings_logged (k : M unit) (w : World) :
  ((if String.eqb (eventName ctx) "pull_request_target" then
      warning ("Running on pull_request_target. Workflow runs from base branch but checks out PR code. "
               ++ "Ensure build-command does not execute untrusted scripts from PR. "
               ++ "See: https://securitylab.github.com/research/github-actions-preventing-pwn-requests/")
    else ret tt);;
   (if String.eqb (eventName ctx) "workflow_run" then
      warning ("Running on workflow_run event. This may have unexpected artifact access permissions. "
               ++ "Recommended: Use pull_request trigger for PR workflows.")
    else ret tt);;
   k) w
  = k (logged (eventWarnings ctx) w).
Proof.
  unfold eventWarnings.
  destruct (String.eqb (eventName ctx) "pull_request_target") eqn:Htarget.
  - apply String.eqb_eq in Htarget. rewrite Htarget. destruct w; reflexivity.
  - destruct (String.eqb (eventName ctx) "workflow_run"); destruct w; reflexivity.
Qed.

(** The gate for pull requests from forks, reached with valid inputs. *)
Lemma fork_gate_closes (build : Build) (rest : ActionInputs -> bool -> bool -> M unit)
    (w w1 : World) (inputs : ActionInputs) :
  readActionInputs env w = (Ok inputs, w1) ->
  fromFork ctx = true ->
  run env ctx build rest w
  = (Ok tt, logged (SetFailed forkRefusal :: eventWarnings ctx) w1).
Proof.
  intros Hinputs Hfork. unfold run, Index.run.
  apply try_catch_ok. erewrite bind_ok by exact Hinputs.
  unfold afterInputs. cbv zeta. rewrite eventWarnings_logged.
  unfold fromFork in Hfork.
  destruct (pull_request ctx) as [pr|]; [|discriminate].
  destruct (head_repo pr) as [headRepo|]; [|discriminate].
  destruct (base_repo pr) as [baseRepo|]; [|discriminate].
  rewrite Hfork. reflexivity.
Qed.

(** X11. A pull request whose head repository differs from its base
    repository is refused before anything is installed or built: with
    valid inputs, the run logs the warnings of its event, fails with the
    fork message and returns; neither the project's install and build
    commands nor the scan and the report that follow them are reached,
    whatever they are. *)
Theorem fork_pull_request_is_refused_before_the_build (build : Build)
    (rest : ActionInputs -> bool -> bool -> M unit) (w w1 : World)
    (inputs : ActionInputs) :
  readActionInputs env w = (Ok inputs, w1) ->
  fromFork ctx = true ->
  run env ctx build rest w
  = (Ok tt, logged (SetFailed forkRefusal :: eventWarnings ctx) w1)
  /\ forall build' rest', run env ctx build' rest' w = run env ctx build rest w.
Proof.
  intros Hinputs Hfork. split; [now apply (fork_gate_closes _ _ _ _ inputs)|].
  intros build' rest'.
  rewrite (fork_gate_closes build rest _ _ _ Hinputs Hfork).
  exact (fork_gate_closes build' rest' _ _ _ Hinputs Hfork).
Qed.

(** X12. On the [pull_request_target] event the build needs an
    explicit opt-in: with valid inputs in which [allow-unsafe-build] is
    not true, the run fails with a refusal (that of forks, or that of
    the event) and returns; the project's commands, the scan and the
    report are not reached. *)
Theorem pull_request_target_needs_opt_in (build : Build)
    (rest : ActionInputs -> bool -> bool -> M unit) (w w1 : World)
    (inputs : ActionInputs) :
  readActionInputs env w = (Ok inputs, w1) ->
  eventName ctx = "pull_request_target" ->
  allowUnsafeBuild inputs = false ->
  exists refusal,
    In refusal [forkRefusal; targetRefusal]
    /\ run env ctx build rest w
       = (Ok tt, logged (SetFailed refusal :: eventWarnings ctx) w1).
Proof.
  intros Hinputs Hevent Hallow.
  destruct (fromFork ctx) eqn:Hfork.
  - exists forkRefusal. split; [now left|]. now apply (fork_gate_closes _ _ _ _ inputs).
  - exists targetRefusal. split; [right; now left|].
    unfold run, Index.run.
    apply try_catch_ok. erewrite bind_ok by exact Hinputs.
    unfold afterInputs. cbv zeta. rewrite eventWarnings_logged.
    unfold fromFork in Hfork. rewrite Hevent, Hallow. cbn [String.eqb negb andb].
    change (String.eqb "pull_request_target" "pull_request_target") with true.
    destruct (pull_request ctx) as [pr|]; [|reflexivity].
    destruct (head_repo pr) as [headRepo|]; [|reflexivity].
    destruct (base_repo pr) as [baseRepo|]; [|reflexivity].
    rewrite Hfork. reflexivity.
Qed.
End BeforeTheBuild.

(** ** The branches a baseline is looked for on *)

Section Branches.
Import Action.

(** X13. The list of branches the baseline is looked for on is never
    empty and holds no empty name; for a pull request with a base
    branch it is that branch alone, and without a pull request it is the
    repository's default branch, or [main] and [master] when the event
    names none. *)
Theorem baseline_branches_are_named (ctx : Context) :
  getBaselineBranches ctx <> []
  /\ Forall (fun branch => branch <> "") (getBaselineBranches ctx)
  /\ (forall pr base, pull_request ctx = Some pr -> base_ref pr = Some base ->
        base <> "" -> getBaselineBranches ctx = [base])
  /\ (pull_request ctx = None -> getBaselineBranches ctx = getDefaultBranchNames ctx)
  /\ (default_branch ctx = None -> getDefaultBranchNames ctx = ["main"; "master"]).
Proof.
  assert (Hdef : getDefaultBranchNames ctx <> []
                 /\ Forall (fun branch => branch <> "") (getDefaultBranchNames ctx)).
  { unfold getDefaultBranchNames. destruct (default_branch ctx) as [name|].
    - destruct (nonEmpty name) eqn:Hne.
      + split; [discriminate|]. constructor; [|constructor]. intros ->. discriminate.
      + split; [discriminate|]. repeat constructor; discriminate.
    - split; [discriminate|]. repeat constructor; discriminate. }
  unfold getBaselineBranches. repeat split.
  - destruct (pull_request ctx) as [pr|]; [|apply Hdef].
    destruct (base_ref pr) as [base|]; [|apply Hdef].
    destruct (nonEmpty base); [discriminate|apply Hdef].
  - destruct (pull_request ctx) as [pr|]; [|apply Hdef].
    destruct (base_ref pr) as [base|]; [|apply Hdef].
    destruct (nonEmpty base) eqn:Hne; [|apply Hdef].
    constructor; [|constructor]. intros ->. discriminate.
  - intros pr base -> -> Hne. destruct base; [contradiction|reflexivity].
  - now intros ->.
  - unfold getDefaultBranchNames. now intros ->.
Qed.
End Branches.

(** ** A run never throws *)

Section RunNeverThrows.
Import Index Spec.

(** X14. [run] never throws: whatever is thrown while the inputs are
    read or in anything that follows them is caught, and the run ends
    having called [setFailed] with the message of what was thrown. *)
Theorem run_ends_in_setFailed (env : Env) (afterInputs : ActionInputs -> M unit)
    (w : World) :
  (exists w', run env afterInputs w = (Ok tt, w'))
  /\ (forall error w1,
        (let* inputs := readActionInputs env in afterInputs inputs) w = (Throw error, w1) ->
        run env afterInputs w = (Ok tt, logged [SetFailed error] w1)).
Proof.
  unfold run, try_catch. split.
  - destruct (bind _ _ w) as [[[]|error] w1]; eexists; reflexivity.
  - intros error w1 ->. reflexivity.
Qed.
End RunNeverThrows.

Section InputInstances.
Import Index Action Spec Gates.


Lemma fork_pull_request_is_refused_sample :
  let w1 := snd (readActionInputs SampleAction.inputs Sample.start) in
  run SampleAction.inputs SampleAction.forkPR SampleAction.build SampleAction.rest
    Sample.start
  = (Ok tt, logged [SetFailed forkRefusal] w1).
Proof.
  intros w1.
  destruct (readActionInputs SampleAction.inputs Sample.start) as [[inputs|] w'] eqn:Hread;
    [|vm_compute in Hread; discriminate].
  exact (proj1 (fork_pull_request_is_refused_before_the_build SampleAction.inputs
                  SampleAction.forkPR SampleAction.build SampleAction.rest
                  Sample.start w' inputs Hread eq_refl)).
Defined.

Lemma pull_request_target_needs_opt_in_sample :
  let w1 := snd (readActionInputs SampleAction.inputs Sample.start) in
  exists refusal,
    In refusal [forkRefusal; targetRefusal]
    /\ run SampleAction.inputs SampleAction.target SampleAction.build SampleAction.rest
         Sample.start
       = (Ok tt, logged (SetFailed refusal :: eventWarnings SampleAction.target) w1).
Proof.
  intros w1.
  destruct (readActionInputs SampleAction.inputs Sample.start) as [[inputs|] w'] eqn:Hread;
    [|vm_compute in Hread; discriminate].
  apply (pull_request_target_needs_opt_in SampleAction.inputs SampleAction.target
           SampleAction.build SampleAction.rest Sample.start w' inputs Hread eq_refl).
  vm_compute in Hread. injection Hread as <- _. reflexivity.
Defined.
End InputInstances.

(** ** What the scan measures *)

Section ScanMeasures.
Import Types Scan Measure.
Local Open Scope nat_scope.
Variable host : Host.
Variable distPath : string.
Variables useGzip useBrotli : bool.

(** What [walk] pushes is not measured yet. *)
Lemma walkEntry_fresh :
  forall entry dir files files',
    walkEntry host distPath dir entry files = Ok files' ->
    Forall fresh files -> Forall fresh files'.
Proof.
  fix IH 1. intros [entryName size | entryName listing | entryName] dir files files';
    cbn [walkEntry].
  - destruct (isAssetFile host entryName); [|now intros [= <-]].
    destruct size as [bytes|]; [|discriminate].
    intros [= <-] Hfresh. apply Forall_app. split; [exact Hfresh|].
    constructor; [|constructor]. split; reflexivity.
  - destruct listing as [entries|]; [|discriminate].
    revert files. induction entries as [|entry later IHlater]; intros files.
    + now intros [= <-].
    + destruct (walkEntry host distPath _ entry files) as [files1|] eqn:Hentry;
        [|discriminate].
      intros Hrest Hfresh. apply (IHlater _ Hrest).
      exact (IH entry _ _ _ Hentry Hfresh).
  - now intros [= <-].
Qed.

Lemma walk_fresh (dir : string) (listing : Outcome (list Dirent)) :
  forall files files',
    walk host distPath dir listing files = Ok files' ->
    Forall fresh files -> Forall fresh files'.
Proof.
  unfold walk. destruct listing as [entries|]; [|discriminate].
  induction entries as [|entry later IH]; intros files files'; cbn [fold_left].
  - now intros [= <-].
  - destruct (walkEntry host distPath dir entry files) as [files1|] eqn:Hentry.
    + intros Hrest Hfresh. apply (IH _ _ Hrest).
      exact (walkEntry_fresh _ _ _ _ Hentry Hfresh).
    + intros Hrest. exfalso. clear -Hrest.
      induction later as [|e l IHl]; [discriminate|exact (IHl Hrest)].
Qed.

(** What a worker at the top of its loop claims: the next index, unless
    neither compression is asked for, in which case it passes over
    every file that is left. *)
Lemma loopTop_claims (fromNext : list (FileStats Z)) :
  forall next worker next',
    loopTop useGzip useBrotli fromNext next = (worker, next') ->
    next < next'
    /\ (worker = Finished -> next + List.length fromNext < next')
    /\ (forall index mode, worker = Awaiting index mode ->
          next <= index /\ index < next + List.length fromNext /\ next' = S index
          /\ (mode = gzipMode -> useGzip = true)
          /\ (mode = brotliMode -> useGzip = false /\ useBrotli = true))
    /\ (forall i, next <= i < next' -> i < next + List.length fromNext ->
          worker = Awaiting i gzipMode \/ worker = Awaiting i brotliMode
          \/ (useGzip = false /\ useBrotli = false)).
Proof.
  induction fromNext as [|file later IH]; intros next worker next';
    cbn [loopTop List.length].
  - intros [= <- <-]. repeat split; try lia; discriminate.
  - destruct useGzip eqn:Hg.
    + intros [= <- <-]. split; [lia|]. split; [discriminate|]. split.
      * intros index mode [= <- <-]. repeat split; try lia; try discriminate; auto.
      * intros i Hi _. left. f_equal. lia.
    + destruct useBrotli eqn:Hb.
      * intros [= <- <-]. split; [lia|]. split; [discriminate|]. split.
        -- intros index mode [= <- <-]. repeat split; try lia; try discriminate; auto.
        -- intros i Hi _. right. left. f_equal. lia.
      * intros Htop. destruct (IH _ _ _ Htop) as (Hlt & Hfin & Hawait & Hall).
        split; [lia|]. split; [intros Hw; specialize (Hfin Hw); lia|]. split.
        -- intros index mode Hw. destruct (Hawait _ _ Hw) as (H1 & H2 & H3 & H4 & H5).
           repeat split; try lia; auto; now apply H5.
        -- intros i Hi _. right. right. split; reflexivity.
Qed.

Lemma held_app (workers more : list Worker) (index : nat) (mode : Mode) :
  held workers index mode -> held (workers ++ more)%list index mode.
Proof.
  intros [j Hj]. exists j. rewrite lookup_app_l; [exact Hj|].
  now apply lookup_lt_Some in Hj.
Qed.

Lemma held_insert (workers : list Worker) (j index index' : nat) (mode mode' : Mode)
    (worker : Worker) :
  workers !! j = Some (Awaiting index' mode') ->
  index <> index' \/ mode <> mode' ->
  held workers index mode -> held (<[j := worker]> workers) index mode.
Proof.
  intros Hj Hne [j1 Hj1]. exists j1. rewrite list_lookup_insert_ne; [exact Hj1|].
  intros ->. rewrite Hj in Hj1. injection Hj1 as -> ->. destruct Hne; congruence.
Qed.

Lemma underWay_unused (walked file : FileStats Z) :
  underWay host distPath useGzip useBrotli walked file ->
  (useGzip = false -> measured host distPath useGzip gzipMode file (gzip file))
  /\ (useBrotli = false -> measured host distPath useBrotli brotliMode file (brotli file)).
Proof.
  intros (_ & Hg & Hb). split; intros Hoff; rewrite Hoff; cbn.
  - destruct Hg as [H|[H _]]; [exact H|congruence].
  - destruct Hb as [H|[H _]]; [exact H|congruence].
Qed.

(** What a worker at the top of its loop does to the pool's state: it is
    the same for a worker that starts and for one that comes back. *)
Lemma claimed_after_top (walked files : list (FileStats Z)) (next next' : nat)
    (worker : Worker) (workers : list Worker) (i : nat) (file : FileStats Z) :
  Forall2 (underWay host distPath useGzip useBrotli) walked files ->
  loopTop useGzip useBrotli (drop next files) next = (worker, next') ->
  (exists j, workers !! j = Some worker) ->
  files !! i = Some file -> next <= i < next' ->
  held workers i gzipMode
  \/ (measured host distPath useGzip gzipMode file (gzip file)
      /\ (held workers i brotliMode
          \/ measured host distPath useBrotli brotliMode file (brotli file))).
Proof.
  intros Hfiles Htop [j Hj] Hfile Hi.
  destruct (loopTop_claims _ _ _ _ Htop) as (_ & _ & Hawait & Hall).
  assert (Hlen : i < next + List.length (drop next files)).
  { apply lookup_lt_Some in Hfile. rewrite length_drop. lia. }
  destruct (Forall2_lookup_r _ _ _ _ _ Hfiles Hfile) as (origin & _ & Hway).
  destruct (underWay_unused _ _ Hway) as [Hnog Hnob].
  destruct (Hall i Hi Hlen) as [-> | [-> | [Hg Hb]]].
  - left. now exists j.
  - destruct (Hawait _ _ eq_refl) as (_ & _ & _ & _ & Hmode).
    destruct (Hmode eq_refl) as [Hg _].
    right. split; [now apply Hnog|]. left. now exists j.
  - right. split; [now apply Hnog|]. right. now apply Hnob.
Qed.

Lemma worker_after_top (files : list (FileStats Z)) (next next' : nat)
    (index : nat) (mode : Mode) :
  loopTop useGzip useBrotli (drop next files) next = (Awaiting index mode, next') ->
  index < next' /\ index < List.length files
  /\ (mode = gzipMode -> useGzip = true) /\ (mode = brotliMode -> useBrotli = true).
Proof.
  intros Htop. destruct (loopTop_claims _ _ _ _ Htop) as (_ & _ & Hawait & _).
  destruct (Hawait _ _ eq_refl) as (H1 & H2 & H3 & H4 & H5).
  rewrite length_drop in H2. repeat split; try lia; auto. intros Hm. now apply H5.
Qed.

Lemma finished_after_top (files : list (FileStats Z)) (next next' : nat) :
  loopTop useGzip useBrotli (drop next files) next = (Finished, next') ->
  List.length files <= next'.
Proof.
  intros Htop. destruct (loopTop_claims _ _ _ _ Htop) as (_ & Hfin & _).
  specialize (Hfin eq_refl). rewrite length_drop in Hfin. lia.
Qed.

Lemma top_advances (files : list (FileStats Z)) (next next' : nat) (worker : Worker) :
  loopTop useGzip useBrotli (drop next files) next = (worker, next') -> next < next'.
Proof. intros Htop. now destruct (loopTop_claims _ _ _ _ Htop). Qed.

(** A worker that starts. *)
Lemma sound_add (walked files : list (FileStats Z)) (next next' : nat)
    (workers : list Worker) (worker : Worker) :
  Sound host distPath useGzip useBrotli walked files next workers ->
  loopTop useGzip useBrotli (drop next files) next = (worker, next') ->
  Sound host distPath useGzip useBrotli walked files next' (workers ++ [worker])%list.
Proof.
  intros [Hfiles Hworkers Hclaimed Hfinished] Htop.
  pose proof (top_advances _ _ _ _ Htop) as Hlt.
  assert (Hlast : (workers ++ [worker])%list !! List.length workers = Some worker).
  { rewrite lookup_app_r by lia. now rewrite Nat.sub_diag. }
  constructor.
  - exact Hfiles.
  - intros j index mode Hj.
    destruct (decide (j < List.length workers)) as [Hold|Hnew].
    + rewrite lookup_app_l in Hj by exact Hold.
      destruct (Hworkers _ _ _ Hj) as (H1 & H2 & H3 & H4). repeat split; auto; lia.
    + rewrite lookup_app_r in Hj by lia.
      destruct (j - List.length workers) as [|k] eqn:Hk; [|now destruct k].
      injection Hj as ->. now apply (worker_after_top _ next).
  - intros i file Hfile Hi.
    destruct (decide (i < next)) as [Hold|Hnew].
    + destruct (Hclaimed _ _ Hfile Hold) as [H|[H1 [H|H]]].
      * left. now apply held_app.
      * right. split; [exact H1|]. left. now apply held_app.
      * right. split; [exact H1|]. now right.
    + apply (claimed_after_top walked files next next' worker); auto; [|lia].
      now exists (List.length workers).
  - intros [j Hj].
    destruct (decide (j < List.length workers)) as [Hold|Hnew].
    + rewrite lookup_app_l in Hj by exact Hold.
      assert (List.length files <= next) by (apply Hfinished; now exists j). lia.
    + rewrite lookup_app_r in Hj by lia.
      destruct (j - List.length workers) as [|k] eqn:Hk; [|now destruct k].
      injection Hj as ->. now apply (finished_after_top _ next).
Qed.

(** A worker that comes back to the top, its file [index] settled. *)
Lemma sound_top (walked files files' : list (FileStats Z)) (next next' : nat)
    (workers : list Worker) (j index : nat) (mode : Mode) (worker : Worker) :
  Sound host distPath useGzip useBrotli walked files next workers ->
  workers !! j = Some (Awaiting index mode) ->
  Forall2 (underWay host distPath useGzip useBrotli) walked files' ->
  List.length files' = List.length files ->
  (forall i, i <> index -> files' !! i = files !! i) ->
  (forall file', files' !! index = Some file' ->
     (mode = brotliMode /\ held workers index gzipMode)
     \/ (measured host distPath useGzip gzipMode file' (gzip file')
         /\ measured host distPath useBrotli brotliMode file' (brotli file'))) ->
  loopTop useGzip useBrotli (drop next files') next = (worker, next') ->
  Sound host distPath useGzip useBrotli walked files' next' (<[j := worker]> workers).
Proof.
  intros [Hfiles Hworkers Hclaimed Hfinished] Hj Hfiles' Hlen Hsame Hdone Htop.
  pose proof (top_advances _ _ _ _ Htop) as Hlt.
  pose proof (lookup_lt_Some _ _ _ Hj) as Hjlt.
  destruct (Hworkers _ _ _ Hj) as (Hindex & _).
  constructor.
  - exact Hfiles'.
  - intros j0 index0 mode0 Hj0.
    destruct (decide (j0 = j)) as [->|Hne].
    + rewrite list_lookup_insert_eq in Hj0 by exact Hjlt. injection Hj0 as ->.
      now apply (worker_after_top _ next).
    + rewrite list_lookup_insert_ne in Hj0 by congruence.
      destruct (Hworkers _ _ _ Hj0) as (H1 & H2 & H3 & H4).
      repeat split; auto; lia.
  - intros i file Hfile Hi.
    destruct (decide (i = index)) as [->|Hother].
    + destruct (Hdone _ Hfile) as [[-> Hheld]|[H1 H2]].
      * left. apply (held_insert _ _ _ index gzipMode brotliMode _ Hj); [|exact Hheld].
        right. discriminate.
      * right. split; [exact H1|now right].
    + destruct (decide (i < next)) as [Hold|Hnew].
      * rewrite Hsame in Hfile by exact Hother.
        destruct (Hclaimed _ _ Hfile Hold) as [H|[H1 [H|H]]].
        -- left. apply (held_insert _ _ _ index _ mode _ Hj); [now left|exact H].
        -- right. split; [exact H1|]. left.
           apply (held_insert _ _ _ index _ mode _ Hj); [now left|exact H].
        -- right. split; [exact H1|]. now right.
      * apply (claimed_after_top walked files' next next' worker); auto; [|lia].
        exists j. now apply list_lookup_insert_eq.
  - intros [j0 Hj0]. rewrite Hlen.
    destruct (decide (j0 = j)) as [->|Hne].
    + rewrite list_lookup_insert_eq in Hj0 by exact Hjlt. injection Hj0 as ->.
      rewrite <- Hlen. now apply (finished_after_top _ next).
    + rewrite list_lookup_insert_ne in Hj0 by congruence.
      assert (List.length files <= next) by (apply Hfinished; now exists j0). lia.
Qed.

Lemma underWay_setGzip (walked file : FileStats Z) (n : Z) :
  underWay host distPath useGzip useBrotli walked file ->
  useGzip = true ->
  getCompressedSize host (Path.joinPaths [distPath; path file]) gzipMode = Ok n ->
  underWay host distPath useGzip useBrotli walked (setGzip file n).
Proof.
  intros (Hsame & _ & Hb) Hg Hn. split; [exact Hsame|]. split; [|exact Hb].
  right. split; [exact Hg|exact Hn].
Qed.

Lemma underWay_setBrotli (walked file : FileStats Z) (n : Z) :
  underWay host distPath useGzip useBrotli walked file ->
  useBrotli = true ->
  getCompressedSize host (Path.joinPaths [distPath; path file]) brotliMode = Ok n ->
  underWay host distPath useGzip useBrotli walked (setBrotli file n).
Proof.
  intros (Hsame & Hg & _) Hb Hn. split; [exact Hsame|]. split; [exact Hg|].
  right. split; [exact Hb|exact Hn].
Qed.

Lemma files_after_settle (walked files : list (FileStats Z)) (index : nat)
    (file file' : FileStats Z) :
  Forall2 (underWay host distPath useGzip useBrotli) walked files ->
  files !! index = Some file ->
  (forall origin, underWay host distPath useGzip useBrotli origin file ->
                  underWay host distPath useGzip useBrotli origin file') ->
  Forall2 (underWay host distPath useGzip useBrotli) walked (<[index := file']> files).
Proof.
  intros Hfiles Hfile Hstep.
  destruct (Forall2_lookup_r _ _ _ _ _ Hfiles Hfile) as (origin & Horigin & Hway).
  rewrite <- (list_insert_id walked index origin Horigin).
  apply Forall2_insert; [exact Hfiles|now apply Hstep].
Qed.

(** The gzip size settled, the brotli size asked for. *)
Lemma sound_stage (walked files : list (FileStats Z)) (next : nat)
    (workers : list Worker) (j index : nat) (file : FileStats Z) (n : Z) :
  Sound host distPath useGzip useBrotli walked files next workers ->
  workers !! j = Some (Awaiting index gzipMode) ->
  files !! index = Some file ->
  getCompressedSize host (Path.joinPaths [distPath; path file]) gzipMode = Ok n ->
  useBrotli = true ->
  Sound host distPath useGzip useBrotli walked (<[index := setGzip file n]> files) next
    (<[j := Awaiting index brotliMode]> workers).
Proof.
  intros Hsound Hj Hfile Hn Hb.
  destruct Hsound as [Hfiles Hworkers Hclaimed Hfinished].
  pose proof (lookup_lt_Some _ _ _ Hj) as Hjlt.
  pose proof (lookup_lt_Some _ _ _ Hfile) as Hilt.
  destruct (Hworkers _ _ _ Hj) as (Hindex & _ & Hg & _). specialize (Hg eq_refl).
  constructor.
  - apply (files_after_settle _ _ _ file); auto.
    intros origin Hway. now apply underWay_setGzip.
  - intros j0 index0 mode0 Hj0. rewrite length_insert.
    destruct (decide (j0 = j)) as [->|Hne].
    + rewrite list_lookup_insert_eq in Hj0 by exact Hjlt. injection Hj0 as <- <-.
      repeat split; auto; discriminate.
    + rewrite list_lookup_insert_ne in Hj0 by congruence. exact (Hworkers _ _ _ Hj0).
  - intros i file' Hfile' Hi.
    destruct (decide (i = index)) as [->|Hother].
    + rewrite list_lookup_insert_eq in Hfile' by exact Hilt. injection Hfile' as <-.
      right. split; [rewrite Hg; exact Hn|]. left. exists j.
      now apply list_lookup_insert_eq.
    + rewrite list_lookup_insert_ne in Hfile' by congruence.
      destruct (Hclaimed _ _ Hfile' Hi) as [H|[H1 [H|H]]].
      * left. apply (held_insert _ _ _ index _ gzipMode _ Hj); [now left|exact H].
      * right. split; [exact H1|]. left.
        apply (held_insert _ _ _ index _ gzipMode _ Hj); [now left|exact H].
      * right. split; [exact H1|]. now right.
  - intros [j0 Hj0]. rewrite length_insert.
    destruct (decide (j0 = j)) as [->|Hne].
    + rewrite list_lookup_insert_eq in Hj0 by exact Hjlt. discriminate.
    + rewrite list_lookup_insert_ne in Hj0 by congruence.
      apply Hfinished. now exists j0.
Qed.

(** Every settle keeps the pool sound. *)
Lemma resume_sound (walked : list (FileStats Z)) (pool pool' : Pool) (j : nat) :
  Sound host distPath useGzip useBrotli walked (array pool) (nextIndex pool)
    (workers pool) ->
  resume host distPath useGzip useBrotli pool j = Ok pool' ->
  Sound host distPath useGzip useBrotli walked (array pool') (nextIndex pool')
    (workers pool')
  /\ List.length (workers pool') = List.length (workers pool).
Proof.
  intros Hsound. unfold resume.
  destruct (workers pool !! j) as [[index mode|]|] eqn:Hj;
    try (intros [= <-]; split; [exact Hsound|reflexivity]).
  destruct (array pool !! index) as [file|] eqn:Hfile;
    [|intros [= <-]; split; [exact Hsound|reflexivity]].
  destruct (getCompressedSize host _ mode) as [n|] eqn:Hn; [|discriminate].
  pose proof Hsound as [Hfiles Hworkers Hclaimed Hfinished].
  destruct (Hworkers _ _ _ Hj) as (Hindex & Hilt & Hg & Hb).
  assert (Hcases : useBrotli = true \/ useBrotli = false)
    by (destruct useBrotli; auto).
  intros Hres. destruct mode.
  - specialize (Hg eq_refl). destruct Hcases as [Hbrotli|Hbrotli]; rewrite Hbrotli in Hres.
    + injection Hres as <-. cbn [array nextIndex workers]. split.
      * now apply sound_stage.
      * apply length_insert.
    + destruct (loopTop _ _ _ _) as [worker next'] eqn:Htop.
      injection Hres as <-. cbn [array nextIndex workers]. split; [|apply length_insert].
      rewrite <- Hbrotli in Htop.
      apply (sound_top walked (array pool) _ (nextIndex pool) next' _ j index gzipMode);
        auto.
      * apply (files_after_settle _ _ _ file); auto.
        intros origin Hway. now apply underWay_setGzip.
      * apply length_insert.
      * intros i Hi. apply list_lookup_insert_ne. congruence.
      * intros file'. rewrite list_lookup_insert_eq by exact Hilt. intros [= <-].
        right. split; [rewrite Hg; exact Hn|].
        destruct (Forall2_lookup_r _ _ _ _ _ Hfiles Hfile) as (origin & _ & Hway).
        destruct (underWay_unused _ _ Hway) as [_ Hnob]. exact (Hnob Hbrotli).
  - specialize (Hb eq_refl).
    destruct (loopTop _ _ _ _) as [worker next'] eqn:Htop.
    injection Hres as <-. cbn [array nextIndex workers]. split; [|apply length_insert].
    apply (sound_top walked (array pool) _ (nextIndex pool) next' _ j index brotliMode);
      auto.
    + apply (files_after_settle _ _ _ file); auto.
      intros origin Hway. now apply underWay_setBrotli.
    + apply length_insert.
    + intros i Hi. apply list_lookup_insert_ne. congruence.
    + intros file'. rewrite list_lookup_insert_eq by exact Hilt. intros [= <-].
      destruct (Hclaimed _ _ Hfile Hindex) as [H|[H1 _]].
      * left. split; [reflexivity|exact H].
      * right. split; [exact H1|]. rewrite Hb. exact Hn.
Qed.

Lemma spawn_sound (walked files : list (FileStats Z)) (count : nat) :
  forall next before workers final,
    Sound host distPath useGzip useBrotli walked files next before ->
    spawn useGzip useBrotli count files next = (workers, final) ->
    Sound host distPath useGzip useBrotli walked files final (before ++ workers)%list
    /\ List.length workers = count.
Proof.
  induction count as [|count IH]; intros next before workers final Hsound; cbn [spawn].
  - intros [= <- <-]. rewrite app_nil_r. now split.
  - destruct (loopTop _ _ _ _) as [worker next1] eqn:Htop.
    destruct (spawn _ _ count files next1) as [others final1] eqn:Hspawn.
    intros [= <- <-].
    destruct (IH _ _ _ _ (sound_add _ _ _ _ _ _ Hsound Htop) Hspawn) as [Hall Hlen].
    rewrite <- app_assoc in Hall. cbn [app] in Hall. split; [exact Hall|].
    cbn [List.length]. now rewrite Hlen.
Qed.

Lemma sound_start (walked : list (FileStats Z)) :
  Forall fresh walked ->
  Sound host distPath useGzip useBrotli walked walked 0 [].
Proof.
  intros Hfresh. constructor.
  - induction Hfresh as [|file files [Hg Hb] _ IH]; constructor; [|exact IH].
    split; [repeat split|]. split; now left.
  - intros j index mode Hj. discriminate.
  - intros i file _ Hi. lia.
  - intros [j Hj]. discriminate.
Qed.

Lemma sound_end (walked files : list (FileStats Z)) (next : nat)
    (workers : list Worker) :
  Sound host distPath useGzip useBrotli walked files next workers ->
  workers <> [] ->
  forallb isFinished workers = true ->
  Forall2 (complete host distPath useGzip useBrotli) walked files.
Proof.
  intros [Hfiles Hworkers Hclaimed Hfinished] Hstaffed Hall.
  assert (Hnone : forall i mode, ~ held workers i mode).
  { intros i mode [j Hj]. rewrite forallb_forall in Hall.
    apply list_elem_of_lookup_2, list_elem_of_In in Hj. now apply Hall in Hj. }
  assert (Hnext : List.length files <= next).
  { apply Hfinished. exists 0. destruct workers as [|[index mode|] others];
      [contradiction| |reflexivity].
    exfalso. apply (Hnone index mode). now exists 0. }
  apply Forall2_same_length_lookup. split; [now apply Forall2_length in Hfiles|].
  intros i origin file Horigin Hfile.
  destruct (Forall2_lookup_lr _ _ _ _ _ _ Hfiles Horigin Hfile) as (Hsame & _).
  pose proof (lookup_lt_Some _ _ _ Hfile) as Hi.
  destruct (Hclaimed _ _ Hfile ltac:(lia)) as [H|[H1 [H|H2]]];
    try (exfalso; exact (Hnone _ _ H)).
  split; [exact Hsame|]. now split.
Qed.

Lemma awaitAll_sound (walked : list (FileStats Z)) (schedule : list nat) :
  forall pool final,
    Sound host distPath useGzip useBrotli walked (array pool) (nextIndex pool)
      (workers pool) ->
    workers pool <> [] ->
    awaitAll host distPath useGzip useBrotli schedule pool = Some (Ok final) ->
    Forall2 (complete host distPath useGzip useBrotli) walked final.
Proof.
  induction schedule as [|j later IH]; intros pool final Hsound Hstaffed;
    cbn [awaitAll]; destruct (forallb isFinished (workers pool)) eqn:Hall;
    try discriminate; try (intros [= <-]; now apply (sound_end _ _ _ _ Hsound)).
  destruct (resume host distPath useGzip useBrotli pool j) as [pool'|] eqn:Hres;
    [|discriminate].
  destruct (resume_sound _ _ _ _ Hsound Hres) as [Hsound' Hlen].
  apply IH; [exact Hsound'|]. intros Hnil. rewrite Hnil in Hlen.
  destruct (workers pool); [contradiction|discriminate].
Qed.

(** X15. Whenever the directory scan produces a record, under any order
    in which the compressions settle, the record's files are the files
    the walk found, in the same order and with the same path, name and
    size, and each of them carries the measured sizes: its gzip size is
    what [getCompressedSize] reports for the file at its own path when
    gzip is asked for, and 0 when it is not, and likewise for brotli.
    No file is left unmeasured, and no measurement lands on another
    file. *)
Theorem scan_measures_every_file (schedule : list nat) (stats : BundleStats Z) :
  scanDirectory host distPath useGzip useBrotli schedule = Some (Ok stats) ->
  exists walked,
    walk host distPath distPath (listing host) [] = Ok walked
    /\ Forall2 (complete host distPath useGzip useBrotli) walked (files stats).
Proof.
  unfold scanDirectory.
  destruct (statDist host) as [[|]|]; try discriminate.
  destruct (walk _ _ _ _ _) as [walked|] eqn:Hwalk; [|discriminate].
  destruct (spawn _ _ _ _ _) as [workers next] eqn:Hspawn.
  destruct (awaitAll _ _ _ _ _ _) as [[final|]|] eqn:Hawait; try discriminate.
  intros [= <-]. exists walked. split; [reflexivity|]. cbn [files].
  assert (Hfresh : Forall fresh walked)
    by (apply (walk_fresh _ _ _ _ Hwalk); constructor).
  destruct (spawn_sound walked walked _ _ [] _ _ (sound_start _ Hfresh) Hspawn)
    as [Hsound Hlen].
  cbn [app] in Hsound.
  apply (awaitAll_sound walked schedule
           {| array := walked; nextIndex := next; workers := workers |} _ Hsound);
    [|exact Hawait].
  cbn [Scan.workers]. intros ->. cbn in Hlen. lia.
Qed.

Lemma settle_sound (walked : list (FileStats Z)) (schedule : list nat) :
  forall pool pool',
    Sound host distPath useGzip useBrotli walked (array pool) (nextIndex pool)
      (workers pool) ->
    settle host distPath useGzip useBrotli schedule pool = Ok pool' ->
    Sound host distPath useGzip useBrotli walked (array pool') (nextIndex pool')
      (workers pool')
    /\ List.length (workers pool') = List.length (workers pool).
Proof.
  induction schedule as [|j later IH]; intros pool pool' Hsound; cbn [settle].
  - intros [= <-]. now split.
  - destruct (resume host distPath useGzip useBrotli pool j) as [pool1|] eqn:Hres;
      [|discriminate].
    destruct (resume_sound _ _ _ _ Hsound Hres) as [Hsound1 Hlen1].
    intros Hrest. destruct (IH _ _ Hsound1 Hrest) as [Hsound' Hlen'].
    split; [exact Hsound'|congruence].
Qed.

Lemma inFlight_bound (pool : Pool) : inFlight pool <= List.length (workers pool).
Proof. unfold inFlight. apply List.filter_length_le. Qed.

Lemma inFlight_none (pool : Pool) :
  (forall j index mode, workers pool !! j <> Some (Awaiting index mode)) ->
  inFlight pool = 0.
Proof.
  unfold inFlight. intros Hnone.
  induction (workers pool) as [|worker others IH]; [reflexivity|].
  cbn [List.filter]. destruct worker as [index mode|]; cbn [isFinished negb].
  - exfalso. exact (Hnone 0 index mode eq_refl).
  - apply IH. intros j index mode Hj. exact (Hnone (S j) index mode Hj).
Qed.

(** X17. However many compressions have settled, and in whatever
    order, the pool never has more than four compressions in flight,
    and never more than there are files. *)
Theorem at_most_four_compressions_in_flight (schedule : list nat)
    (walked : list (FileStats Z)) (workers : list Worker) (next : nat) (pool : Pool) :
  walk host distPath distPath (listing host) [] = Ok walked ->
  spawn useGzip useBrotli (Nat.max 1 (Nat.min 4 (List.length walked))) walked 0
  = (workers, next) ->
  settle host distPath useGzip useBrotli schedule
    {| array := walked; nextIndex := next; workers := workers |} = Ok pool ->
  inFlight pool <= 4 /\ inFlight pool <= List.length walked.
Proof.
  intros Hwalk Hspawn Hsettle.
  assert (Hfresh : Forall fresh walked)
    by (apply (walk_fresh _ _ _ _ Hwalk); constructor).
  destruct (spawn_sound walked walked _ _ [] _ _ (sound_start _ Hfresh) Hspawn)
    as [Hsound Hcount].
  cbn [app] in Hsound.
  destruct (settle_sound walked schedule
              {| array := walked; nextIndex := next; workers := workers |} pool
              Hsound Hsettle) as [[Hfiles Hworkers _ _] Hlen].
  cbn [Scan.workers] in Hlen. pose proof (inFlight_bound pool) as Hbound.
  split; [lia|].
  destruct walked as [|file others].
  - rewrite inFlight_none; [lia|]. intros j index mode Hj.
    destruct (Hworkers _ _ _ Hj) as (_ & Hlt & _).
    apply Forall2_length in Hfiles. rewrite <- Hfiles in Hlt. cbn in Hlt. lia.
  - cbn [List.length] in *. lia.
Qed.
End ScanMeasures.

Section ScanInstances.
Import Types Scan Measure.

Lemma scan_measures_every_file_sample :
  exists walked,
    walk SampleScan.host "dist" "dist" (listing SampleScan.host) [] = Ok walked
    /\ Forall2 (complete SampleScan.host "dist" true true) walked
         (files SampleScan.scanned).
Proof.
  apply (scan_measures_every_file SampleScan.host "dist" true true SampleScan.schedule
           SampleScan.scanned).
  vm_compute. reflexivity.
Defined.

Lemma at_most_four_compressions_in_flight_sample :
  (inFlight SamplePool.midway <= 4)%nat
  /\ (inFlight SamplePool.midway <= List.length SamplePool.walked)%nat.
Proof.
  apply (at_most_four_compressions_in_flight SampleScan.host "dist" true true
           [1; 0]%nat SamplePool.walked (workers SamplePool.started)
           (nextIndex SamplePool.started) SamplePool.midway).
  - vm_compute. reflexivity.
  - vm_compute. reflexivity.
  - vm_compute. reflexivity.
Defined.
End ScanInstances.

(** ** Looking for assets below a directory *)

Section AssetFacts.
Import Scan Assets.

Lemma AssetBelow_cons (isAsset : string -> bool) (entry : Dirent) (later : list Dirent) :
  AssetBelow isAsset (entry :: later)
  <-> AssetIn isAsset entry \/ AssetBelow isAsset later.
Proof.
  split.
  - intros H.
    inversion H as [entries fileName size Hin Hasset Heq
                   | entries dirName inside Hin Hbelow Heq]; subst;
      destruct Hin as [->|Hin].
    + now left.
    + right. now apply (asset_here _ _ fileName size).
    + now left.
    + right. now apply (asset_deeper _ _ dirName inside).
  - intros [Hin | Hlater].
    + destruct entry as [fileName size | dirName [inside|] | other]; try contradiction.
      * apply (asset_here _ _ fileName size); [now left|exact Hin].
      * apply (asset_deeper _ _ dirName inside); [now left|exact Hin].
    + destruct Hlater as [entries fileName size Hin Hasset | entries dirName inside Hin Hb].
      * apply (asset_here _ _ fileName size); [now right|exact Hasset].
      * apply (asset_deeper _ _ dirName inside); [now right|exact Hb].
Qed.

Lemma AssetBelow_nil (isAsset : string -> bool) : ~ AssetBelow isAsset [].
Proof. intros H. inversion H as [? ? ? Hin|? ? ? Hin]; destruct Hin. Qed.
End AssetFacts.

Section AssetSearch.
Import Scan Autodetect Assets.
Variable fs : Files.

Lemma onlyLogged_refl w : onlyLogged w w.
Proof. repeat split. Qed.

Lemma onlyLogged_trans w1 w2 w3 : onlyLogged w1 w2 -> onlyLogged w2 w3 -> onlyLogged w1 w3.
Proof. intros (A1 & B1 & C1) (A2 & B2 & C2). repeat split; congruence. Qed.

Lemma entryHasAssets_finds :
  forall entry dir w,
    exists found w',
      entryHasAssets fs dir entry w = (Ok found, w')
      /\ (found = true <-> AssetIn (isAssetFile fs) entry)
      /\ onlyLogged w w'.
Proof.
  fix IH 1. intros [fileName size | dirName listing | other] dir w; cbn [entryHasAssets].
  - eexists _, w. split; [reflexivity|]. split; [reflexivity|apply onlyLogged_refl].
  - destruct listing as [inside|message].
    + cbn [AssetIn]. generalize (Path.joinPaths [dir; dirName]). intros fullPath.
      revert w. induction inside as [|entry later IHlater]; intros w.
      * exists false, w. split; [reflexivity|]. split; [|apply onlyLogged_refl].
        split; [discriminate|]. intros H. now apply AssetBelow_nil in H.
      * destruct (IH entry fullPath w) as (found & w1 & Hentry & Hfound & Hlog).
        unfold bind at 1. rewrite Hentry. destruct found.
        -- exists true, w1. split; [reflexivity|]. split; [|exact Hlog].
           split; [|reflexivity]. intros _. apply AssetBelow_cons. left. now apply Hfound.
        -- destruct (IHlater w1) as (found & w2 & Hlater & Hfound' & Hlog').
           exists found, w2. split; [exact Hlater|]. split.
           ++ rewrite AssetBelow_cons, Hfound'. split; [now right|].
              intros [Hin|Hl]; [|exact Hl]. apply Hfound in Hin. discriminate.
           ++ now apply (onlyLogged_trans _ w1).
    + eexists false, _. split; [reflexivity|]. split; [|repeat split].
      split; [discriminate|contradiction].
  - exists false, w. split; [reflexivity|]. split; [|apply onlyLogged_refl].
    split; [discriminate|contradiction].
Qed.

Lemma anyHasAssets_finds (dir : string) (entries : list Dirent) :
  forall w,
    exists found w',
      anyHasAssets fs dir entries w = (Ok found, w')
      /\ (found = true <-> AssetBelow (isAssetFile fs) entries)
      /\ onlyLogged w w'.
Proof.
  induction entries as [|entry later IH]; intros w; cbn [anyHasAssets].
  - exists false, w. split; [reflexivity|]. split; [|apply onlyLogged_refl].
    split; [discriminate|]. intros H. now apply AssetBelow_nil in H.
  - destruct (entryHasAssets_finds entry dir w) as (found & w1 & Hentry & Hfound & Hlog).
    unfold bind at 1. rewrite Hentry. destruct found.
    + exists true, w1. split; [reflexivity|]. split; [|exact Hlog].
      split; [|reflexivity]. intros _. apply AssetBelow_cons. left. now apply Hfound.
    + destruct (IH w1) as (found & w2 & Hlater & Hfound' & Hlog').
      exists found, w2. split; [exact Hlater|]. split.
      * rewrite AssetBelow_cons, Hfound'. split; [now right|].
        intros [Hin|Hl]; [|exact Hl]. apply Hfound in Hin. discriminate.
      * now apply (onlyLogged_trans _ w1).
Qed.

(* The answer of [directoryHasAssets], its meaning and its footprint. *)
Lemma directoryHasAssets_answer (dir : string) (w : World) :
  exists found w',
    directoryHasAssets fs dir w = (Ok found, w')
    /\ (found = true
        <-> exists entries,
              readdirEntries fs dir = Ok entries /\ AssetBelow (isAssetFile fs) entries)
    /\ onlyLogged w w'.
Proof.
  unfold directoryHasAssets. destruct (readdirEntries fs dir) as [entries|message].
  - destruct (anyHasAssets_finds dir entries w) as (found & w' & Hrun & Hfound & Hlog).
    exists found, w'. split; [exact Hrun|]. split; [|exact Hlog].
    rewrite Hfound. split.
    + intros H. now exists entries.
    + now intros (entries' & [= <-] & H).
  - eexists false, _. split; [reflexivity|]. split; [|repeat split].
    split; [discriminate|]. now intros (entries & Hlist & _).
Qed.

(** X18. [directoryHasAssets] never throws and touches nothing but the
    log; it answers true exactly when the directory can be listed and an
    asset file lies in it or below it through directories that can be
    listed. A directory that cannot be listed costs a warning and counts
    as holding nothing; where in the listing the asset comes makes no
    difference to the answer. *)
Theorem directoryHasAssets_finds_reachable_assets (dir : string) (w : World) :
  exists found w',
    directoryHasAssets fs dir w = (Ok found, w')
    /\ (found = true
        <-> exists entries,
              readdirEntries fs dir = Ok entries /\ AssetBelow (isAssetFile fs) entries)
    /\ onlyLogged w w'.
Proof.
  destruct (directoryHasAssets_answer dir w) as (found & w' & Hrun & Hfound & Hlog).
  now exists found, w'.
Qed.
End AssetSearch.

Section ScanAgrees.
Import Types Scan Autodetect Assets.
Variables (host : Host) (distPath : string).

Lemma walkEntry_pushes :
  forall entry dir files files',
    walkEntry host distPath dir entry files = Ok files' ->
    exists pushed,
      files' = (files ++ pushed)%list
      /\ (pushed <> [] <-> AssetIn (Scan.isAssetFile host) entry).
Proof.
  fix IH 1. intros [fileName size | dirName listing | other] dir files files';
    cbn [walkEntry AssetIn].
  - destruct (Scan.isAssetFile host fileName) eqn:Hasset.
    + destruct size as [bytes|]; [|discriminate]. intros [= <-].
      eexists. split; [reflexivity|]. split; [reflexivity|discriminate].
    + intros [= <-]. exists []. split; [now rewrite app_nil_r|].
      split; [contradiction|discriminate].
  - destruct listing as [inside|]; [|discriminate].
    generalize (Path.joinPaths [dir; dirName]). intros fullPath.
    revert files. induction inside as [|entry later IHlater]; intros files.
    + intros [= <-]. exists []. split; [now rewrite app_nil_r|].
      split; [contradiction|]. intros H. now apply AssetBelow_nil in H.
    + destruct (walkEntry host distPath fullPath entry files) as [files1|] eqn:Hentry;
        [|discriminate].
      intros Hrest.
      destruct (IH entry _ _ _ Hentry) as (pushed1 & -> & Hone).
      destruct (IHlater _ Hrest) as (pushed2 & -> & Hmore).
      exists (pushed1 ++ pushed2)%list. split; [now rewrite app_assoc|].
      rewrite AssetBelow_cons, <- Hone, <- Hmore.
      destruct pushed1, pushed2; cbn; intuition congruence.
  - intros [= <-]. exists []. split; [now rewrite app_nil_r|].
    split; [contradiction|intros []].
Qed.

Lemma walk_pushes (dir : string) (entries : list Dirent) :
  forall files files',
    walk host distPath dir (Ok entries) files = Ok files' ->
    exists pushed,
      files' = (files ++ pushed)%list
      /\ (pushed <> [] <-> AssetBelow (Scan.isAssetFile host) entries).
Proof.
  unfold walk. induction entries as [|entry later IH]; intros files files'; cbn [fold_left].
  - intros [= <-]. exists []. split; [now rewrite app_nil_r|].
    split; [contradiction|]. intros H. now apply AssetBelow_nil in H.
  - destruct (walkEntry host distPath dir entry files) as [files1|] eqn:Hentry.
    + intros Hrest.
      destruct (walkEntry_pushes _ _ _ _ Hentry) as (pushed1 & -> & Hone).
      destruct (IH _ _ Hrest) as (pushed2 & -> & Hmore).
      exists (pushed1 ++ pushed2)%list. split; [now rewrite app_assoc|].
      rewrite AssetBelow_cons, <- Hone, <- Hmore.
      destruct pushed1, pushed2; cbn; intuition congruence.
    + intros Hrest. exfalso. clear -Hrest.
      induction later as [|e l IHl]; [discriminate|exact (IHl Hrest)].
Qed.

(** X19. The search for assets and the scan agree: for a directory
    whose scan succeeds, [directoryHasAssets] answers true exactly when
    the scan finds at least one file. So an output directory that
    auto-detection accepts never scans to an empty record. *)
Theorem detected_directory_scans_to_files (fs : Files) (dir : string)
    (walked : list (FileStats Z)) (w : World) :
  readdirEntries fs dir = listing host ->
  (forall fileName, Autodetect.isAssetFile fs fileName = Scan.isAssetFile host fileName) ->
  walk host distPath distPath (listing host) [] = Ok walked ->
  fst (directoryHasAssets fs dir w)
  = Ok match walked with [] => false | _ :: _ => true end.
Proof.
  intros Hlisting Hassets Hwalk.
  destruct (listing host) as [entries|] eqn:Hentries; [|discriminate].
  destruct (walk_pushes _ _ _ _ Hwalk) as (pushed & -> & Hpushed). cbn [app].
  destruct (directoryHasAssets_answer fs dir w)
    as (found & w' & -> & Hfound & _). cbn [fst]. f_equal.
  assert (Hsame : AssetBelow (Autodetect.isAssetFile fs) entries
                  <-> AssetBelow (Scan.isAssetFile host) entries).
  { clear -Hassets. split; intros H.
    - induction H as [entries fileName size Hin Hasset
                     | entries dirName inside Hin _ IH].
      + apply (asset_here _ _ fileName size); [exact Hin|]. now rewrite <- Hassets.
      + now apply (asset_deeper _ _ dirName inside).
    - induction H as [entries fileName size Hin Hasset
                     | entries dirName inside Hin _ IH].
      + apply (asset_here _ _ fileName size); [exact Hin|]. now rewrite Hassets.
      + now apply (asset_deeper _ _ dirName inside). }
  destruct found.
  - destruct (proj1 Hfound eq_refl) as (entries' & Hread & Hbelow).
    rewrite Hlisting in Hread. injection Hread as <-.
    apply Hsame, Hpushed in Hbelow. now destruct pushed.
  - destruct pushed as [|file pushed]; [reflexivity|]. exfalso.
    assert (Htrue : false = true); [|discriminate].
    apply Hfound. exists entries. split; [congruence|].
    apply Hsame, Hpushed. discriminate.
Qed.
End ScanAgrees.

(** ** Locating the build output *)

Section Detection.
Import Index Scan Autodetect Assets.
Variable fs : Files.

Lemma isExistingDirectory_true (p : string) :
  isExistingDirectory fs p = Ok true ->
  existsSync fs p = true /\ isDirectory fs p = Ok true.
Proof.
  unfold isExistingDirectory. destruct (existsSync fs p); [auto|discriminate].
Qed.

(** A probe of one directory: it is an existing directory and the
    search for assets in it said yes. *)
Lemma probe_holds (p : string) (w w' : World) :
  isExistingDirectory fs p = Ok true ->
  directoryHasAssets fs p w = (Ok true, w') ->
  holdsAssets fs p.
Proof.
  intros Hdir Hhas. destruct (isExistingDirectory_true _ Hdir) as [Hex Hst].
  split; [exact Hex|]. split; [exact Hst|].
  destruct (directoryHasAssets_answer fs p w)
    as (found & w1 & Hrun & Hfound & _).
  rewrite Hhas in Hrun. injection Hrun as <- _. now apply Hfound.
Qed.

Lemma firstCommonPath_sound (dirNames : list string) :
  forall w w' result,
    firstCommonPath fs dirNames w = (Ok (Some result), w') ->
    In (out_path result) dirNames /\ out_mode result = "auto"
    /\ holdsAssets fs (Path.joinPaths [repoRoot fs; out_path result]).
Proof.
  induction dirNames as [|dirName later IH]; intros w w' result; cbn [firstCommonPath];
    [discriminate|].
  unfold bind at 1, lift at 1.
  destruct (isExistingDirectory fs _) as [[|]|] eqn:Hdir; try discriminate.
  - unfold bind at 1.
    destruct (directoryHasAssets fs _ w) as [[[|]|] w1] eqn:Hhas; try discriminate;
      cbn [negb].
    + intros [= <- _]. cbn [out_path out_mode]. split; [now left|]. split; [reflexivity|].
      exact (probe_holds _ _ _ Hdir Hhas).
    + intros Hrest. destruct (IH _ _ _ Hrest) as (Hin & Hmode & Hholds). auto with datatypes.
  - intros Hrest. destruct (IH _ _ _ Hrest) as (Hin & Hmode & Hholds). auto with datatypes.
Qed.

Lemma firstToolConfig_sound (rootFiles : list string) (configs : list ToolConfig) :
  forall w w' result,
    firstToolConfig fs rootFiles configs w = (Ok (Some result), w') ->
    (exists config, In config configs /\ out_path result = candidate config
                    /\ existsb (patternTest config) rootFiles = true)
    /\ out_mode result = "auto"
    /\ holdsAssets fs (Path.joinPaths [repoRoot fs; out_path result]).
Proof.
  induction configs as [|config later IH]; intros w w' result; cbn [firstToolConfig];
    [discriminate|].
  assert (Hlater : firstToolConfig fs rootFiles later w = (Ok (Some result), w') ->
                   (exists config0, In config0 (config :: later)
                                    /\ out_path result = candidate config0
                                    /\ existsb (patternTest config0) rootFiles = true)
                   /\ out_mode result = "auto"
                   /\ holdsAssets fs (Path.joinPaths [repoRoot fs; out_path result])).
  { intros Hrest. destruct (IH _ _ _ Hrest) as ((config0 & Hin & Hp & Ht) & Hmode & Hholds).
    split; [|auto]. exists config0. auto with datatypes. }
  destruct (existsb (patternTest config) rootFiles) eqn:Hconfig; [|exact Hlater].
  unfold bind at 1, lift at 1.
  destruct (isExistingDirectory fs _) as [[|]|] eqn:Hdir; try discriminate;
    [|exact Hlater].
  unfold bind at 1.
  destruct (directoryHasAssets fs _ w) as [[[|]|] w1] eqn:Hhas; try discriminate;
    cbn [negb].
  - intros [= <- _]. cbn [out_path out_mode]. split; [|split; [reflexivity|]].
    + exists config. split; [now left|]. now split.
    + exact (probe_holds _ _ _ Hdir Hhas).
  - intros Hrest. destruct (IH _ _ _ Hrest) as ((config0 & Hin & Hp & Ht) & Hmode & Hholds).
    split; [|auto]. exists config0. auto with datatypes.
Qed.

Lemma collectOutputs_sound (Q : string -> Prop) (monoDir subDir subPath : string)
    (outDirs : list string) :
  (forall outDir, In outDir outDirs ->
     holdsAssets fs (Path.joinPaths [subPath; outDir]) ->
     Q (Path.joinPaths [monoDir; subDir; outDir])) ->
  forall candidates w w' result,
    collectOutputs fs monoDir subDir subPath outDirs candidates w = (Ok result, w') ->
    Forall Q candidates -> Forall Q result.
Proof.
  induction outDirs as [|outDir later IH]; intros HQ candidates w w' result;
    cbn [collectOutputs].
  - now intros [= <- _].
  - assert (HQ' : forall o, In o later -> holdsAssets fs (Path.joinPaths [subPath; o]) ->
                            Q (Path.joinPaths [monoDir; subDir; o]))
      by (intros o Ho; apply HQ; now right).
    unfold bind at 1, lift at 1.
    destruct (isExistingDirectory fs _) as [[|]|] eqn:Hdir; try discriminate;
      [|apply (IH HQ')].
    unfold bind at 1.
    destruct (directoryHasAssets fs _ w) as [[[|]|] w1] eqn:Hhas; try discriminate;
      cbn [negb]; [|apply (IH HQ')].
    intros Hrest Hall. apply (IH HQ' _ _ _ _ Hrest).
    apply Forall_app. split; [exact Hall|]. constructor; [|constructor].
    apply HQ; [now left|]. exact (probe_holds _ _ _ Hdir Hhas).
Qed.

Lemma collectSubDirs_sound (Q : string -> Prop) (monoDir monoPath : string)
    (subDirs : list string) :
  (forall subDir outDir, In outDir commonPaths ->
     holdsAssets fs (Path.joinPaths [Path.joinPaths [monoPath; subDir]; outDir]) ->
     Q (Path.joinPaths [monoDir; subDir; outDir])) ->
  forall candidates w w' result,
    collectSubDirs fs monoDir monoPath subDirs candidates w = (Ok result, w') ->
    Forall Q candidates -> Forall Q result.
Proof.
  intros HQ. induction subDirs as [|subDir later IH]; intros candidates w w' result;
    cbn [collectSubDirs].
  - now intros [= <- _].
  - unfold bind at 1, lift at 1.
    destruct (isDirectory fs _) as [[|]|]; try discriminate; [|apply IH].
    unfold bind at 1.
    destruct (collectOutputs fs monoDir subDir _ commonPaths candidates w)
      as [[found|] w1] eqn:Hout; [|discriminate].
    intros Hrest Hall. apply (IH _ _ _ _ Hrest).
    apply (collectOutputs_sound Q monoDir subDir _ commonPaths
             (fun outDir Hin => HQ subDir outDir Hin) _ _ _ _ Hout Hall).
Qed.

Lemma collectMonoRepo_sound (Q : string -> Prop) (monoDirs : list string) :
  (forall monoDir subDir outDir, In monoDir monoDirs -> In outDir commonPaths ->
     holdsAssets fs
       (Path.joinPaths
          [Path.joinPaths [Path.joinPaths [repoRoot fs; monoDir]; subDir]; outDir]) ->
     Q (Path.joinPaths [monoDir; subDir; outDir])) ->
  forall candidates w w' result,
    collectMonoRepo fs monoDirs candidates w = (Ok result, w') ->
    Forall Q candidates -> Forall Q result.
Proof.
  induction monoDirs as [|monoDir later IH]; intros HQ candidates w w' result;
    cbn [collectMonoRepo].
  - now intros [= <- _].
  - assert (HQ' : forall m s o, In m later -> In o commonPaths ->
                    holdsAssets fs
                      (Path.joinPaths
                         [Path.joinPaths [Path.joinPaths [repoRoot fs; m]; s]; o]) ->
                    Q (Path.joinPaths [m; s; o]))
      by (intros m s o Hm; apply HQ; now right).
    unfold bind at 1, lift at 1.
    destruct (isExistingDirectory fs _) as [[|]|]; try discriminate; [|apply (IH HQ')].
    unfold bind at 1, lift at 1.
    destruct (readdirNames fs _) as [subDirs|]; [|discriminate].
    unfold bind at 1.
    destruct (collectSubDirs fs monoDir _ subDirs candidates w) as [[found|] w1] eqn:Hsub;
      [|discriminate].
    intros Hrest Hall. apply (IH HQ' _ _ _ _ Hrest).
    apply (collectSubDirs_sound Q monoDir _ subDirs
             (fun subDir outDir Hin => HQ monoDir subDir outDir (or_introl eq_refl) Hin)
             _ _ _ _ Hsub Hall).
Qed.

(** X20. Whatever [locateBuildOutput] returns is either the given
    path, taken as it is without a look at the file system or a line in
    the log, or, when no path is given, a path found automatically that
    names an existing directory holding at least one asset file: one of
    the common output names under the repository root, or an output
    directory under a directory of [apps] or [packages]. *)
Theorem detection_proposes_directories_with_assets (userProvidedPath : string)
    (w w' : World) (result : OutputPathResult) :
  Autodetect.locateBuildOutput fs userProvidedPath w = (Ok (Some result), w') ->
  (userProvidedPath <> ""
   /\ result = {| out_path := userProvidedPath; out_mode := "override";
                  out_reason := "user specified" |}
   /\ w' = w)
  \/ (userProvidedPath = "" /\ out_mode result = "auto"
      /\ ((In (out_path result) commonPaths
           /\ holdsAssets fs (Path.joinPaths [repoRoot fs; out_path result]))
          \/ MonoOutput fs (out_path result))).
Proof.
  unfold Autodetect.locateBuildOutput.
  destruct (nonEmpty userProvidedPath) eqn:Hgiven.
  - intros [= <- <-]. left. split; [|auto]. intros ->. discriminate.
  - assert (Hempty : userProvidedPath = "")
      by (destruct userProvidedPath; [reflexivity|discriminate]).
    intros Hrun. right. split; [exact Hempty|].
    revert Hrun. unfold bind at 1, info at 1, emit at 1. unfold bind at 1.
    destruct (firstCommonPath fs commonPaths _) as [[[common|]|] w1] eqn:Hcommon;
      try discriminate.
    { intros [= <- _]. destruct (firstCommonPath_sound _ _ _ _ Hcommon) as (Hin & Hmode & Hh).
      split; [exact Hmode|]. left. now split. }
    unfold bind at 1, lift at 1.
    destruct (readdirNames fs (repoRoot fs)) as [rootFiles|]; [|discriminate].
    unfold bind at 1.
    destruct (firstToolConfig fs rootFiles toolConfigs w1) as [[[detected|]|] w2]
      eqn:Hdetected; try discriminate.
    { intros [= <- _].
      destruct (firstToolConfig_sound _ _ _ _ _ Hdetected)
        as ((config & Hin & Hpath & _) & Hmode & Hh).
      split; [exact Hmode|]. left. split; [|exact Hh]. rewrite Hpath.
      cbn in Hin. unfold commonPaths.
      repeat (destruct Hin as [<-|Hin]; [cbn; tauto|]). destruct Hin. }
    unfold bind at 1.
    destruct (collectMonoRepo fs _ [] w2) as [[candidates|] w3] eqn:Hmono;
      [|discriminate].
    assert (Hall : Forall (MonoOutput fs) candidates).
    { apply (collectMonoRepo_sound (MonoOutput fs) ["apps"; "packages"]) in Hmono;
        [exact Hmono| |constructor].
      intros monoDir subDir outDir Hm Ho Hh. now exists monoDir, subDir, outDir. }
    destruct candidates as [|only [|second others]]; try discriminate.
    intros [= <- _]. cbn [out_path out_mode]. split; [reflexivity|]. right.
    now inversion Hall.
Qed.

(** X21. When no path is given and [dist] under the repository root
    is a directory holding an asset file, [dist] is what
    [locateBuildOutput] returns, whatever else the repository holds:
    configuration files and monorepo directories are not looked at. *)
Theorem dist_with_assets_is_chosen_first (w : World) :
  holdsAssets fs (Path.joinPaths [repoRoot fs; "dist"]) ->
  exists w',
    Autodetect.locateBuildOutput fs "" w
    = (Ok (Some {| out_path := "dist"; out_mode := "auto";
                   out_reason := "found existing dist/ directory" |}), w')
    /\ onlyLogged w w'.
Proof.
  intros (Hex & Hdir & Hassets).
  unfold Autodetect.locateBuildOutput. cbn [nonEmpty String.eqb negb].
  unfold bind at 1, info at 1, emit at 1. unfold bind at 1.
  cbn [commonPaths firstCommonPath]. unfold bind at 1, lift at 1, isExistingDirectory.
  rewrite Hex, Hdir. unfold bind at 1.
  match goal with |- context [directoryHasAssets fs ?p ?w0] =>
    destruct (directoryHasAssets_answer fs p w0)
      as (found & w1 & Hrun & Hfound & Hlog)
  end.
  rewrite Hrun. apply Hfound in Hassets. subst found. cbn [negb].
  exists w1. split; [reflexivity|]. exact Hlog.
Qed.
End Detection.

Section DetectionInstances.
Import Index Scan Autodetect Assets.

Lemma sample_dist_holds_assets : holdsAssets SampleFiles.checkout SampleFiles.dist.
Proof.
  split; [reflexivity|]. split; [reflexivity|].
  eexists. split; [reflexivity|].
  apply (asset_here _ _ "app.js" (Ok 1000%Z)); [now left|reflexivity].
Qed.

Lemma detected_directory_scans_to_files_sample :
  fst (directoryHasAssets SampleFiles.checkout SampleFiles.dist Sample.start) = Ok true.
Proof.
  exact (detected_directory_scans_to_files SampleScan.host "dist" SampleFiles.checkout
           SampleFiles.dist SamplePool.walked Sample.start eq_refl (fun _ => eq_refl)
           eq_refl).
Defined.

Lemma detection_proposes_directories_with_assets_sample :
  (In "dist" commonPaths
   /\ holdsAssets SampleFiles.checkout
        (Path.joinPaths [repoRoot SampleFiles.checkout; "dist"]))
  \/ MonoOutput SampleFiles.checkout "dist".
Proof.
  destruct (detection_proposes_directories_with_assets SampleFiles.checkout ""
              Sample.start
              (snd (Autodetect.locateBuildOutput SampleFiles.checkout "" Sample.start))
              {| out_path := "dist"; out_mode := "auto";
                 out_reason := "found existing dist/ directory" |} eq_refl)
    as [(Hgiven & _) | (_ & _ & Hfound)]; [now contradiction Hgiven|exact Hfound].
Defined.

Lemma dist_with_assets_is_chosen_first_sample :
  exists w',
    Autodetect.locateBuildOutput SampleFiles.checkout "" Sample.start
    = (Ok (Some {| out_path := "dist"; out_mode := "auto";
                   out_reason := "found existing dist/ directory" |}), w')
    /\ onlyLogged Sample.start w'.
Proof.
  apply (dist_with_assets_is_chosen_first SampleFiles.checkout Sample.start).
  exact sample_dist_holds_assets.
Defined.
End DetectionInstances.

(** ** The pull-request comment *)

Section OurComment.
Import Report Spec.

Lemma prefix_grows (p s more : string) :
  String.prefix p s = true -> String.prefix p (s ++ more) = true.
Proof.
  revert s. induction p as [|c p IH]; intros s; [intros _; apply prefix_empty|].
  destruct s as [|d s]; [discriminate|]. rewrite append_cons. cbn [String.prefix].
  destruct (Ascii.ascii_dec c d); [apply IH|discriminate].
Qed.

Lemma includes_prefix (needle hay : string) :
  String.prefix needle hay = true -> includes needle hay = true.
Proof. intros H. destruct hay; cbn [includes]; now rewrite H. Qed.

Lemma appendChanges_grows (js : Numbers) (p : string) (changes : list Change) :
  forall body, String.prefix p body = true ->
               String.prefix p (appendChanges js changes body) = true.
Proof.
  unfold appendChanges.
  induction changes as [|change later IH]; intros body Hp; cbn [fold_left]; [exact Hp|].
  apply IH. now apply prefix_grows.
Qed.

Ltac peel_prefix :=
  repeat first
    [ apply appendChanges_grows
    | match goal with
      | |- String.prefix _ (match ?x with _ => _ end) = true => destruct x
      | |- String.prefix _ (if ?c then _ else _) = true => destruct c
      end
    | apply prefix_grows ].

(** X22. Every comment body [buildCommentMarkdown] builds starts with
    the marker, so a comment this action posted is one [findOurComment]
    takes for its own: the next run finds it and updates it instead of
    posting another. *)
Theorem built_comment_is_recognised (js : Numbers) (d : DiffResult) (commentId : Z) :
  isOurs {| comment_id := commentId; comment_body := Some (buildCommentMarkdown js d) |}
  = true.
Proof.
  unfold isOurs. cbn [comment_body]. apply includes_prefix.
  unfold buildCommentMarkdown. cbv zeta.
  peel_prefix; reflexivity.
Qed.
End OurComment.

Section FindOurComment.
Import Report Spec.
Variables (issues : Issues) (prNumber : Z).

Lemma findInPages_first (datas : list (list IssueComment)) :
  forall (later : list (Outcome (list IssueComment))) (w : World) (ours : IssueComment),
    List.find isOurs (concat datas) = Some ours ->
    exists asked,
      findInPages (map Ok datas ++ later)%list w
      = (Ok (Some (comment_id ours)), afterRequests asked w)
      /\ (1 <= asked <= List.length datas)%nat.
Proof.
  induction datas as [|data rest IH]; intros later w ours; cbn [concat]; [discriminate|].
  rewrite find_app. cbn [map app findInPages].
  unfold bind at 1. rewrite request_answer. cbv beta iota.
  destruct (List.find isOurs data) as [found|] eqn:Hfind.
  - intros [= ->]. exists 1%nat. split; [reflexivity|]. cbn [List.length]. lia.
  - intros Hrest. destruct (IH later (afterRequests 1 w) ours Hrest) as (asked & -> & Hasked).
    exists (S asked). split.
    + rewrite afterRequests_add. do 2 f_equal. lia.
    + cbn [List.length]. lia.
Qed.

Lemma findInPages_none (datas : list (list IssueComment)) :
  forall (w : World),
    List.find isOurs (concat datas) = None ->
    findInPages (map Ok datas) w = (Ok None, afterRequests (List.length datas) w).
Proof.
  induction datas as [|data rest IH]; intros w; cbn [concat map findInPages List.length].
  - intros _. unfold afterRequests. now destruct w.
  - rewrite find_app. unfold bind at 1. rewrite request_answer. cbv beta iota.
    destruct (List.find isOurs data); [discriminate|].
    intros Hrest. rewrite (IH _ Hrest), afterRequests_add. do 2 f_equal. lia.
Qed.

Lemma findInPages_fails (datas : list (list IssueComment)) (error : string) :
  forall (later : list (Outcome (list IssueComment))) (w : World),
    List.find isOurs (concat datas) = None ->
    findInPages (map Ok datas ++ Throw error :: later)%list w
    = (Throw error, afterRequests (S (List.length datas)) w).
Proof.
  induction datas as [|data rest IH]; intros later w;
    cbn [concat map app findInPages List.length].
  - intros _. reflexivity.
  - rewrite find_app. unfold bind at 1. rewrite request_answer. cbv beta iota.
    destruct (List.find isOurs data); [discriminate|].
    intros Hrest. rewrite (IH _ _ Hrest), afterRequests_add. do 2 f_equal. lia.
Qed.


(** X23. [findOurComment] never throws. When the pages of comments
    arrive, it returns the id of the first comment, in the order the
    pages list them, whose body holds the marker (a comment without a
    body is passed over); when no comment holds it, it returns null
    having asked for every page; and when a page fails before a marked
    comment was seen, it logs "Failed to list comments: ..." and
    returns null. *)
Theorem findOurComment_first_marked (w : World) (datas : list (list IssueComment)) :
  (exists result w', findOurComment issues prNumber w = (Ok result, w'))
  /\ (forall later ours,
        listComments issues (requests w) prNumber = (map Ok datas ++ later)%list ->
        List.find isOurs (concat datas) = Some ours ->
        fst (findOurComment issues prNumber w) = Ok (Some (comment_id ours)))
  /\ (listComments issues (requests w) prNumber = map Ok datas ->
      List.find isOurs (concat datas) = None ->
      findOurComment issues prNumber w
      = (Ok None, afterRequests (List.length datas) w))
  /\ (forall later error,
        listComments issues (requests w) prNumber
        = (map Ok datas ++ Throw error :: later)%list ->
        List.find isOurs (concat datas) = None ->
        findOurComment issues prNumber w
        = (Ok None, logged [Warning ("Failed to list comments: " ++ error)]
                      (afterRequests (S (List.length datas)) w))).
Proof.
  unfold findOurComment. repeat split.
  - unfold try_catch.
    match goal with |- context [match ?body with _ => _ end] =>
      destruct body as [[result|message] w1] end; eexists _, _; reflexivity.
  - intros later ours Hpages Hfind.
    destruct (findInPages_first datas later w ours Hfind) as (asked & Hrun & _).
    unfold try_catch. erewrite bind_ok by reflexivity. cbv beta.
    rewrite Hpages, Hrun. reflexivity.
  - intros Hpages Hfind. unfold try_catch. erewrite bind_ok by reflexivity. cbv beta.
    rewrite Hpages, (findInPages_none datas w Hfind). reflexivity.
  - intros later error Hpages Hfind. unfold try_catch.
    erewrite bind_ok by reflexivity. cbv beta.
    rewrite Hpages, (findInPages_fails datas error later w Hfind). reflexivity.
Qed.
End FindOurComment.

Section PostingTheComment.
Import Report Spec.
Variables (js : Numbers) (issues : Issues).

(** X24. In mode [never], and in mode [on-increase] when the compared
    size did not grow, [updatePRComment] does nothing at all: no
    request, no line in the log. *)
Theorem comment_modes_that_post_nothing (prNumber : option Z) (d : DiffResult)
    (mode : string) (failOnError : bool) (w : World) :
  mode = "never"
  \/ (mode = "on-increase" /\ PrimFloat.leb (diffMetric d) 0 = true) ->
  updatePRComment js issues prNumber d mode failOnError w = (Ok tt, w).
Proof.
  intros [->|[-> Hle]]; unfold updatePRComment; [reflexivity|].
  cbn [String.eqb]. change (String.eqb "on-increase" "never") with false.
  change (String.eqb "on-increase" "on-increase") with true. cbv iota.
  cbn [andb]. now rewrite Hle.
Qed.


(** X26. When the comments cannot be listed, [updatePRComment] goes on
    as if the pull request had no comment of this action: after the
    warning it asks for a new comment to be created. *)
Theorem listing_failure_posts_a_new_comment (number : Z) (d : DiffResult)
    (mode : string) (failOnError : bool) (w : World) (error : string)
    (later : list (Outcome (list IssueComment))) :
  String.eqb mode "never" = false ->
  String.eqb mode "on-increase" && PrimFloat.leb (diffMetric d) 0 = false ->
  listComments issues (requests w) number = Throw error :: later ->
  updatePRComment js issues (Some number) d mode failOnError w
  = try_catch
      (request (fun n => createComment issues n number (buildCommentMarkdown js d));;
       info "Created new comment")
      (fun message =>
         if failOnError then throw message
         else warning ("Failed to post comment: " ++ message))
      (logged [Warning ("Failed to list comments: " ++ error)] (afterRequests 1 w)).
Proof.
  intros Hnever Hquiet Hpages. unfold updatePRComment. rewrite Hnever, Hquiet.
  cbv zeta. unfold bind at 1, findOurComment at 1, try_catch at 1.
  unfold bind at 1. rewrite Hpages. reflexivity.
Qed.
End PostingTheComment.

Section CommentInstances.
Import Report Spec.

Lemma findOurComment_first_marked_sample :
  fst (findOurComment SampleComments.commented 7 Sample.start) = Ok (Some 902).
Proof.
  destruct (findOurComment_first_marked SampleComments.commented 7 Sample.start
              [ [SampleComments.review; SampleComments.empty];
                [SampleComments.ours; SampleComments.review] ])
    as (_ & Hfirst & _).
  apply (Hfirst [Ok [SampleComments.review]] SampleComments.ours).
  - reflexivity.
  - vm_compute. reflexivity.
Defined.

Lemma comment_modes_that_post_nothing_sample :
  updatePRComment SampleComments.numbers SampleComments.commented (Some 7)
    SampleComments.passed "never" true Sample.start
  = (Ok tt, Sample.start).
Proof.
  apply (comment_modes_that_post_nothing SampleComments.numbers SampleComments.commented
           (Some 7) SampleComments.passed "never" true Sample.start).
  left. reflexivity.
Defined.

Lemma listing_failure_posts_a_new_comment_sample :
  updatePRComment SampleComments.numbers SampleComments.unlistable (Some 7)
    SampleComments.passed "always" false Sample.start
  = (Ok tt,
     logged [ Info "Created new comment";
              Warning "Failed to list comments: Resource not accessible by integration" ]
       (afterRequests 2 Sample.start)).
Proof.
  rewrite (listing_failure_posts_a_new_comment SampleComments.numbers
             SampleComments.unlistable 7 SampleComments.passed "always" false
             Sample.start "Resource not accessible by integration" []
             eq_refl eq_refl eq_refl).
  reflexivity.
Defined.
End CommentInstances.
